(** * autogtp/Production.cpp: the self-play client's orchestration logic

    A shallow embedding of [ProductionWorker::run] and of the [Production]
    member functions ([updateNetwork], [startGames],
    [fetchBestNetworkHash], [networkExists], [fetchBestNetwork],
    [uploadData], [printTimingInfo], [getResult]), followed by the
    properties the specification states about them and by further
    properties of the code.

    The program talks to three things it does not own: the file system
    (through QFile, QFileInfo and QDir), external processes (curl, gzip,
    gunzip, through QProcess) and the game engine (through the [Game]
    class).  The file system is a finite map from path names to files,
    external processes are answered by an [environment], and the engine is
    answered by a script of replies. *)

From Stdlib Require Import ZArith QArith Qround Qminmax Qpower Lia Ascii String.
From stdpp Require Import gmap strings list pretty.

Local Open Scope Z_scope.

(** ** Constants (Production.cpp, lines 28-30) *)

Definition RETRY_DELAY_MIN_SEC : Z := 30.
Definition RETRY_DELAY_MAX_SEC : Z := 60 * 60.
Definition MAX_RETRIES : nat := 4 * 24.

(** The range of the C++ [int] on every platform Qt supports. *)
Definition INT_MIN : Z := - 2 ^ 31.
Definition INT_MAX : Z := 2 ^ 31 - 1.

(** [m_gamesPlayed++] and the increment of the shared moves counter, on
    32-bit two's complement integers. *)
Definition wrap_int (z : Z) : Z := (z - INT_MIN) mod 2 ^ 32 + INT_MIN.

(** ** Strings *)

(** [QString::split(sep)] for a one-character separator, empty parts kept
    (the default [Qt::KeepEmptyParts]). *)
Fixpoint QString_split (sep : ascii) (s : string) : list string :=
  match s with
  | EmptyString => [EmptyString]
  | String c rest =>
      if Ascii.eqb c sep then EmptyString :: QString_split sep rest
      else match QString_split sep rest with
           | [] => [String c EmptyString]
           | part :: parts => String c part :: parts
           end
  end.

(** [QString::chop(n)]: drop the last [n] characters (everything when the
    string is shorter). *)
Definition QString_chop (n : nat) (s : string) : string :=
  String.substring 0 (String.length s - n) s.

Definition newline : ascii := Ascii.ascii_of_nat 10.

(** [QString::count(ch)]: how often a character occurs in a string. *)
Fixpoint QString_count (ch : ascii) (s : string) : nat :=
  match s with
  | EmptyString => 0
  | String c rest =>
      (if Ascii.eqb c ch then 1 else 0) + QString_count ch rest
  end.

(** ** The file system *)

(** What opening and hashing a file gives: [f.open(QFile::ReadOnly)] may
    fail, [hash.addData(&f)] may fail, and otherwise the hex SHA-256
    digest of the content is obtained. *)
Inductive access :=
| Readable (sha256_hex : string)
| ReadFails
| NoOpen.

Record file := mkFile {
  content : access;
  (** whether [QFile::remove] / [QDir::remove] succeeds on it *)
  removable : bool
}.

(** The file a path names; the empty path names none. *)
Definition QFile_at (name : string) (d : gmap string file) : option file :=
  if String.eqb name EmptyString then None else d !! name.

Definition QFileInfo_exists (name : string) (d : gmap string file) : bool :=
  match QFile_at name d with Some _ => true | None => false end.

Definition QFile_remove (name : string) (d : gmap string file)
  : gmap string file * bool :=
  match d !! name with
  | Some f => if removable f then (delete name d, true) else (d, false)
  | None => (d, false)
  end.

(** ** The environment *)

(** What an external process leaves behind: [QProcess::exitCode()],
    [readAllStandardOutput()] and the file system after it ran. *)
Record process_result := mkResult {
  exitCode : Z;
  standardOutput : string;
  disk_after : gmap string file
}.

(** The width of [long]: 64 bits where the data model is LP64, 32 bits
    elsewhere. *)
Inductive long_width := long_32 | long_64.

Record environment := mkEnvironment {
  (** [QString::toInt()] *)
  QString_toInt : string -> Z;
  long_bits : long_width;
  (** the [int] a conversion from [double] produces when the truncated
      value does not fit ([INT_MIN] with x86 cvttsd2si, [INT_MAX] on
      ARM) *)
  double_to_int_overflow : Z;
  (** [QDir::entryInfoList()] of the working directory under one name
      filter, as file names *)
  QDir_entryInfoList : string -> gmap string file -> list string;
  (** what writing a new file under a name leads to: [None] when the
      file system refuses (the directory is missing or cannot be written
      to), otherwise whether the new file can be removed later *)
  QFile_created : string -> gmap string file -> option bool;
  (** the [n]-th external process the program runs, by command line *)
  QProcess_run : nat -> string -> gmap string file -> process_result
}.

(** [QFile(src).copy(dst)]: the source must open and read, nothing is
    overwritten, and the file system must let the new file be written;
    otherwise nothing happens.  The [bool] that [copy] returns is left
    out: the program does not look at it. *)
Definition QFile_copy (E : environment) (src dst : string)
  (d : gmap string file) : gmap string file :=
  match d !! src, d !! dst with
  | Some f, None =>
      match content f, QFile_created E dst d with
      | Readable sha256_hex, Some removable_later =>
          <[dst := mkFile (Readable sha256_hex) removable_later]> d
      | _, _ => d
      end
  | _, _ => d
  end.

(** Conversion of a 64-bit integer to [float] (IEEE binary32: 24 bits of
    precision, round to nearest, ties to even), given as the number the
    [float] denotes.  Every 64-bit integer is far inside the range of
    [float], and up to 2^24 in absolute value the conversion is exact. *)
Definition to_float (z : Z) : Z :=
  let a := Z.abs z in
  if a <? 2 ^ 24 then z
  else
    let e := Z.log2 a - 23 in
    let q := a / 2 ^ e in
    let r := a mod 2 ^ e in
    let half := 2 ^ (e - 1) in
    let q := if r <? half then q
             else if half <? r then q + 1
             else if Z.even q then q else q + 1 in
    Z.sgn z * (q * 2 ^ e).

(** Conversion of a [double] to [int]: truncation towards zero. *)
Definition double_to_int (E : environment) (x : Q) : Z :=
  let t := Z.quot (Qnum x) (Zpos (Qden x)) in
  if (INT_MIN <=? t) && (t <=? INT_MAX) then t
  else double_to_int_overflow E.

(** Conversion of an [int] to [unsigned long], as in the call of
    [QThread::sleep(unsigned long)] with an [int] argument. *)
Definition to_unsigned_long (E : environment) (z : Z) : Z :=
  z mod (match long_bits E with long_32 => 2 ^ 32 | long_64 => 2 ^ 64 end).

(** [std::min<int>(RETRY_DELAY_MIN_SEC * std::pow(1.5, retries),
    RETRY_DELAY_MAX_SEC)]: the explicit template argument makes both
    parameters [const int&], so the [double] product is converted to [int]
    before the minimum is taken.  The product is the rational
    [30 * (3/2)^retries]; it is a binary64 number up to [retries = 31], and
    beyond that rounding moves it across neither 3600 nor [INT_MAX]. *)
Definition pow_1_5 (retries : nat) : Q := ((3 # 2) ^ Z.of_nat retries)%Q.

Definition retry_delay (E : environment) (retries : nat) : Z :=
  Z.min (double_to_int E (inject_Z RETRY_DELAY_MIN_SEC * pow_1_5 retries)%Q)
        RETRY_DELAY_MAX_SEC.

(** The seconds the [catch] block of [updateNetwork] sleeps after the
    failed attempt of index [retries]. *)
Definition backoff_seconds (E : environment) (retries : nat) : Z :=
  to_unsigned_long E (retry_delay E retries).

(** The formula of the specification, over the rationals. *)
Definition spec_backoff_delay (attempt : nat) : Q :=
  Qmin (inject_Z 30 * (3 # 2) ^ Z.of_nat attempt)%Q (inject_Z 3600).

(** ** The Worker: [ProductionWorker] *)

Module ProductionWorker.

(** The anonymous enum of the class. *)
Inductive RunState := RUNNING | NET_CHANGE | FINISHING.

Definition RunState_eqb (a b : RunState) : bool :=
  match a, b with
  | RUNNING, RUNNING | NET_CHANGE, NET_CHANGE | FINISHING, FINISHING => true
  | _, _ => false
  end.

(** What the thread does that others can see, in program order: calls on
    its [Game] object, lines on stdout and the [resultReady] signal. *)
Inductive action :=
| print (line : string)
| Game_new (network option : string)
| gameStart
| move
| waitForMove
| readMove
| nextMove
| getScore
| writeSgf
| dumpTraining
  (** [emit resultReady(file, duration)], with the duration as the
      connected slot receives it: a [float] (line 172) *)
| resultReady (file : string) (duration : Z)
| gameQuit.

Record worker := mkWorker {
  m_state : RunState;
  m_network : string;
  m_option : string;
  (** the counter [m_movesMade] points to *)
  movesMade : Z;
  (** the actions performed so far, oldest first *)
  actions : list action
}.

Definition perform (a : action) (w : worker) : worker :=
  mkWorker (m_state w) (m_network w) (m_option w) (movesMade w)
           (actions w ++ [a]).

Definition set_state (st : RunState) (w : worker) : worker :=
  mkWorker st (m_network w) (m_option w) (movesMade w) (actions w).

Definition count_move (w : worker) : worker :=
  mkWorker (m_state w) (m_network w) (m_option w)
           (wrap_int (movesMade w + 1)) (actions w).

(** [ProductionWorker::init] (lines 92-102). *)
Definition init (gpuIndex net : string) (movesMade0 : Z) : worker :=
  let m_option0 := " -g -q -d -n -m 30 -w " in
  let m_option1 :=
    if String.eqb gpuIndex EmptyString then m_option0
    else (" --gpu=" +:+ gpuIndex +:+ " ") +:+ m_option0 in
  mkWorker RUNNING net m_option1 movesMade0 [].

(** Modelled from the spec: [ProductionWorker::newNetwork] is declared in
    Production.h, which is not among the sources.  The Coordinator
    broadcasts the new model identifier to a Worker by value and the
    Worker's state becomes NET_CHANGE (spec 4.3, step 4, and section 5). *)
Definition newNetwork (net : string) (w : worker) : worker :=
  mkWorker NET_CHANGE net (m_option w) (movesMade w) (actions w).

(** Modelled from the spec: the Coordinator may also set FINISHING, a
    one-way signal (spec 3 and 5); no setter is among the sources. *)
Definition finish (w : worker) : worker := set_state FINISHING w.

(** A write of the Coordinator to [m_state] and [m_network].  The thread
    of the Worker is followed on its own; the writes of other threads are
    taken to reach it while it waits for the engine's move or while the
    slot connected to [resultReady] runs. *)
Inductive signal :=
| sig_newNetwork (net : string)
| sig_finish.

Definition deliver (s : option signal) (w : worker) : worker :=
  match s with
  | None => w
  | Some (sig_newNetwork net) => newNetwork net w
  | Some sig_finish => finish w
  end.

(** The engine's answers during one pass of the inner loop, and what the
    Coordinator wrote to this Worker meanwhile. *)
Record move_reply := mkMove {
  waitForMove_ok : bool;
  nextMove_more : bool;
  meanwhile : option signal
}.

(** Everything one pass of the outer loop reads from outside. *)
Record game_reply := mkGame {
  (** [pick < 0.2] *)
  pick_below_fifth : bool;
  gameStart_ok : bool;
  moves : list move_reply;
  getScore_ok : bool;
  getFile : string;
  (** seconds between [start] and [end] *)
  gameDuration : Z;
  (** what the slot connected to [resultReady] wrote to this Worker: the
      connection is direct, so [Production::getResult] runs inside the
      [emit] *)
  in_handler : option signal
}.

(** The inner loop (lines 52-59).  [Blocked]: the engine never answers. *)
Inductive played :=
| Ended (w : worker)
| Died (w : worker)
| Blocked (w : worker).

Fixpoint play (replies : list move_reply) (w : worker) : played :=
  match replies with
  | [] => Blocked (perform waitForMove (perform move w))
  | r :: rest =>
      let w := perform waitForMove (perform move w) in
      if negb (waitForMove_ok r) then Died w
      else
        let w := count_move (perform readMove w) in
        let w := perform nextMove (deliver (meanwhile r) w) in
        if nextMove_more r && RunState_eqb (m_state w) RUNNING
        then play rest w
        else Ended w
  end.

(** The option string of one game (lines 42-44). *)
Definition game_option (g : game_reply) (w : worker) : string :=
  let resignpct := if pick_below_fifth g then "0" else "5" in
  " -r " +:+ resignpct +:+ m_option w.

(** The top of the loop body (lines 37-49), up to the call of
    [gameStart]. *)
Definition begin (g : game_reply) (w : worker) : worker :=
  let option := game_option g w in
  perform gameStart
    (perform (Game_new (m_network w) option)
       (perform (print ("option=" +:+ option)) w)).

(** The [switch] on [m_state] (lines 60-88). *)
Definition conclude (g : game_reply) (w : worker) : worker :=
  match m_state w with
  | RUNNING =>
      let w := perform (print "Game has ended.") w in
      let w := perform getScore w in
      let w := if getScore_ok g
               then perform dumpTraining (perform writeSgf w) else w in
      let w := perform (resultReady (getFile g)
                                    (to_float (gameDuration g))) w in
      let w := deliver (in_handler g) w in
      let w := perform (print "Stopping engine.") w in
      perform gameQuit w
  | NET_CHANGE =>
      let w := perform (print "Best Network has changed: restarting.") w in
      let w := set_state RUNNING w in
      let w := perform (print "Stopping engine.") w in
      perform gameQuit w
  | FINISHING =>
      let w := perform (print "Program ends: exiting.") w in
      let w := perform (print "Stopping engine.") w in
      perform gameQuit w
  end.

(** How [run] leaves: the loop ends, an early [return], or the thread is
    still inside the loop when the replies run out. *)
Inductive ran :=
| Finished (w : worker)
| Returned (w : worker)
| Running (w : worker).

(** [ProductionWorker::run] (lines 32-90). *)
Fixpoint run (games : list game_reply) (w : worker) : ran :=
  match games with
  | [] => Running w
  | g :: rest =>
      let w := begin g w in
      if negb (gameStart_ok g) then Returned w
      else match play (moves g) w with
           | Died w => Returned w
           | Blocked w => Running w
           | Ended w =>
               let w := conclude g w in
               if RunState_eqb (m_state w) FINISHING then Finished w
               else run rest w
           end
  end.

(** The [resultReady] notifications among some actions. *)
Definition is_resultReady (a : action) : bool :=
  match a with resultReady _ _ => true | _ => false end.

Definition notifications (l : list action) : list action :=
  List.filter is_resultReady l.

Definition is_persist (a : action) : bool :=
  match a with writeSgf | dumpTraining => true | _ => false end.

(** The calls of the inner loop. *)
Definition is_move_call (a : action) : bool :=
  match a with
  | move | waitForMove | readMove | nextMove => true
  | _ => false
  end.

Definition worker_of (p : played) : worker :=
  match p with Ended w | Died w | Blocked w => w end.

(** What one pass of the inner loop makes of the Worker when the wait
    for the move succeeds (lines 53-58 and the evaluation of
    [game.nextMove()]). *)
Definition after_move (r : move_reply) (w : worker) : worker :=
  perform nextMove
    (deliver (meanwhile r)
       (count_move (perform readMove (perform waitForMove (perform move w))))).

Definition ran_worker (r : ran) : worker :=
  match r with Finished w | Returned w | Running w => w end.

Definition is_Game_new (a : action) : bool :=
  match a with Game_new _ _ => true | _ => false end.

Definition is_gameQuit (a : action) : bool :=
  match a with gameQuit => true | _ => false end.

Definition is_readMove (a : action) : bool :=
  match a with readMove => true | _ => false end.

Definition occurrences (p : action -> bool) (l : list action) : nat :=
  List.length (List.filter p l).

(** The replies of an engine that plays a game to its end while the
    Coordinator leaves the Worker alone: every wait succeeds, and some
    move is the last one. *)
Fixpoint plays_out (replies : list move_reply) : bool :=
  match replies with
  | [] => false
  | r :: rest =>
      waitForMove_ok r
      && match meanwhile r with None => true | Some _ => false end
      && (negb (nextMove_more r) || plays_out rest)
  end.

(** A game that starts, is played to its end, and whose result handler
    does not write to the Worker. *)
Definition undisturbed (g : game_reply) : bool :=
  gameStart_ok g && plays_out (moves g)
  && match in_handler g with None => true | Some _ => false end.

End ProductionWorker.

(** ** The Coordinator: [Production] *)

Module Production.

(** What the Coordinator does that the outside can see, in program
    order. *)
Inductive event :=
| Print (text : string)
| Exec (cmdline : string)
| Sleep (secs : Z)
| Remove (name : string)
| Copy (src dst : string).

Record production := mkProduction {
  m_network : string;
  m_version : Z;
  m_gamesPlayed : Z;
  m_movesMade : Z;
  m_keepPath : string;
  m_debugPath : string;
  m_gamesThreads : list ProductionWorker.worker;
  (** the working directory *)
  disk : gmap string file;
  (** how many external processes have been run *)
  spawned : nat;
  (** the events so far, oldest first *)
  events : list event
}.

(** A member function either returns, throws a [NetworkException], calls
    [exit(EXIT_FAILURE)], or divides by zero. *)
Inductive outcome (A : Type) :=
| Return (a : A) (s : production)
| Throw (what : string) (s : production)
| Exit (s : production)
| DivisionByZero (s : production).
Arguments Return {A} a s.
Arguments Throw {A} what s.
Arguments Exit {A} s.
Arguments DivisionByZero {A} s.

Definition computation (A : Type) : Type := production -> outcome A.

Definition ret {A} (a : A) : computation A := fun s => Return a s.

Definition bind {A B} (c : computation A) (k : A -> computation B)
  : computation B :=
  fun s => match c s with
           | Return a s' => k a s'
           | Throw what s' => Throw what s'
           | Exit s' => Exit s'
           | DivisionByZero s' => DivisionByZero s'
           end.

Declare Scope production_scope.
Delimit Scope production_scope with prod.
Notation "x <- c ;; k" := (bind c (fun x => k))
  (at level 100, c at next level, right associativity) : production_scope.
Notation "c ;; k" := (bind c (fun _ => k))
  (at level 100, right associativity) : production_scope.
Local Open Scope production_scope.

Definition throw {A} (what : string) : computation A :=
  fun s => Throw what s.

Definition exit_failure {A} : computation A := fun s => Exit s.

(** [try { body } catch (NetworkException ex) { handler }] *)
Definition try_catch {A} (body : computation A)
  (handler : string -> computation A) : computation A :=
  fun s => match body s with
           | Throw what s' => handler what s'
           | r => r
           end.

Definition state_of {A} (r : outcome A) : production :=
  match r with
  | Return _ s | Throw _ s | Exit s | DivisionByZero s => s
  end.

(** *** Primitive steps *)

Definition emit (e : event) (s : production) : production :=
  mkProduction (m_network s) (m_version s) (m_gamesPlayed s) (m_movesMade s)
    (m_keepPath s) (m_debugPath s) (m_gamesThreads s)
    (disk s) (spawned s) (events s ++ [e]).

Definition with_disk (d : gmap string file) (s : production) : production :=
  mkProduction (m_network s) (m_version s) (m_gamesPlayed s) (m_movesMade s)
    (m_keepPath s) (m_debugPath s) (m_gamesThreads s)
    d (spawned s) (events s).

Definition with_network (n : string) (s : production) : production :=
  mkProduction n (m_version s) (m_gamesPlayed s) (m_movesMade s)
    (m_keepPath s) (m_debugPath s) (m_gamesThreads s)
    (disk s) (spawned s) (events s).

Definition with_gamesPlayed (n : Z) (s : production) : production :=
  mkProduction (m_network s) (m_version s) n (m_movesMade s)
    (m_keepPath s) (m_debugPath s) (m_gamesThreads s)
    (disk s) (spawned s) (events s).

Definition with_gamesThreads (l : list ProductionWorker.worker)
  (s : production) : production :=
  mkProduction (m_network s) (m_version s) (m_gamesPlayed s) (m_movesMade s)
    (m_keepPath s) (m_debugPath s) l
    (disk s) (spawned s) (events s).

Definition tick (s : production) : production :=
  mkProduction (m_network s) (m_version s) (m_gamesPlayed s) (m_movesMade s)
    (m_keepPath s) (m_debugPath s) (m_gamesThreads s)
    (disk s) (S (spawned s)) (events s).

(** [QTextStream(stdout) << ...] *)
Definition print (text : string) : computation unit :=
  fun s => Return tt (emit (Print text) s).

(** [QThread::sleep(secs)], with [secs] an [unsigned long] *)
Definition sleep (secs : Z) : computation unit :=
  fun s => Return tt (emit (Sleep secs) s).

(** [QProcess]: start the command, wait for it, read its exit code and
    its standard output. *)
Definition exec (E : environment) (cmdline : string)
  : computation (Z * string) :=
  fun s =>
    let r := QProcess_run E (spawned s) cmdline (disk s) in
    Return (exitCode r, standardOutput r)
           (tick (with_disk (disk_after r) (emit (Exec cmdline) s))).

Definition file_exists (name : string) : computation bool :=
  fun s => Return (QFileInfo_exists name (disk s)) s.

(** [f.remove()], [dir.remove(name)] *)
Definition remove (name : string) : computation bool :=
  fun s =>
    let (d, ok) := QFile_remove name (disk s) in
    Return ok (with_disk d (emit (Remove name) s)).

(** [QFile(src).copy(dst)] *)
Definition copy (E : environment) (src dst : string) : computation unit :=
  fun s =>
    Return tt (with_disk (QFile_copy E src dst (disk s))
                 (emit (Copy src dst) s)).

Definition get {A} (f : production -> A) : computation A :=
  fun s => Return (f s) s.

Definition set_network (n : string) : computation unit :=
  fun s => Return tt (with_network n s).

(** *** The model store *)

Section ModelStore.

Variable E : environment.

Definition best_network_hash_cmdline : string :=
  "curl" +:+ " http://zero.sjeng.org/best-network-hash".

(** Lines 214-248 of [fetchBestNetworkHash]: what is made of the exit
    code and the output of curl. *)
Definition read_best_network_hash (curl : Z * string) : computation bool :=
  let output := snd curl in
  let outlst := QString_split newline output in
  if negb (fst curl =? 0) then
    throw ("Curl returned non-zero exit code " +:+ pretty (fst curl))
  else if negb (length outlst =? 2)%nat then
    print ("Unexpected output from server: " +:+ output) ;;
    throw "Unexpected output from server"
  else
    let outhash := nth 0 outlst EmptyString in
    print ("Best network hash: " +:+ outhash) ;;
    let client_version := nth 1 outlst EmptyString in
    let server_expected := QString_toInt E client_version in
    print ("Required client version: " +:+ client_version) ;;
    m_version <- get m_version ;;
    if m_version <? server_expected then
      print " " ;;
      print ("Server requires client version " +:+ pretty server_expected
             +:+ " but we are version " +:+ pretty m_version) ;;
      print "Check https://github.com/gcp/leela-zero for updates." ;;
      exit_failure
    else
      print " (OK)" ;;
      m_network <- get m_network ;;
      if String.eqb outhash m_network then ret true
      else set_network outhash ;; ret false.

(** [Production::fetchBestNetworkHash] (lines 204-249); the branch of
    the preprocessor without WIN32. *)
Definition fetchBestNetworkHash : computation bool :=
  let prog_cmdline := best_network_hash_cmdline in
  curl <- exec E prog_cmdline ;;
  read_best_network_hash curl.

(** [Production::networkExists] (lines 251-279). *)
Definition networkExists : computation bool :=
  m_network <- get m_network ;;
  f <- get (fun s => QFile_at m_network (disk s)) ;;
  match f with
  | Some f =>
      match content f with
      | Readable result =>
          if String.eqb result m_network then ret true
          else
            print "Downloaded network hash doesn't match." ;;
            remove m_network ;;
            ret false
      | ReadFails =>
          print "Reading network file failed." ;;
          exit_failure
      | NoOpen =>
          print "Unable to open network file for reading." ;;
          removed <- remove m_network ;;
          if removed then ret false
          else
            print "Unable to delete the network file. Check permissions." ;;
            exit_failure
      end
  | None => ret false
  end.

Definition best_network_cmdline : string :=
  "curl" +:+ " -s -O -J" +:+ " -w %{filename_effective}"
  +:+ " http://zero.sjeng.org/best-network".

(** Lines 287-328 of [fetchBestNetwork]: fetch the compressed network,
    decompress it, and take the name of the file as the network. *)
Definition download : computation unit :=
  m_network <- get m_network ;;
  gz_exists <- file_exists (m_network +:+ ".gz") ;;
  (if gz_exists then remove (m_network +:+ ".gz") ;; ret tt else ret tt) ;;
  let prog_cmdline := best_network_cmdline in
  print prog_cmdline ;;
  curl <- exec E prog_cmdline ;;
  if negb (fst curl =? 0) then
    throw ("Curl returned non-zero exit code " +:+ pretty (fst curl))
  else
    let outlst := QString_split newline (snd curl) in
    let outfile := nth 0 outlst EmptyString in
    print ("Curl filename: " +:+ outfile) ;;
    exec E ("gunzip -q " +:+ outfile) ;;
    let outfile := QString_chop 3 outfile in
    print ("Net filename: " +:+ outfile) ;;
    set_network outfile.

(** [Production::fetchBestNetwork] (lines 281-335). *)
Definition fetchBestNetwork : computation unit :=
  present <- networkExists ;;
  if present then print "Already downloaded network."
  else
    download ;;
    verified <- networkExists ;;
    if verified then ret tt else exit_failure.

(** The body of the [try] block of [updateNetwork]. *)
Definition attempt : computation bool :=
  new_network <- fetchBestNetworkHash ;;
  fetchBestNetwork ;;
  ret new_network.

(** The [catch] block of [updateNetwork]. *)
Definition backoff (retries : nat) (what : string) : computation unit :=
  print "Network connection to server failed." ;;
  print what ;;
  let retry_delay := retry_delay E retries in
  print ("Retrying in " +:+ pretty retry_delay +:+ " s.") ;;
  sleep (to_unsigned_long E retry_delay).

(** The [for] loop of [updateNetwork], entered with [retries] and with
    [remaining = MAX_RETRIES - retries] passes to go. *)
Fixpoint updateNetwork_from (remaining retries : nat) : computation bool :=
  match remaining with
  | O =>
      print "Maximum number of retries exceeded. Giving up." ;;
      exit_failure
  | S remaining' =>
      try_catch attempt
        (fun what =>
           backoff retries what ;;
           updateNetwork_from remaining' (S retries))
  end.

(** [Production::updateNetwork] (lines 123-146). *)
Definition updateNetwork : computation bool :=
  updateNetwork_from MAX_RETRIES 0.

(** *** The upload pipeline *)

(** Lines 355-368 of the loop of [uploadData]: keep copies if asked to,
    then compress the game record. *)
Definition save_entry (sgf_file data_file debug_data_file : string)
  : computation unit :=
  m_keepPath <- get m_keepPath ;;
  (if negb (String.eqb m_keepPath EmptyString)
   then copy E sgf_file (m_keepPath +:+ "/" +:+ sgf_file)
   else ret tt) ;;
  m_debugPath <- get m_debugPath ;;
  (if negb (String.eqb m_debugPath EmptyString)
   then copy E data_file (m_debugPath +:+ "/" +:+ data_file) ;;
        copy E debug_data_file (m_debugPath +:+ "/" +:+ debug_data_file)
   else ret tt) ;;
  exec E ("gzip " +:+ sgf_file) ;;
  ret tt.

Definition submit_cmdline (m_network : string) (m_version : Z)
  (sgf_file data_file : string) : string :=
  "curl" +:+ " -F networkhash=" +:+ m_network
  +:+ " -F clientversion=" +:+ pretty m_version
  +:+ " -F sgf=@" +:+ sgf_file
  +:+ " -F trainingdata=@" +:+ data_file
  +:+ " http://zero.sjeng.org/submit".

(** Lines 370-395: submit the compressed record and the training data,
    then remove the local files. *)
Definition submit_entry (sgf_file data_file debug_data_file : string)
  : computation unit :=
  m_network <- get m_network ;;
  m_version <- get m_version ;;
  let prog_cmdline := submit_cmdline m_network m_version sgf_file data_file in
  print prog_cmdline ;;
  curl <- exec E prog_cmdline ;;
  (if negb (fst curl =? 0)
   then print ("Upload failed. Curl Exit code: " +:+ pretty (fst curl)) ;;
        print "Continuing..."
   else ret tt) ;;
  print (snd curl) ;;
  remove sgf_file ;;
  remove data_file ;;
  remove debug_data_file ;;
  ret tt.

(** The body of the loop of [uploadData] (lines 347-395), for one entry
    of the directory listing. *)
Definition upload_entry (fileName : string) : computation unit :=
  let sgf_file := fileName in
  let data_file := QString_chop 4 sgf_file in
  let debug_data_file := data_file +:+ ".txt.debug.0.gz" in
  let data_file := data_file +:+ ".txt.0.gz" in
  save_entry sgf_file data_file debug_data_file ;;
  let sgf_file := sgf_file +:+ ".gz" in
  submit_entry sgf_file data_file debug_data_file.

Fixpoint for_each (l : list string) (body : string -> computation unit)
  : computation unit :=
  match l with
  | [] => ret tt
  | x :: rest => body x ;; for_each rest body
  end.

(** [Production::uploadData] (lines 337-398). *)
Definition uploadData (file : string) : computation unit :=
  list <- get (fun s => QDir_entryInfoList E (file +:+ ".sgf") (disk s)) ;;
  for_each list upload_entry.

(** *** Result aggregation *)

(** Integer division of C++: truncating, undefined for a zero divisor. *)
Definition int_div (a b : Z) : computation Z :=
  if b =? 0 then (fun s => DivisionByZero s) else ret (Z.quot a b).

(** [Production::printTimingInfo] (lines 184-201).  [total_time_s] is
    [game_end - m_start] in whole seconds, read from the clock; the
    counters are those of the state the call starts in. *)
Definition printTimingInfo (total_time_s : Z) (duration : Q)
  : computation unit :=
  m_movesMade <- get m_movesMade ;;
  m_gamesPlayed <- get m_gamesPlayed ;;
  if (m_movesMade =? 0) || (m_gamesPlayed =? 0) then ret tt
  else
    let total_time_min := Z.quot total_time_s 60 in
    let total_time_millis := total_time_s * 1000 in
    per_game <- int_div total_time_s m_gamesPlayed ;;
    per_move <- int_div total_time_millis m_movesMade ;;
    print (pretty m_gamesPlayed +:+ " game(s) played in "
           +:+ pretty total_time_min +:+ " minutes = "
           +:+ pretty per_game +:+ " seconds/game, "
           +:+ pretty per_move +:+ " ms/move"
           +:+ ", last game took " +:+ pretty (double_to_int E duration)
           +:+ " seconds.").

(** [Production::getResult] (lines 172-182), between
    [m_syncMutex.lock()] and [m_syncMutex.unlock()].  [m_gamesThreads]
    has [m_gpus * m_games] elements (line 113), so the loop of lines
    178-179 visits all of them. *)
Definition getResult (total_time_s : Z) (file : string) (duration : Q)
  : computation unit :=
  (fun s => Return tt (with_gamesPlayed (wrap_int (m_gamesPlayed s + 1)) s)) ;;
  printTimingInfo total_time_s duration ;;
  uploadData file ;;
  unchanged <- updateNetwork ;;
  if negb unchanged then
    fun s =>
      Return tt (with_gamesThreads
                   (List.map (ProductionWorker.newNetwork (m_network s))
                             (m_gamesThreads s)) s)
  else ret tt.

(** *** Start-up *)

(** A counting loop [for (i = from; i < from + count; ++i) body(i)] whose
    body can leave defined behaviour. *)
Fixpoint for_upto (from count : nat)
  (body : nat -> production -> option production) (s : production)
  : option production :=
  match count with
  | O => Some s
  | S count' =>
      match body from s with
      | Some s' => for_upto (S from) count' body s'
      | None => None
      end
  end.

(** The body of the inner loop of [startGames] (lines 155-167).
    [m_gpusList.at(gpu)] and [m_gamesThreads[thread_index]] are defined
    only inside the container: outside, the result is [None].  [init]
    sets every member of the Worker, and [start()] lets its thread enter
    [run]. *)
Definition start_thread (m_games : nat) (m_gpusList : list string)
  (gpu game : nat) (s : production) : option production :=
  let thread_index := (gpu * m_games + game)%nat in
  if (thread_index <? length (m_gamesThreads s))%nat then
    match (match m_gpusList with
           | [] => Some EmptyString
           | _ => nth_error m_gpusList gpu
           end) with
    | Some myGpu =>
        Some (with_gamesThreads
                (<[thread_index :=
                     ProductionWorker.init myGpu (m_network s) (m_movesMade s)]>
                   (m_gamesThreads s)) s)
    | None => None
    end
  else None.

(** How [startGames] ends. *)
Inductive started :=
| Started (s : production)
  (** [updateNetwork] did not return *)
| NotStarted (r : outcome bool)
  (** an access outside [m_gpusList] or [m_gamesThreads] *)
| OutOfRange (s : production).

(** [Production::startGames] (lines 148-170), for [m_gpus] and
    [m_games] that are not negative; the clock and the mutex are left
    out. *)
Definition startGames (m_gpus m_games : nat) (m_gpusList : list string)
  (s : production) : started :=
  match updateNetwork s with
  | Return _ s1 =>
      match for_upto 0 m_gpus
              (fun gpu =>
                 for_upto 0 m_games (start_thread m_games m_gpusList gpu))
              s1 with
      | Some s2 => Started s2
      | None => OutOfRange s1
      end
  | r => NotStarted r
  end.

(** The first [remaining] passes of the loop of [updateNetwork], from
    index [retries] on, all end in the [catch] block. *)
Fixpoint always_throws (remaining retries : nat) (s : production) : Prop :=
  match remaining with
  | O => True
  | S remaining' =>
      match attempt s with
      | Throw what s' =>
          always_throws remaining' (S retries)
                        (state_of (backoff retries what s'))
      | _ => False
      end
  end.

End ModelStore.

(** *** Reading the events *)

(** Events that are neither a sleep nor a request for the best network's
    hash. *)
(** The line [updateNetwork] prints before it gives up (line 143). *)
Definition is_giving_up (e : event) : bool :=
  match e with
  | Print text =>
      String.eqb text "Maximum number of retries exceeded. Giving up."
  | _ => false
  end.

Definition is_quiet (e : event) : bool :=
  match e with
  | Sleep _ => false
  | Exec c => negb (String.eqb c best_network_hash_cmdline)
  | _ => true
  end.

(** A computation that never divides by zero. *)
Definition safe {A} (c : computation A) : Prop :=
  forall s s' : production, c s <> DivisionByZero s'.

(** A computation that leaves the games counter alone, however it
    ends. *)
Definition keeps_gamesPlayed {A} (c : computation A) : Prop :=
  forall s : production,
    m_gamesPlayed (state_of (c s)) = m_gamesPlayed s.

(** A computation that adds only events satisfying [p]. *)
Definition adds_only {A} (p : event -> bool) (c : computation A) : Prop :=
  forall s : production,
    exists new : list event,
      events (state_of (c s)) = events s ++ new /\ forallb p new = true.

Definition sleeps (l : list event) : list Z :=
  flat_map (fun e => match e with Sleep n => [n] | _ => [] end) l.

Definition executions (cmdline : string) (l : list event) : nat :=
  List.length
    (List.filter (fun e => match e with
                           | Exec c => String.eqb c cmdline
                           | _ => false
                           end) l).

(** The names of the files the program asked to remove, and the command
    lines of the processes it ran, in order. *)
Definition removals (l : list event) : list string :=
  flat_map (fun e => match e with Remove n => [n] | _ => [] end) l.

Definition commands (l : list event) : list string :=
  flat_map (fun e => match e with Exec c => [c] | _ => [] end) l.

(** The file the active network names is in the working directory,
    opens, reads, and has the name of the network as its digest. *)
Definition network_verified (s : production) : bool :=
  match QFile_at (m_network s) (disk s) with
  | Some f =>
      match content f with
      | Readable result => String.eqb result (m_network s)
      | _ => false
      end
  | None => false
  end.

(** The members of the Coordinator that are neither the active network
    nor the working directory nor the logs. *)
Definition settings (s : production)
  : Z * Z * Z * string * string * list ProductionWorker.worker :=
  (m_version s, m_gamesPlayed s, m_movesMade s, m_keepPath s, m_debugPath s,
   m_gamesThreads s).

(** A computation that leaves one component of the state alone, however
    it ends. *)
Definition preserves {A B} (f : production -> B) (c : computation A) : Prop :=
  forall s : production, f (state_of (c s)) = f s.

(** A computation no [NetworkException] escapes from. *)
Definition never_throws {A} (c : computation A) : Prop :=
  forall (s : production) (what : string) (s' : production),
    c s <> Throw what s'.

End Production.

(** ** Scenarios

    Concrete environments and states on which the definitions above are
    evaluated. *)

Module Scenario.

Import Production.

(** A decimal reading of [QString::toInt]: 0 when the string is not a
    number. *)
Fixpoint decimal (s : string) (acc : Z) : option Z :=
  match s with
  | EmptyString => Some acc
  | String c rest =>
      let n := Z.of_nat (nat_of_ascii c) in
      if (48 <=? n) && (n <=? 57) then decimal rest (10 * acc + (n - 48))
      else None
  end.

Definition toInt (s : string) : Z :=
  match s with
  | EmptyString => 0
  | _ => match decimal s 0 with Some n => n | None => 0 end
  end.

(** [gunzip -q name.gz] and [gzip name] as renamings that overwrite
    nothing. *)
Definition rename (src dst : string) (d : gmap string file)
  : gmap string file :=
  match d !! src, d !! dst with
  | Some f, None => <[dst := f]> (delete src d)
  | _, _ => d
  end.

(** Exact-name listing of the working directory. *)
Definition listing (pattern : string) (d : gmap string file) : list string :=
  match d !! pattern with Some _ => [pattern] | None => [] end.

(** A file system in which new files can be written, and removed later,
    everywhere but under "missing/". *)
Definition creatable (name : string) (d : gmap string file) : option bool :=
  if String.prefix "missing/" name then None else Some true.

(** A server that answers the hash request with [hash_exit] and
    [hash_out], the download with [load_exit] and a compressed file
    [load_name] holding [payload], and every submission with
    [submit_exit]. *)
Definition server (overflow : Z) (hash_exit : Z) (hash_out : string)
  (load_exit : Z) (load_name : string) (payload : file) (submit_exit : Z)
  : environment :=
  mkEnvironment toInt long_64 overflow listing creatable
    (fun _ cmdline d =>
       if String.eqb cmdline best_network_hash_cmdline then
         mkResult hash_exit hash_out d
       else if String.eqb cmdline best_network_cmdline then
         mkResult load_exit load_name
                  (if load_exit =? 0 then <[load_name := payload]> d else d)
       else if String.prefix "gunzip -q " cmdline then
         let name := String.substring 10 (String.length cmdline - 10) cmdline in
         mkResult 0 EmptyString (rename name (QString_chop 3 name) d)
       else if String.prefix "gzip " cmdline then
         let name := String.substring 5 (String.length cmdline - 5) cmdline in
         mkResult 0 EmptyString (rename name (name +:+ ".gz") d)
       else mkResult submit_exit EmptyString d).

Definition two_lines (a b : string) : string := a +:+ String newline b.

Definition good (sha : string) : file := mkFile (Readable sha) true.

(** The Coordinator with network [net] active, client version 1 and the
    working directory [d]. *)
Definition coordinator (net : string) (d : gmap string file) : production :=
  mkProduction net 1 0 0 EmptyString EmptyString [] d 0 [].

(** Scenario: the server announces the active network "abc", whose file
    is not in the working directory. *)
Definition E_same_hash : environment :=
  server INT_MIN 0 (two_lines "abc" "1") 0 "abc.gz" (good "abc") 0.

(** Scenario: the server announces "abc" and delivers a payload whose
    digest is "zzz". *)
Definition E_corrupt : environment :=
  server INT_MIN 0 (two_lines "abc" "1") 0 "abc.gz" (good "zzz") 0.

(** Scenario: every transfer fails with curl's exit code 7. *)
Definition E_offline : environment :=
  server INT_MIN 7 EmptyString 7 EmptyString (good "abc") 7.

(** Scenario: the first two processes fail, the third answers the hash
    request with the active network, and every later one fails. *)
Definition E_flaky : environment :=
  mkEnvironment toInt long_64 INT_MIN listing creatable
    (fun n _ d =>
       if (n =? 2)%nat then mkResult 0 (two_lines "abc" "1") d
       else mkResult 7 EmptyString d).


Definition d_abc : gmap string file := <["abc" := good "abc"]> ∅.

(** Scenario: a finished game "g1" whose training data cannot be
    removed, and a submission that fails. *)
Definition d_game : gmap string file :=
  <["g1.sgf" := good "s"]>
    (<["g1.txt.0.gz" := mkFile (Readable "t") false]> ∅).

(** Scenario: a network file with the wrong content that cannot be
    removed. *)
Definition d_stuck : gmap string file :=
  <["abc" := mkFile (Readable "zzz") false]> ∅.

Import ProductionWorker.

Definition w0 : worker := init EmptyString "net0" 0.

(** The Coordinator as its constructor leaves it for two GPUs with two
    games each: four Workers that have not been set up. *)
Definition coordinator_2x2 : production :=
  with_gamesThreads (replicate 4 (mkWorker FINISHING EmptyString EmptyString 0 []))
    (coordinator "old" ∅).

(** A game of three moves with a winner. *)
Definition game_won : game_reply :=
  mkGame true true
         [mkMove true true None; mkMove true true None; mkMove true false None]
         true "g3" 40 None.

(** A game whose engine does not start, and one whose engine dies at the
    second move. *)
Definition game_unstarted : game_reply :=
  mkGame false false [] false "g4" 0 None.

Definition game_died : game_reply :=
  mkGame false true [mkMove true true None; mkMove false true None]
         false "g5" 0 None.

(** A game whose result makes the Coordinator broadcast network "net2",
    and a game during whose second move the Coordinator sets FINISHING. *)
Definition game_changing : game_reply :=
  mkGame false true [mkMove true false None] true "g6" 9
         (Some (sig_newNetwork "net2")).

Definition game_finishing : game_reply :=
  mkGame false true [mkMove true true None; mkMove true true (Some sig_finish)]
         true "g7" 3 None.

(** A game that ends after one move without a winner. *)
Definition game_undecided : game_reply :=
  mkGame false true [mkMove true false None] false "g1" 12 None.

(** A game during which the Coordinator announces network "net1". *)
Definition game_interrupted : game_reply :=
  mkGame false true [mkMove true true (Some (sig_newNetwork "net1"))]
         true "g2" 5 None.

End Scenario.

(** * Properties of the Worker *)

Module WorkerFacts.

Import ProductionWorker.

Lemma notifications_app (l1 l2 : list action) :
  notifications (l1 ++ l2) = notifications l1 ++ notifications l2.
Proof. unfold notifications. apply List.filter_app. Qed.

Lemma move_calls_notify_nothing (l : list action) :
  forallb is_move_call l = true -> notifications l = [].
Proof.
  induction l as [|a l IH]; [reflexivity|].
  simpl. intros [Ha Hl]%andb_prop. rewrite (IH Hl).
  destruct a; simpl in *; congruence.
Qed.

Lemma move_calls_persist_nothing (l : list action) :
  forallb is_move_call l = true -> existsb is_persist l = false.
Proof.
  induction l as [|a l IH]; [reflexivity|].
  simpl. intros [Ha Hl]%andb_prop. rewrite (IH Hl).
  destruct a; simpl in *; congruence.
Qed.

Lemma deliver_actions (s : option signal) (w : worker) :
  actions (deliver s w) = actions w.
Proof. destruct s as [[net|]|]; reflexivity. Qed.

(** The inner loop only drives the engine: whatever happens, it adds
    move calls to the actions already performed and nothing else. *)
Lemma play_moves_only (replies : list move_reply) :
  forall w : worker,
    exists new : list action,
      actions (worker_of (play replies w)) = actions w ++ new
      /\ forallb is_move_call new = true.
Proof.
  induction replies as [|r rest IH]; intros w.
  - exists [move; waitForMove]. simpl. rewrite <- app_assoc. split; reflexivity.
  - cbn [play]. destruct (waitForMove_ok r); cbn [negb].
    + remember (perform nextMove
                  (deliver (meanwhile r)
                     (count_move
                        (perform readMove
                           (perform waitForMove (perform move w)))))) as w'.
      assert (Hw' : actions w'
                    = actions w ++ [move; waitForMove; readMove; nextMove]).
      { subst w'. simpl. rewrite deliver_actions. simpl.
        rewrite <- !app_assoc. reflexivity. }
      destruct (nextMove_more r && RunState_eqb (m_state w') RUNNING).
      * destruct (IH w') as (new & Hnew & Hq).
        exists ([move; waitForMove; readMove; nextMove] ++ new). split.
        -- rewrite Hnew, Hw', <- app_assoc. reflexivity.
        -- simpl. exact Hq.
      * exists [move; waitForMove; readMove; nextMove].
        split; [exact Hw'|reflexivity].
    + exists [move; waitForMove]. simpl. rewrite <- app_assoc.
      split; reflexivity.
Qed.

(** What the top of the loop body performs. *)
Lemma begin_actions (g : game_reply) (w : worker) :
  actions (begin g w) =
    actions w
    ++ [print ("option=" +:+ game_option g w);
        Game_new (m_network w) (game_option g w);
        gameStart].
Proof. unfold begin. simpl. rewrite <- !app_assoc. reflexivity. Qed.

(** What the RUNNING branch of the switch performs. *)
Lemma conclude_RUNNING (g : game_reply) (w : worker) :
  m_state w = RUNNING ->
  actions (conclude g w) =
    actions w
    ++ [print "Game has ended."; getScore]
    ++ (if getScore_ok g then [writeSgf; dumpTraining] else [])
    ++ [resultReady (getFile g) (to_float (gameDuration g));
        print "Stopping engine."; gameQuit].
Proof.
  intros Hst. unfold conclude. rewrite Hst.
  destruct (getScore_ok g); simpl; rewrite deliver_actions; simpl;
    rewrite <- !app_assoc; reflexivity.
Qed.

(** What the NET_CHANGE branch of the switch does. *)
Lemma conclude_NET_CHANGE (g : game_reply) (w : worker) :
  m_state w = NET_CHANGE ->
  conclude g w =
    mkWorker RUNNING (m_network w) (m_option w) (movesMade w)
      (actions w ++ [print "Best Network has changed: restarting.";
                     print "Stopping engine."; gameQuit]).
Proof.
  intros Hst. unfold conclude. rewrite Hst. unfold perform, set_state. simpl.
  rewrite <- !app_assoc. reflexivity.
Qed.

(** One pass of the outer loop whose game starts and ends. *)
Lemma run_step (g : game_reply) (rest : list game_reply) (w w1 : worker) :
  gameStart_ok g = true ->
  play (moves g) (begin g w) = Ended w1 ->
  run (g :: rest) w =
    if RunState_eqb (m_state (conclude g w1)) FINISHING
    then Finished (conclude g w1)
    else run rest (conclude g w1).
Proof.
  intros Hstart Hplay. cbn [run]. rewrite Hstart, Hplay. reflexivity.
Qed.

(** A broadcast that reaches the Worker during a move ends the inner
    loop at that move, with the Worker in NET_CHANGE and holding the
    network that was broadcast. *)
Lemma play_interrupted (r : move_reply) (rest : list move_reply)
  (net : string) (w : worker) :
  waitForMove_ok r = true ->
  meanwhile r = Some (sig_newNetwork net) ->
  exists w1,
    play (r :: rest) w = Ended w1
    /\ m_state w1 = NET_CHANGE /\ m_network w1 = net.
Proof.
  intros Hwait Hsig. cbn [play]. rewrite Hwait, Hsig. cbn.
  rewrite andb_false_r. eexists. split; [reflexivity|]. split; reflexivity.
Qed.

(** Whatever a run does, it only adds to the actions performed before
    it. *)
Lemma conclude_extends (g : game_reply) (w : worker) :
  exists new : list action, actions (conclude g w) = actions w ++ new.
Proof.
  unfold conclude. destruct (m_state w).
  - destruct (getScore_ok g); cbn; rewrite deliver_actions; cbn;
      rewrite <- !app_assoc; eexists; reflexivity.
  - cbn. rewrite <- !app_assoc. eexists. reflexivity.
  - cbn. rewrite <- !app_assoc. eexists. reflexivity.
Qed.

Lemma run_extends (games : list game_reply) :
  forall w : worker,
    exists later : list action,
      actions (ran_worker (run games w)) = actions w ++ later.
Proof.
  induction games as [|g rest IH]; intros w.
  - exists []. cbn. rewrite app_nil_r. reflexivity.
  - assert (Hbegin : forall w' : worker,
              (exists l, actions w' = actions (begin g w) ++ l) ->
              exists later, actions w' = actions w ++ later).
    { intros w' (l & Hl). eexists. rewrite Hl, begin_actions, <- app_assoc.
      reflexivity. }
    cbn [run]. destruct (gameStart_ok g); cbn [negb].
    + destruct (play_moves_only (moves g) (begin g w)) as (n1 & Hn1 & _).
      destruct (play (moves g) (begin g w)) as [w1|w1|w1];
        cbn [worker_of ran_worker] in *;
        try (apply Hbegin; exists n1; exact Hn1).
      destruct (conclude_extends g w1) as (n2 & Hn2).
      destruct (RunState_eqb (m_state (conclude g w1)) FINISHING).
      * apply Hbegin. exists (n1 ++ n2). cbn [ran_worker].
        rewrite Hn2, Hn1, <- app_assoc. reflexivity.
      * destruct (IH (conclude g w1)) as (later & Hlater).
        apply Hbegin. exists (n1 ++ n2 ++ later).
        rewrite Hlater, Hn2, Hn1, <- !app_assoc. reflexivity.
    + apply Hbegin. exists []. cbn. rewrite app_nil_r. reflexivity.
Qed.

(** With a game in the script, a run begins it first. *)
Lemma run_begins (g : game_reply) (rest : list game_reply) (w : worker) :
  exists later : list action,
    actions (ran_worker (run (g :: rest) w)) = actions (begin g w) ++ later.
Proof.
  cbn [run]. destruct (gameStart_ok g); cbn [negb].
  - destruct (play_moves_only (moves g) (begin g w)) as (n1 & Hn1 & _).
    destruct (play (moves g) (begin g w)) as [w1|w1|w1];
      cbn [worker_of ran_worker] in *;
      try (exists n1; exact Hn1).
    destruct (conclude_extends g w1) as (n2 & Hn2).
    destruct (RunState_eqb (m_state (conclude g w1)) FINISHING).
    + exists (n1 ++ n2). cbn [ran_worker].
      rewrite Hn2, Hn1, <- app_assoc. reflexivity.
    + destruct (run_extends rest (conclude g w1)) as (l & Hl).
      exists (n1 ++ n2 ++ l).
      rewrite Hl, Hn2, Hn1, <- !app_assoc. reflexivity.
  - exists []. cbn [ran_worker]. rewrite app_nil_r. reflexivity.
Qed.

(** The conversion to [float] is exact up to 2^24. *)
Lemma to_float_exact (z : Z) : Z.abs z < 2 ^ 24 -> to_float z = z.
Proof.
  intros Hz. unfold to_float. cbv zeta.
  destruct (Z.ltb_spec (Z.abs z) (2 ^ 24)); [reflexivity|lia].
Qed.

(** C1, as the code has it: for every completed game observed in state
    RUNNING the Worker emits [resultReady] exactly once during that pass
    of its loop, whether or not the game produced a decisive score; only
    the persistence of the game record and of the training data
    ([writeSgf], [dumpTraining]) depends on the score.  What that pass of
    [run] performs is given in full: the moves, which neither notify nor
    persist; the line on stdout and [getScore]; [writeSgf] and then
    [dumpTraining] when the score is decisive, neither of them when it is
    not; one [resultReady] with the file of the game and its duration in
    seconds as a [float] (the duration itself up to 2^24 seconds); and
    the end of the engine.  Whatever the run does afterwards comes after
    these actions. *)
Theorem run_RUNNING_notifies_once
  (g : game_reply) (rest : list game_reply) (w w1 : worker) :
  gameStart_ok g = true ->
  play (moves g) (begin g w) = Ended w1 ->
  m_state w1 = RUNNING ->
  exists played new later : list action,
    actions w1 = actions (begin g w) ++ played
    /\ forallb is_move_call played = true
    /\ new
       = [print "Game has ended."; getScore]
         ++ (if getScore_ok g then [writeSgf; dumpTraining] else [])
         ++ [resultReady (getFile g) (to_float (gameDuration g));
             print "Stopping engine."; gameQuit]
    /\ actions (ran_worker (run (g :: rest) w))
       = actions (begin g w) ++ played ++ new ++ later
    /\ notifications (played ++ new)
       = [resultReady (getFile g) (to_float (gameDuration g))]
    /\ existsb is_persist (played ++ new) = getScore_ok g
    /\ (Z.abs (gameDuration g) < 2 ^ 24 ->
        to_float (gameDuration g) = gameDuration g)
    /\ run (g :: rest) w =
         if RunState_eqb (m_state (conclude g w1)) FINISHING
         then Finished (conclude g w1)
         else run rest (conclude g w1).
Proof.
  intros Hstart Hplay Hst.
  destruct (play_moves_only (moves g) (begin g w)) as (played & Hn1 & Hq1).
  rewrite Hplay in Hn1. cbn [worker_of] in Hn1.
  pose proof (conclude_RUNNING g w1 Hst) as Hconclude.
  pose proof (run_step g rest w w1 Hstart Hplay) as Hstep.
  assert (Hlater : exists later : list action,
            actions (ran_worker (run (g :: rest) w))
            = actions (conclude g w1) ++ later).
  { rewrite Hstep.
    destruct (RunState_eqb (m_state (conclude g w1)) FINISHING).
    - exists []. cbn. rewrite app_nil_r. reflexivity.
    - apply run_extends. }
  destruct Hlater as (later & Hlater).
  exists played. eexists. exists later.
  split; [exact Hn1|]. split; [exact Hq1|]. split; [reflexivity|].
  split; [|split; [|split; [|split]]].
  - rewrite Hlater, Hconclude, Hn1, <- !app_assoc. reflexivity.
  - rewrite !notifications_app, (move_calls_notify_nothing _ Hq1).
    destruct (getScore_ok g); reflexivity.
  - rewrite !existsb_app, (move_calls_persist_nothing _ Hq1).
    destruct (getScore_ok g); reflexivity.
  - apply to_float_exact.
  - exact Hstep.
Qed.

(** The theorem at the undecided game of the scenarios, played by a
    freshly initialised Worker. *)
Lemma run_RUNNING_notifies_once_witness :
  let g := Scenario.game_undecided in
  let w1 := worker_of (play (moves g) (begin g Scenario.w0)) in
  gameStart_ok g = true
  /\ play (moves g) (begin g Scenario.w0) = Ended w1
  /\ m_state w1 = RUNNING
  /\ exists later : list action,
       actions (ran_worker (run [g; Scenario.game_won] Scenario.w0))
       = actions (begin g Scenario.w0)
         ++ [move; waitForMove; readMove; nextMove]
         ++ [print "Game has ended."; getScore; resultReady "g1" 12;
             print "Stopping engine."; gameQuit]
         ++ later.
Proof.
  intros g w1.
  assert (H1 : play (moves g) (begin g Scenario.w0) = Ended w1)
    by reflexivity.
  split; [reflexivity|]. split; [exact H1|]. split; [reflexivity|].
  destruct (run_RUNNING_notifies_once g [Scenario.game_won] Scenario.w0 w1
              eq_refl H1 eq_refl)
    as (played & new & later & Hplayed & _ & Hnew & Hrun & _).
  exists later. rewrite Hrun, Hnew.
  change (actions w1)
    with (actions (begin g Scenario.w0)
          ++ [move; waitForMove; readMove; nextMove]) in Hplayed.
  apply app_inv_head in Hplayed. rewrite <- Hplayed. reflexivity.
Defined.

(** C1 as the specification words it fails: a game that ends in state
    RUNNING without a decisive score ([getScore] returns false) is
    reported all the same, by one [resultReady]. *)
Lemma undecided_game_is_reported :
  getScore_ok Scenario.game_undecided = false
  /\ (exists w1,
        play (moves Scenario.game_undecided)
             (begin Scenario.game_undecided Scenario.w0) = Ended w1
        /\ m_state w1 = RUNNING)
  /\ (exists w2,
        run [Scenario.game_undecided] Scenario.w0 = Running w2
        /\ notifications (actions w2) = [resultReady "g1" 12]
        /\ notifications (actions w2) <> []).
Proof.
  split; [reflexivity|]. split.
  - eexists. split; [vm_compute; reflexivity|reflexivity].
  - eexists. split; [vm_compute; reflexivity|].
    split; [reflexivity|discriminate].
Qed.

(** C7: when a game is over and the Worker's state is NET_CHANGE, the
    Worker sets its state back to RUNNING, emits no [resultReady] during
    that pass of its loop, and the loop goes on: with a further game in
    the script, what [run] performs next, right after quitting the engine
    of the abandoned game, is the creation of a fresh [Game] on the
    network the Worker holds at that point, the one that was broadcast,
    and its start. *)
Theorem run_NET_CHANGE_restarts
  (g : game_reply) (rest : list game_reply) (w w1 : worker) :
  gameStart_ok g = true ->
  play (moves g) (begin g w) = Ended w1 ->
  m_state w1 = NET_CHANGE ->
  m_state (conclude g w1) = RUNNING
  /\ m_network (conclude g w1) = m_network w1
  /\ (exists new : list action,
        actions (conclude g w1) = actions w ++ new
        /\ notifications new = []
        /\ forall (g' : game_reply) (rest' : list game_reply),
             rest = g' :: rest' ->
             exists later : list action,
               actions (ran_worker (run (g :: rest) w))
               = actions w ++ new
                 ++ [print ("option=" +:+ game_option g' w1);
                     Game_new (m_network w1) (game_option g' w1);
                     gameStart]
                 ++ later)
  /\ actions (conclude g w1)
     = actions w1 ++ [print "Best Network has changed: restarting.";
                      print "Stopping engine."; gameQuit]
  /\ run (g :: rest) w = run rest (conclude g w1)
  /\ (forall g' : game_reply,
        actions (begin g' (conclude g w1)) =
          actions (conclude g w1)
          ++ [print ("option=" +:+ game_option g' w1);
              Game_new (m_network w1) (game_option g' w1);
              gameStart]).
Proof.
  intros Hstart Hplay Hst.
  destruct (play_moves_only (moves g) (begin g w)) as (n1 & Hn1 & Hq1).
  rewrite Hplay in Hn1. cbn [worker_of] in Hn1.
  pose proof (run_step g rest w w1 Hstart Hplay) as Hstep.
  rewrite (conclude_NET_CHANGE g w1 Hst) in *.
  cbn [m_state RunState_eqb] in Hstep.
  split; [reflexivity|]. split; [reflexivity|].
  split; [|split; [reflexivity|split; [exact Hstep|]]].
  - eexists. split; [|split].
    + simpl. rewrite Hn1, begin_actions, <- !app_assoc. reflexivity.
    + rewrite !notifications_app, (move_calls_notify_nothing _ Hq1).
      reflexivity.
    + intros g' rest' ->. rewrite Hstep.
      destruct (run_begins g' rest'
                  (mkWorker RUNNING (m_network w1) (m_option w1) (movesMade w1)
                     (actions w1
                      ++ [print "Best Network has changed: restarting.";
                          print "Stopping engine."; gameQuit])))
        as (later & Hlater).
      exists later.
      rewrite Hlater, begin_actions. cbn [actions m_network].
      rewrite Hn1, begin_actions, <- !app_assoc. reflexivity.
  - intros g'. rewrite begin_actions. reflexivity.
Qed.

(** The theorem at the interrupted game of the scenarios: network "net1"
    is broadcast during the first move, and the next game is created on
    "net1". *)
Lemma run_NET_CHANGE_restarts_witness :
  let g := Scenario.game_interrupted in
  let w1 := worker_of (play (moves g) (begin g Scenario.w0)) in
  gameStart_ok g = true
  /\ play (moves g) (begin g Scenario.w0) = Ended w1
  /\ m_state w1 = NET_CHANGE
  /\ m_state (conclude g w1) = RUNNING
  /\ m_network (conclude g w1) = "net1"
  /\ (exists new later : list action,
        notifications new = []
        /\ actions (ran_worker (run [g; Scenario.game_undecided] Scenario.w0))
           = actions Scenario.w0 ++ new
             ++ [print "option= -r 5 -g -q -d -n -m 30 -w ";
                 Game_new "net1" " -r 5 -g -q -d -n -m 30 -w ";
                 gameStart]
             ++ later)
  /\ run [g; Scenario.game_undecided] Scenario.w0
       = run [Scenario.game_undecided] (conclude g w1).
Proof.
  intros g w1.
  assert (H1 : play (moves g) (begin g Scenario.w0) = Ended w1)
    by reflexivity.
  destruct (run_NET_CHANGE_restarts g [Scenario.game_undecided] Scenario.w0
              w1 eq_refl H1 eq_refl)
    as (Hst & Hnet & (new & _ & Hquiet & Hnext) & _ & Hrun & _).
  split; [reflexivity|]. split; [exact H1|]. split; [reflexivity|].
  split; [exact Hst|]. split; [exact Hnet|]. split; [|exact Hrun].
  destruct (Hnext Scenario.game_undecided [] eq_refl) as (later & Hlater).
  exists new, later. split; [exact Hquiet|exact Hlater].
Defined.

End WorkerFacts.

(** * Properties of the Coordinator *)

Module ProductionFacts.

Import Production.
Local Open Scope production_scope.

(** Unfold the steps of a computation. *)
Ltac steps :=
  cbv beta iota delta
    [bind ret throw exit_failure try_catch print sleep exec remove copy
     get set_network file_exists state_of].

(** Read the fields of the states the steps have built. *)
Ltac fields :=
  cbn [m_network m_version m_gamesPlayed m_movesMade m_keepPath m_debugPath
       m_gamesThreads disk spawned events
       emit with_disk with_network with_gamesPlayed with_gamesThreads tick
       fst snd].

(** ** The backoff delay *)

(** The delay is an [int]: below the cap it is the formula of the
    specification rounded down to whole seconds. *)
Lemma retry_delay_floor (E : environment) (i : nat) :
  (i <= 44)%nat -> retry_delay E i = Qfloor (spec_backoff_delay i).
Proof.
  intros Hi.
  do 45 (destruct i as [|i]; [vm_compute; reflexivity|]).
  lia.
Qed.

Lemma retry_delay_step (E : environment) (i : nat) :
  (i < 44)%nat -> retry_delay E i <= retry_delay E (S i).
Proof.
  intros Hi.
  do 44 (destruct i as [|i]; [vm_compute; discriminate|]).
  lia.
Qed.

Lemma retry_delay_monotone (E : environment) (i j : nat) :
  (i <= j)%nat -> (j <= 44)%nat -> retry_delay E i <= retry_delay E j.
Proof.
  induction 1 as [|j Hij IH]; intros Hj.
  - lia.
  - etransitivity; [apply IH; lia|]. apply retry_delay_step. lia.
Qed.

Lemma retry_delay_capped (E : environment) (i : nat) :
  retry_delay E i <= 3600.
Proof. unfold retry_delay. apply Z.le_min_r. Qed.

Lemma retry_delay_at_least (E : environment) (i : nat) :
  (i <= 44)%nat -> 30 <= retry_delay E i.
Proof.
  intros Hi. change 30 with (retry_delay E 0).
  apply retry_delay_monotone; lia.
Qed.

(** An [int] that is not negative is the same number as an
    [unsigned long]. *)
Lemma to_unsigned_long_small (E : environment) (z : Z) :
  0 <= z < 2 ^ 32 -> to_unsigned_long E z = z.
Proof.
  intros Hz. unfold to_unsigned_long.
  destruct (long_bits E); apply Z.mod_small; lia.
Qed.

Lemma backoff_seconds_small (E : environment) (i : nat) :
  (i <= 44)%nat -> backoff_seconds E i = retry_delay E i.
Proof.
  intros Hi. apply to_unsigned_long_small.
  pose proof (retry_delay_at_least E i Hi).
  pose proof (retry_delay_capped E i). lia.
Qed.

(** The [catch] block always returns, having slept once, for
    [backoff_seconds E retries] seconds. *)
Lemma backoff_returns (E : environment) (retries : nat) (what : string)
  (s : production) :
  exists s' : production,
    backoff E retries what s = Return tt s'
    /\ events s' =
         events s
         ++ [Print "Network connection to server failed."; Print what;
             Print ("Retrying in " +:+ pretty (retry_delay E retries)
                    +:+ " s.");
             Sleep (backoff_seconds E retries)]
    /\ m_network s' = m_network s /\ m_version s' = m_version s
    /\ disk s' = disk s /\ spawned s' = spawned s.
Proof.
  unfold backoff. steps. eexists. split; [reflexivity|].
  simpl. rewrite <- !app_assoc. repeat split; reflexivity.
Qed.

(** C4, as the code has it: after the failed attempt of index [i] the
    refresh sleeps [backoff_seconds E i] seconds, once; for every index
    [i] from 0 to 44 this delay is min(30 * 1.5^i, 3600) rounded down to
    whole seconds, it lies between 30 and 3600 and it is non-decreasing
    in [i] over that range. *)
Theorem backoff_seconds_floor (E : environment) (i : nat) :
  (forall what s,
     sleeps (events (state_of (backoff E i what s)))
     = sleeps (events s) ++ [backoff_seconds E i])
  /\ ((i <= 44)%nat ->
      backoff_seconds E i = Qfloor (spec_backoff_delay i)
      /\ 30 <= backoff_seconds E i <= 3600
      /\ forall j, (j <= i)%nat -> backoff_seconds E j <= backoff_seconds E i).
Proof.
  split.
  - intros what s.
    destruct (backoff_returns E i what s) as (s' & Hs' & Hev & _).
    rewrite Hs'. simpl state_of. rewrite Hev.
    unfold sleeps. rewrite flat_map_app. simpl. reflexivity.
  - intros Hi. rewrite (backoff_seconds_small E i Hi).
    split; [apply retry_delay_floor; exact Hi|].
    split; [split; [apply retry_delay_at_least; exact Hi
                   |apply retry_delay_capped]|].
    intros j Hj. rewrite backoff_seconds_small by lia.
    apply retry_delay_monotone; lia.
Qed.

(** The theorem at the third attempt (index 2): 67 seconds. *)
Lemma backoff_seconds_floor_witness :
  (2 <= 44)%nat
  /\ backoff_seconds Scenario.E_offline 2 = 67
  /\ Qfloor (spec_backoff_delay 2) = 67
  /\ backoff_seconds Scenario.E_offline 1 <= backoff_seconds Scenario.E_offline 2.
Proof.
  split; [lia|].
  destruct (backoff_seconds_floor Scenario.E_offline 2) as (_ & H).
  destruct (H ltac:(lia)) as (Hfloor & _ & Hmono).
  split; [reflexivity|]. split; [reflexivity|].
  apply Hmono. lia.
Defined.

(** C4 as the specification words it fails: at index 2 the formula gives
    67.5 seconds and the program sleeps 67; at index 45 the product
    30 * 1.5^45 no longer fits an [int], and where its conversion yields
    [INT_MIN] (x86) and [long] has 64 bits, the delay computed is
    [INT_MIN] and [QThread::sleep] is called with 2^64 - 2^31 seconds,
    where the formula gives 3600. *)
Lemma backoff_seconds_is_not_the_formula :
  ~ (inject_Z (backoff_seconds Scenario.E_offline 2) == spec_backoff_delay 2)%Q
  /\ (spec_backoff_delay 2 == 135 # 2)%Q
  /\ retry_delay Scenario.E_offline 45 = INT_MIN
  /\ backoff_seconds Scenario.E_offline 45 = 2 ^ 64 - 2 ^ 31
  /\ (spec_backoff_delay 45 == 3600 # 1)%Q
  /\ 3600 < backoff_seconds Scenario.E_offline 45.
Proof.
  repeat split; try (vm_compute; reflexivity).
  vm_compute. discriminate.
Qed.

(** ** The file system *)

Lemma QFile_at_Some (name : string) (d : gmap string file) (f : file) :
  QFile_at name d = Some f -> d !! name = Some f.
Proof. unfold QFile_at. destruct (String.eqb name EmptyString); congruence. Qed.

Lemma QFile_at_None (name : string) (d : gmap string file) :
  d !! name = None -> QFile_at name d = None.
Proof. unfold QFile_at. destruct (String.eqb name EmptyString); congruence. Qed.

(** A removal that the file system carries out leaves no file there. *)
Lemma QFile_remove_removable (name : string) (d : gmap string file) (f : file) :
  d !! name = Some f -> removable f = true ->
  QFile_remove name d = (delete name d, true).
Proof. intros Hf Hr. unfold QFile_remove. rewrite Hf, Hr. reflexivity. Qed.

Lemma QFile_remove_refused (name : string) (d : gmap string file) (f : file) :
  d !! name = Some f -> removable f = false ->
  QFile_remove name d = (d, false).
Proof. intros Hf Hr. unfold QFile_remove. rewrite Hf, Hr. reflexivity. Qed.

(** A removal creates nothing. *)
Lemma QFile_remove_None (name k : string) (d : gmap string file) :
  d !! k = None -> (QFile_remove name d).1 !! k = None.
Proof.
  intros Hk. unfold QFile_remove.
  destruct (d !! name) as [f|]; [destruct (removable f)|]; simpl; try exact Hk.
  destruct (decide (name = k)) as [->|Hne].
  - apply lookup_delete_eq.
  - rewrite lookup_delete_ne; assumption.
Qed.

(** After a removal the file is gone, unless the file system refused. *)
Lemma QFile_remove_gone (name : string) (d : gmap string file) :
  (forall f, d !! name = Some f -> removable f = true) ->
  (QFile_remove name d).1 !! name = None.
Proof.
  intros Hr. unfold QFile_remove.
  destruct (d !! name) as [f|] eqn:Hf.
  - rewrite (Hr f eq_refl). simpl. apply lookup_delete_eq.
  - simpl. exact Hf.
Qed.

(** ** Verification of the network file *)

(** The mismatch path of [networkExists] (lines 274-278): a line on
    stdout, one call of [f.remove()], and false. *)
Lemma networkExists_rejects (s : production) (f : file) (h : string) :
  QFile_at (m_network s) (disk s) = Some f ->
  content f = Readable h ->
  h <> m_network s ->
  networkExists s =
    Return false
      (with_disk (QFile_remove (m_network s) (disk s)).1
         (emit (Remove (m_network s))
            (emit (Print "Downloaded network hash doesn't match.") s))).
Proof.
  intros Hat Hc Hne.
  unfold networkExists. steps. rewrite Hat, Hc.
  apply String.eqb_neq in Hne. rewrite Hne. fields.
  destruct (QFile_remove (m_network s) (disk s)) as [d ok].
  reflexivity.
Qed.

(** C6, as the code has it: for every existing local model file that
    opens and reads, whose content hash does not match its claimed name
    (the current model identifier) and which the file system lets go,
    [networkExists] returns false and the file is deleted (no other file
    is touched). *)
Theorem networkExists_mismatch (s : production) (f : file) (h : string) :
  QFile_at (m_network s) (disk s) = Some f ->
  content f = Readable h ->
  h <> m_network s ->
  removable f = true ->
  exists s' : production,
    networkExists s = Return false s'
    /\ QFile_at (m_network s) (disk s') = None
    /\ disk s' = delete (m_network s) (disk s)
    /\ m_network s' = m_network s
    /\ events s' =
         events s ++ [Print "Downloaded network hash doesn't match.";
                      Remove (m_network s)].
Proof.
  intros Hat Hc Hne Hr.
  pose proof (QFile_at_Some _ _ _ Hat) as Hlook.
  eexists. split; [apply (networkExists_rejects s f h Hat Hc Hne)|].
  fields. rewrite (QFile_remove_removable _ _ _ Hlook Hr). cbn [fst].
  split; [apply QFile_at_None, lookup_delete_eq|].
  split; [reflexivity|]. split; [reflexivity|].
  rewrite <- app_assoc. reflexivity.
Qed.

(** The theorem at a corrupt network file that can be removed. *)
Lemma networkExists_mismatch_witness :
  let s := Scenario.coordinator "abc" (<["abc" := Scenario.good "zzz"]> ∅) in
  QFile_at (m_network s) (disk s) = Some (Scenario.good "zzz")
  /\ content (Scenario.good "zzz") = Readable "zzz"
  /\ "zzz" <> m_network s
  /\ removable (Scenario.good "zzz") = true
  /\ exists s' : production,
       networkExists s = Return false s'
       /\ QFile_at "abc" (disk s') = None.
Proof.
  intros s.
  split; [reflexivity|]. split; [reflexivity|]. split; [discriminate|].
  split; [reflexivity|].
  destruct (networkExists_mismatch s (Scenario.good "zzz") "zzz")
    as (s' & Hret & Hgone & _);
    [reflexivity|reflexivity|discriminate|reflexivity|].
  exists s'. split; [exact Hret|exact Hgone].
Defined.

(** C6 as the specification words it fails: an existing network file with
    the wrong content that the file system does not let go is still there
    after [networkExists] has returned false. *)
Lemma networkExists_leaves_unremovable_file :
  let s := Scenario.coordinator "abc" Scenario.d_stuck in
  QFile_at (m_network s) (disk s) = Some (mkFile (Readable "zzz") false)
  /\ "zzz" <> m_network s
  /\ exists s' : production,
       networkExists s = Return false s'
       /\ QFile_at "abc" (disk s') = Some (mkFile (Readable "zzz") false).
Proof.
  split; [reflexivity|]. split; [discriminate|].
  eexists. split; [vm_compute; reflexivity|]. reflexivity.
Qed.

(** ** One refresh *)

(** The hash request, answered with the active network by a server whose
    required version the client meets: [fetchBestNetworkHash] returns
    true and leaves the network as it is. *)
Lemma fetchBestNetworkHash_same (E : environment) (s : production)
  (outhash version : string) :
  let r := QProcess_run E (spawned s) best_network_hash_cmdline (disk s) in
  exitCode r = 0 ->
  QString_split newline (standardOutput r) = [outhash; version] ->
  QString_toInt E version <= m_version s ->
  outhash = m_network s ->
  exists s' : production,
    fetchBestNetworkHash E s = Return true s'
    /\ events s' =
         events s
         ++ [Exec best_network_hash_cmdline;
             Print ("Best network hash: " +:+ outhash);
             Print ("Required client version: " +:+ version);
             Print " (OK)"]
    /\ m_network s' = m_network s
    /\ disk s' = disk_after r.
Proof.
  intros r Hexit Hsplit Hver Hsame.
  unfold fetchBestNetworkHash, read_best_network_hash. steps. fold r.
  cbn [fst snd]. rewrite Hexit, Hsplit. cbn [Z.eqb negb length Nat.eqb nth].
  cbn [m_version emit with_disk tick].
  destruct (Z.ltb_spec (m_version s) (QString_toInt E version)); [lia|].
  cbn [m_network emit with_disk tick].
  subst outhash. rewrite String.eqb_refl.
  eexists. split; [reflexivity|]. cbn.
  rewrite <- !app_assoc. repeat split; reflexivity.
Qed.

(** A network file that opens, reads and has the digest it is named
    after is accepted, and nothing happens. *)
Lemma networkExists_verified (s : production) (f : file) :
  QFile_at (m_network s) (disk s) = Some f ->
  content f = Readable (m_network s) ->
  networkExists s = Return true s.
Proof.
  intros Hat Hc. unfold networkExists. steps.
  rewrite Hat, Hc, String.eqb_refl. reflexivity.
Qed.

(** C3, as the code has it: for every refresh call in which the
    server-reported best hash equals the current model identifier, the
    required client version is not above the client's, and the local
    model file exists and has the digest it is named after, the refresh
    returns unchanged = true and no model download is attempted. *)
Theorem updateNetwork_unchanged (E : environment) (s : production)
  (outhash version : string) (f : file) :
  let r := QProcess_run E (spawned s) best_network_hash_cmdline (disk s) in
  exitCode r = 0 ->
  QString_split newline (standardOutput r) = [outhash; version] ->
  QString_toInt E version <= m_version s ->
  outhash = m_network s ->
  QFile_at (m_network s) (disk_after r) = Some f ->
  content f = Readable (m_network s) ->
  exists s' : production,
    updateNetwork E s = Return true s'
    /\ m_network s' = m_network s
    /\ disk s' = disk_after r
    /\ events s' =
         events s
         ++ [Exec best_network_hash_cmdline;
             Print ("Best network hash: " +:+ outhash);
             Print ("Required client version: " +:+ version);
             Print " (OK)";
             Print "Already downloaded network."]
    /\ executions best_network_cmdline (events s')
       = executions best_network_cmdline (events s).
Proof.
  intros r Hexit Hsplit Hver Hsame Hat Hc.
  destruct (fetchBestNetworkHash_same E s outhash version
              Hexit Hsplit Hver Hsame) as (s1 & Hhash & Hev1 & Hnet1 & Hdisk1).
  fold r in Hdisk1.
  assert (Hverified : networkExists s1 = Return true s1).
  { apply (networkExists_verified s1 f); rewrite Hnet1, ?Hdisk1; assumption. }
  unfold updateNetwork. change MAX_RETRIES with (S 95).
  cbn [updateNetwork_from]. unfold try_catch, attempt, fetchBestNetwork.
  unfold bind at 1. rewrite Hhash.
  unfold bind at 1. unfold bind at 1. rewrite Hverified.
  steps. eexists. split; [reflexivity|]. cbn.
  rewrite Hev1, Hnet1, Hdisk1, <- !app_assoc.
  split; [reflexivity|]. split; [reflexivity|]. split; [reflexivity|].
  unfold executions. rewrite List.filter_app, length_app. simpl. lia.
Qed.

(** The theorem at a Coordinator that holds network "abc", has its file,
    and is told by the server that "abc" is still the best. *)
Lemma updateNetwork_unchanged_witness :
  let E := Scenario.E_same_hash in
  let s := Scenario.coordinator "abc" Scenario.d_abc in
  let r := QProcess_run E (spawned s) best_network_hash_cmdline (disk s) in
  exitCode r = 0
  /\ QString_split newline (standardOutput r) = ["abc"; "1"]
  /\ QString_toInt E "1" <= m_version s
  /\ QFile_at (m_network s) (disk_after r) = Some (Scenario.good "abc")
  /\ exists s' : production,
       updateNetwork E s = Return true s'
       /\ executions best_network_cmdline (events s') = 0%nat.
Proof.
  intros E s r.
  split; [reflexivity|]. split; [reflexivity|]. split; [vm_compute; discriminate|].
  split; [reflexivity|].
  destruct (updateNetwork_unchanged E s "abc" "1" (Scenario.good "abc"))
    as (s' & Hret & _ & _ & _ & Hexec);
    [reflexivity|reflexivity|vm_compute; discriminate|reflexivity
    |reflexivity|reflexivity|].
  exists s'. split; [exact Hret|]. rewrite Hexec. reflexivity.
Defined.

(** C3 as the specification words it fails: the server reports the
    network the Coordinator already holds, but its file is not in the
    working directory, and the refresh downloads it (and still returns
    unchanged = true). *)
Lemma updateNetwork_same_hash_downloads :
  let E := Scenario.E_same_hash in
  let s := Scenario.coordinator "abc" ∅ in
  let r := QProcess_run E (spawned s) best_network_hash_cmdline (disk s) in
  exitCode r = 0
  /\ QString_split newline (standardOutput r) = [m_network s; "1"]
  /\ exists s' : production,
       updateNetwork E s = Return true s'
       /\ executions best_network_cmdline (events s') = 1%nat
       /\ In (Exec best_network_cmdline) (events s').
Proof.
  split; [reflexivity|]. split; [reflexivity|].
  eexists. split; [vm_compute; reflexivity|].
  split; [reflexivity|]. cbn. tauto.
Qed.

(** C2, as the code has it: in every pass of the refresh loop in which
    the freshly downloaded model file's content hash does not match its
    claimed name, the refresh asks for the removal of the corrupt file
    (which is gone when the file system carries the removal out) and then
    terminates the process with a failure status; the refresh cycle is
    not retried. *)
Theorem updateNetwork_corrupt_download_exits (E : environment)
  (remaining retries : nat) (s s1 s2 s3 : production) (new_network : bool)
  (f : file) (h : string) :
  fetchBestNetworkHash E s = Return new_network s1 ->
  networkExists s1 = Return false s2 ->
  download E s2 = Return tt s3 ->
  QFile_at (m_network s3) (disk s3) = Some f ->
  content f = Readable h ->
  h <> m_network s3 ->
  exists s4 : production,
    updateNetwork_from E (S remaining) retries s = Exit s4
    /\ events s4 =
         events s3 ++ [Print "Downloaded network hash doesn't match.";
                       Remove (m_network s3)]
    /\ disk s4 = (QFile_remove (m_network s3) (disk s3)).1
    /\ (removable f = true -> QFile_at (m_network s3) (disk s4) = None).
Proof.
  intros Hhash Hfirst Hload Hat Hc Hne.
  pose proof (networkExists_rejects s3 f h Hat Hc Hne) as Hsecond.
  pose proof (QFile_at_Some _ _ _ Hat) as Hlook.
  eexists. split; [|split; [|split]].
  - cbn [updateNetwork_from]. unfold try_catch, attempt, fetchBestNetwork.
    unfold bind at 1. rewrite Hhash.
    unfold bind at 1. unfold bind at 1. rewrite Hfirst.
    unfold bind at 1. rewrite Hload.
    unfold bind at 1. rewrite Hsecond. reflexivity.
  - fields. rewrite <- app_assoc. reflexivity.
  - reflexivity.
  - intros Hr. fields. rewrite (QFile_remove_removable _ _ _ Hlook Hr).
    apply QFile_at_None, lookup_delete_eq.
Qed.

(** The theorem at a Coordinator holding network "old" when the server
    announces "abc" and delivers a payload whose digest is "zzz". *)
Lemma updateNetwork_corrupt_download_exits_witness :
  let E := Scenario.E_corrupt in
  let s := Scenario.coordinator "old" ∅ in
  let s1 := state_of (fetchBestNetworkHash E s) in
  let s2 := state_of (networkExists s1) in
  let s3 := state_of (download E s2) in
  fetchBestNetworkHash E s = Return false s1
  /\ networkExists s1 = Return false s2
  /\ download E s2 = Return tt s3
  /\ QFile_at (m_network s3) (disk s3) = Some (Scenario.good "zzz")
  /\ "zzz" <> m_network s3
  /\ exists s4 : production,
       updateNetwork E s = Exit s4
       /\ QFile_at "abc" (disk s4) = None.
Proof.
  intros E s s1 s2 s3.
  assert (H1 : fetchBestNetworkHash E s = Return false s1)
    by (vm_compute; reflexivity).
  assert (H2 : networkExists s1 = Return false s2)
    by (vm_compute; reflexivity).
  assert (H3 : download E s2 = Return tt s3)
    by (vm_compute; reflexivity).
  assert (H4 : QFile_at (m_network s3) (disk s3) = Some (Scenario.good "zzz"))
    by (vm_compute; reflexivity).
  assert (H5 : "zzz" <> m_network s3) by (vm_compute; discriminate).
  repeat (split; [assumption|]).
  destruct (updateNetwork_corrupt_download_exits E 95 0 s s1 s2 s3 false
              (Scenario.good "zzz") "zzz" H1 H2 H3 H4 eq_refl H5)
    as (s4 & Hexit & _ & _ & Hgone).
  exists s4. split; [exact Hexit|]. apply (Hgone eq_refl).
Defined.

(** C2 as the specification words it fails: the payload the server
    delivers for "abc" has the digest "zzz", and the refresh ends in
    [exit(EXIT_FAILURE)] after a single request for the hash and without
    a single sleep; nothing is retried. *)
Lemma updateNetwork_corrupt_download_is_fatal :
  let E := Scenario.E_corrupt in
  let s := Scenario.coordinator "old" ∅ in
  let s3 := state_of (download E (state_of (fetchBestNetworkHash E s))) in
  QFile_at (m_network s3) (disk s3) = Some (Scenario.good "zzz")
  /\ "zzz" <> m_network s3
  /\ exists s4 : production,
       updateNetwork E s = Exit s4
       /\ executions best_network_hash_cmdline (events s4) = 1%nat
       /\ sleeps (events s4) = [].
Proof.
  split; [vm_compute; reflexivity|]. split; [vm_compute; discriminate|].
  eexists. split; [vm_compute; reflexivity|]. split; reflexivity.
Qed.

(** ** The retry loop *)

Lemma sleeps_app (l1 l2 : list event) :
  sleeps (l1 ++ l2) = sleeps l1 ++ sleeps l2.
Proof. unfold sleeps. apply flat_map_app. Qed.

Lemma executions_app (c : string) (l1 l2 : list event) :
  executions c (l1 ++ l2) = (executions c l1 + executions c l2)%nat.
Proof. unfold executions. rewrite List.filter_app. apply length_app. Qed.

Lemma quiet_sleeps (l : list event) :
  forallb is_quiet l = true -> sleeps l = [].
Proof.
  induction l as [|e l IH]; [reflexivity|].
  simpl. intros [He Hl]%andb_prop.
  destruct e; simpl in *; try discriminate; auto.
Qed.

Lemma quiet_executions (l : list event) :
  forallb is_quiet l = true ->
  executions best_network_hash_cmdline l = 0%nat.
Proof.
  induction l as [|e l IH]; [reflexivity|].
  simpl. intros [He Hl]%andb_prop. specialize (IH Hl).
  unfold executions in *. simpl.
  destruct e; simpl in *; auto.
  destruct (String.eqb cmdline best_network_hash_cmdline);
    [discriminate|exact IH].
Qed.

(** How [adds_only] goes through the steps of a computation. *)
Section AddsOnly.

Variable p : event -> bool.

Lemma adds_only_ret {A} (a : A) : adds_only p (ret a).
Proof. intros s. exists []. rewrite app_nil_r. split; reflexivity. Qed.

Lemma adds_only_get {A} (f : production -> A) : adds_only p (get f).
Proof. intros s. exists []. rewrite app_nil_r. split; reflexivity. Qed.

Lemma adds_only_throw {A} (what : string) : adds_only p (@throw A what).
Proof. intros s. exists []. rewrite app_nil_r. split; reflexivity. Qed.

Lemma adds_only_exit {A} : adds_only p (@exit_failure A).
Proof. intros s. exists []. rewrite app_nil_r. split; reflexivity. Qed.

Lemma adds_only_set_network (n : string) : adds_only p (set_network n).
Proof. intros s. exists []. rewrite app_nil_r. split; reflexivity. Qed.

Lemma adds_only_file_exists (n : string) : adds_only p (file_exists n).
Proof. intros s. exists []. rewrite app_nil_r. split; reflexivity. Qed.

Lemma adds_only_event {A} (e : event) (c : computation A) :
  p e = true ->
  (forall s, events (state_of (c s)) = events s ++ [e]) ->
  adds_only p c.
Proof.
  intros He Hc s. exists [e]. split; [apply Hc|]. simpl. rewrite He.
  reflexivity.
Qed.

Lemma adds_only_bind {A B} (c : computation A) (k : A -> computation B) :
  adds_only p c -> (forall a, adds_only p (k a)) -> adds_only p (bind c k).
Proof.
  intros Hc Hk s. unfold bind.
  destruct (Hc s) as (n1 & Hn1 & Hp1).
  destruct (c s) as [a s1|what s1|s1|s1]; simpl in Hn1;
    try (exists n1; split; assumption).
  destruct (Hk a s1) as (n2 & Hn2 & Hp2).
  exists (n1 ++ n2). split.
  - rewrite Hn2, Hn1, app_assoc. reflexivity.
  - rewrite forallb_app, Hp1, Hp2. reflexivity.
Qed.

End AddsOnly.

Lemma adds_only_print (p : event -> bool) (text : string) :
  p (Print text) = true -> adds_only p (print text).
Proof. intros Hp. apply (adds_only_event p (Print text)); auto. Qed.

Lemma adds_only_remove (p : event -> bool) (name : string) :
  p (Remove name) = true -> adds_only p (remove name).
Proof.
  intros Hp. apply (adds_only_event p (Remove name)); auto.
  intros s. unfold remove. destruct (QFile_remove name (disk s)). reflexivity.
Qed.

Lemma adds_only_copy (p : event -> bool) (E : environment)
  (src dst : string) :
  p (Copy src dst) = true -> adds_only p (copy E src dst).
Proof. intros Hp. apply (adds_only_event p (Copy src dst)); auto. Qed.

Lemma adds_only_exec (p : event -> bool) (E : environment) (cmdline : string) :
  p (Exec cmdline) = true -> adds_only p (exec E cmdline).
Proof. intros Hp. apply (adds_only_event p (Exec cmdline)); auto. Qed.

Create HintDb adds discriminated.
#[local] Hint Resolve adds_only_ret adds_only_get adds_only_throw
  adds_only_exit adds_only_set_network adds_only_file_exists
  adds_only_print adds_only_remove adds_only_copy : adds.

(** Take a computation apart along its binds and branches. *)
Ltac adds_only_tac :=
  repeat first
    [ apply adds_only_bind; [|intros ?]
    | match goal with
      | |- adds_only _ (if ?b then _ else _) => destruct b
      | |- adds_only _ (match ?x with _ => _ end) => destruct x
      | |- adds_only _ (let _ := _ in _) => cbv zeta
      end
    | solve [auto with adds]
    | apply adds_only_exec; reflexivity ].

Lemma networkExists_quiet : adds_only is_quiet networkExists.
Proof. unfold networkExists. adds_only_tac. Qed.

Lemma download_quiet (E : environment) : adds_only is_quiet (download E).
Proof. unfold download. adds_only_tac. Qed.

Lemma fetchBestNetwork_quiet (E : environment) :
  adds_only is_quiet (fetchBestNetwork E).
Proof.
  unfold fetchBestNetwork.
  pose proof networkExists_quiet. pose proof (download_quiet E).
  adds_only_tac.
Qed.

(** Every pass of the loop asks the server for the hash exactly once,
    first of all, and does not sleep. *)
Lemma attempt_events (E : environment) (s : production) :
  exists new : list event,
    events (state_of (attempt E s))
    = events s ++ Exec best_network_hash_cmdline :: new
    /\ forallb is_quiet new = true.
Proof.
  assert (Hk : forall curl : Z * string,
    adds_only is_quiet
      (bind (read_best_network_hash E curl)
            (fun new_network => fetchBestNetwork E ;; ret new_network))).
  { intros curl. pose proof (fetchBestNetwork_quiet E).
    unfold read_best_network_hash. adds_only_tac. }
  unfold attempt, fetchBestNetworkHash.
  set (r := QProcess_run E (spawned s) best_network_hash_cmdline (disk s)).
  set (s1 := tick (with_disk (disk_after r)
                     (emit (Exec best_network_hash_cmdline) s))).
  destruct (Hk (exitCode r, standardOutput r) s1) as (new & Hnew & Hq).
  exists new. split; [|exact Hq].
  replace (events s ++ Exec best_network_hash_cmdline :: new)
    with (events s1 ++ new)
    by (subst s1; simpl; rewrite <- app_assoc; reflexivity).
  rewrite <- Hnew. reflexivity.
Qed.

(** A pass of the loop whose attempt returns ends the refresh with its
    value. *)
Lemma updateNetwork_from_returns (E : environment) (remaining retries : nat)
  (s s1 : production) (new_network : bool) :
  attempt E s = Return new_network s1 ->
  updateNetwork_from E (S remaining) retries s = Return new_network s1.
Proof.
  intros Hattempt. cbn [updateNetwork_from]. unfold try_catch.
  rewrite Hattempt. reflexivity.
Qed.

(** A pass whose attempt throws sleeps and hands over to the next pass,
    with the index incremented. *)
Lemma updateNetwork_from_retries (E : environment) (remaining retries : nat)
  (s s1 : production) (what : string) :
  attempt E s = Throw what s1 ->
  updateNetwork_from E (S remaining) retries s =
    updateNetwork_from E remaining (S retries)
      (state_of (backoff E retries what s1)).
Proof.
  intros Hattempt. cbn [updateNetwork_from]. unfold try_catch.
  rewrite Hattempt. unfold bind at 1.
  destruct (backoff_returns E retries what s1) as (s2 & -> & _).
  reflexivity.
Qed.

(** The loop, entered at index [retries] with [remaining] passes to go
    that all end in the [catch] block, sleeps once after each of them and
    then gives up. *)
Lemma updateNetwork_from_gives_up (E : environment) (remaining : nat) :
  forall (retries : nat) (s : production),
    always_throws E remaining retries s ->
    exists s' : production,
      updateNetwork_from E remaining retries s = Exit s'
      /\ sleeps (events s')
         = sleeps (events s) ++ List.map (backoff_seconds E) (seq retries remaining)
      /\ executions best_network_hash_cmdline (events s')
         = (executions best_network_hash_cmdline (events s) + remaining)%nat
      /\ last (events s')
         = Some (Print "Maximum number of retries exceeded. Giving up.").
Proof.
  induction remaining as [|remaining IH]; intros retries s Hthrows.
  - cbn [updateNetwork_from]. steps. eexists. split; [reflexivity|].
    cbn [events emit]. rewrite sleeps_app, executions_app, last_snoc.
    simpl. rewrite !app_nil_r. repeat split; first [reflexivity|lia].
  - cbn [always_throws] in Hthrows.
    destruct (attempt_events E s) as (new & Hnew & Hquiet).
    destruct (attempt E s) as [a s1|what s1|s1|s1] eqn:Hattempt;
      try contradiction.
    cbn [state_of] in Hnew.
    destruct (backoff_returns E retries what s1)
      as (s2 & Hbackoff & Hev2 & _).
    rewrite Hbackoff in Hthrows. cbn [state_of] in Hthrows.
    destruct (IH (S retries) s2 Hthrows) as (s' & Hexit & Hsl & Hex & Hlast).
    exists s'. split; [|split; [|split]].
    + rewrite (updateNetwork_from_retries E remaining retries s s1 what
                 Hattempt), Hbackoff.
      exact Hexit.
    + rewrite Hsl, Hev2, Hnew.
      rewrite !sleeps_app.
      change (sleeps (Exec best_network_hash_cmdline :: new))
        with (sleeps new).
      rewrite (quiet_sleeps new Hquiet), app_nil_r, <- app_assoc.
      reflexivity.
    + rewrite Hex, Hev2, Hnew, !executions_app.
      change (executions best_network_hash_cmdline
                (Exec best_network_hash_cmdline :: new))
        with (S (executions best_network_hash_cmdline new)).
      rewrite (quiet_executions new Hquiet). cbn. lia.
    + exact Hlast.
Qed.

(** C5: when every pass of the loop of one refresh call raises the
    retryable network error, the call ends in [exit(EXIT_FAILURE)] after
    exactly 96 failed attempts: it has asked the server for the hash 96
    times and slept 96 times, for the delays of the indices 0 to 95 in
    this order (whatever the conversions of the later ones yield).  The
    index is a local variable of the call: whatever came before (the
    state [s] is arbitrary, and its events may hold the sleeps of earlier
    calls), the delays of this call start at index 0 again. *)
Theorem updateNetwork_gives_up (E : environment) (s : production) :
  always_throws E MAX_RETRIES 0 s ->
  exists s' : production,
    updateNetwork E s = Exit s'
    /\ sleeps (events s')
       = sleeps (events s) ++ List.map (backoff_seconds E) (seq 0 96)
    /\ executions best_network_hash_cmdline (events s')
       = (executions best_network_hash_cmdline (events s) + 96)%nat
    /\ last (events s')
       = Some (Print "Maximum number of retries exceeded. Giving up.").
Proof. apply updateNetwork_from_gives_up. Qed.

(** The theorem after an earlier refresh call that failed twice and
    succeeded at the third attempt, having slept 30 and 45 seconds: when
    the server is unreachable from then on, the next call starts at 30
    seconds again and gives up after 96 attempts. *)
Lemma updateNetwork_gives_up_witness :
  let E := Scenario.E_flaky in
  let s0 := Scenario.coordinator "abc" Scenario.d_abc in
  let s1 := state_of (updateNetwork E s0) in
  updateNetwork E s0 = Return true s1
  /\ sleeps (events s1) = [30; 45]
  /\ always_throws E MAX_RETRIES 0 s1
  /\ exists s2 : production,
       updateNetwork E s1 = Exit s2
       /\ sleeps (events s2)
          = [30; 45] ++ List.map (backoff_seconds E) (seq 0 96)
       /\ executions best_network_hash_cmdline (events s2) = (3 + 96)%nat.
Proof.
  intros E s0 s1.
  assert (H0 : updateNetwork E s0 = Return true s1)
    by (vm_compute; reflexivity).
  assert (H1 : sleeps (events s1) = [30; 45]) by (vm_compute; reflexivity).
  assert (H2 : always_throws E MAX_RETRIES 0 s1) by (vm_compute; exact I).
  split; [exact H0|]. split; [exact H1|]. split; [exact H2|].
  destruct (updateNetwork_gives_up E s1 H2) as (s2 & Hexit & Hsl & Hex & _).
  exists s2. split; [exact Hexit|]. split.
  - rewrite Hsl, H1. reflexivity.
  - rewrite Hex. reflexivity.
Defined.

(** ** The upload pipeline *)

(** Saving copies and compressing the record always returns. *)
Lemma save_entry_returns (E : environment)
  (sgf_file data_file debug_data_file : string) (s : production) :
  exists s' : production,
    save_entry E sgf_file data_file debug_data_file s = Return tt s'
    /\ m_network s' = m_network s /\ m_version s' = m_version s.
Proof.
  unfold save_entry. steps.
  destruct (negb (String.eqb (m_keepPath s) EmptyString)); fields;
    destruct (negb (String.eqb (m_debugPath s) EmptyString)); fields;
    (eexists; split; [reflexivity|split; reflexivity]).
Qed.

(** What submitting one game does: the command is run once, a non-zero
    exit code is logged and nothing more, and the three local files are
    then asked to be removed, in the same way whatever the exit code. *)
Lemma submit_entry_returns (E : environment)
  (sgf_file data_file debug_data_file : string) (s : production) :
  let cmdline := submit_cmdline (m_network s) (m_version s) sgf_file data_file in
  let r := QProcess_run E (spawned s) cmdline (disk s) in
  exists s' : production,
    submit_entry E sgf_file data_file debug_data_file s = Return tt s'
    /\ events s' =
         events s
         ++ [Print cmdline; Exec cmdline]
         ++ (if exitCode r =? 0 then []
             else [Print ("Upload failed. Curl Exit code: "
                          +:+ pretty (exitCode r));
                   Print "Continuing..."])
         ++ [Print (standardOutput r);
             Remove sgf_file; Remove data_file; Remove debug_data_file]
    /\ disk s' =
         (QFile_remove debug_data_file
            (QFile_remove data_file
               (QFile_remove sgf_file (disk_after r)).1).1).1.
Proof.
  intros cmdline r. unfold submit_entry. steps. fold cmdline.
  fields. fold r.
  destruct (exitCode r =? 0); cbn [negb]; fields;
    destruct (QFile_remove sgf_file (disk_after r)) as [d1 ok1]; fields;
    destruct (QFile_remove data_file d1) as [d2 ok2]; fields;
    destruct (QFile_remove debug_data_file d2) as [d3 ok3]; fields;
    (eexists; split; [reflexivity|]);
    fields; rewrite <- !app_assoc; split; reflexivity.
Qed.

(** After the three removals none of the three files is left, except
    those the file system refused to remove. *)
Lemma three_removals (a b c name : string) (d : gmap string file) :
  name ∈ [a; b; c] ->
  (forall f, d !! name = Some f -> removable f = true) ->
  (QFile_remove c (QFile_remove b (QFile_remove a d).1).1).1 !! name = None.
Proof.
  intros Hin Hr.
  assert (Hkeep : forall n d', (forall f, d' !! name = Some f -> removable f = true) ->
                  forall f, (QFile_remove n d').1 !! name = Some f -> removable f = true).
  { intros n d' Hd' f. unfold QFile_remove.
    destruct (d' !! n) as [g|]; [destruct (removable g)|]; simpl; auto.
    destruct (decide (n = name)) as [->|Hne].
    - rewrite lookup_delete_eq. discriminate.
    - rewrite lookup_delete_ne by assumption. auto. }
  rewrite !list_elem_of_In in Hin. simpl in Hin.
  destruct Hin as [<-|[<-|[<-|[]]]].
  - apply QFile_remove_None, QFile_remove_None, QFile_remove_gone, Hr.
  - apply QFile_remove_None, QFile_remove_gone, Hkeep, Hr.
  - apply QFile_remove_gone, Hkeep, Hkeep, Hr.
Qed.

Lemma for_each_returns (body : string -> computation unit) (l : list string) :
  (forall x s, exists s', body x s = Return tt s') ->
  forall s, exists s', for_each l body s = Return tt s'.
Proof.
  intros Hbody. induction l as [|x l IH]; intros s.
  - exists s. reflexivity.
  - cbn [for_each]. unfold bind.
    destruct (Hbody x s) as (s1 & ->). apply IH.
Qed.

Lemma upload_entry_returns (E : environment) (fileName : string)
  (s : production) :
  exists s' : production, upload_entry E fileName s = Return tt s'.
Proof.
  unfold upload_entry. cbv zeta. unfold bind at 1.
  destruct (save_entry_returns E fileName
              (QString_chop 4 fileName +:+ ".txt.0.gz")
              (QString_chop 4 fileName +:+ ".txt.debug.0.gz") s)
    as (s1 & -> & _).
  destruct (submit_entry_returns E (fileName +:+ ".gz")
              (QString_chop 4 fileName +:+ ".txt.0.gz")
              (QString_chop 4 fileName +:+ ".txt.debug.0.gz") s1)
    as (s' & -> & _).
  exists s'. reflexivity.
Qed.

(** What saving one game does: the copies that were asked for, in
    order, and then gzip on the game record. *)
Lemma save_entry_run (E : environment)
  (sgf_file data_file debug_data_file : string) (s : production) :
  let kept :=
    if String.eqb (m_keepPath s) EmptyString then disk s
    else QFile_copy E sgf_file (m_keepPath s +:+ "/" +:+ sgf_file) (disk s) in
  let saved :=
    if String.eqb (m_debugPath s) EmptyString then kept
    else QFile_copy E debug_data_file
           (m_debugPath s +:+ "/" +:+ debug_data_file)
           (QFile_copy E data_file (m_debugPath s +:+ "/" +:+ data_file)
              kept) in
  let gzip := QProcess_run E (spawned s) ("gzip " +:+ sgf_file) saved in
  exists s' : production,
    save_entry E sgf_file data_file debug_data_file s = Return tt s'
    /\ events s' =
         events s
         ++ (if String.eqb (m_keepPath s) EmptyString then []
             else [Copy sgf_file (m_keepPath s +:+ "/" +:+ sgf_file)])
         ++ (if String.eqb (m_debugPath s) EmptyString then []
             else [Copy data_file (m_debugPath s +:+ "/" +:+ data_file);
                   Copy debug_data_file
                        (m_debugPath s +:+ "/" +:+ debug_data_file)])
         ++ [Exec ("gzip " +:+ sgf_file)]
    /\ disk s' = disk_after gzip
    /\ spawned s' = S (spawned s)
    /\ m_network s' = m_network s /\ m_version s' = m_version s
    /\ m_keepPath s' = m_keepPath s /\ m_debugPath s' = m_debugPath s.
Proof.
  unfold save_entry. steps.
  destruct (String.eqb (m_keepPath s) EmptyString); cbn [negb]; fields;
    destruct (String.eqb (m_debugPath s) EmptyString); cbn [negb]; fields;
    (eexists; split; [reflexivity|]); fields;
    rewrite <- ?app_assoc; repeat split; reflexivity.
Qed.

Lemma submit_entry_keeps (E : environment)
  (sgf_file data_file debug_data_file : string) (s s' : production) :
  submit_entry E sgf_file data_file debug_data_file s = Return tt s' ->
  m_network s' = m_network s /\ m_version s' = m_version s
  /\ m_keepPath s' = m_keepPath s /\ m_debugPath s' = m_debugPath s.
Proof.
  unfold submit_entry. steps. fields.
  destruct (negb (_ =? 0)); fields;
    repeat match goal with
           | |- context [QFile_remove ?n ?d] =>
               destruct (QFile_remove n d) as [? ?]; fields
           end;
    intros H; injection H as <-; repeat split; reflexivity.
Qed.

(** One pass of the loop of [uploadData], for the entry [fileName] of
    the listing: the copies, gzip, the submission, the log of a failure,
    and the three removals. *)
Lemma upload_entry_run (E : environment) (fileName : string)
  (s : production) :
  let sgf_file := fileName +:+ ".gz" in
  let data_file := QString_chop 4 fileName +:+ ".txt.0.gz" in
  let debug_data_file := QString_chop 4 fileName +:+ ".txt.debug.0.gz" in
  let kept :=
    if String.eqb (m_keepPath s) EmptyString then disk s
    else QFile_copy E fileName (m_keepPath s +:+ "/" +:+ fileName) (disk s) in
  let saved :=
    if String.eqb (m_debugPath s) EmptyString then kept
    else QFile_copy E debug_data_file
           (m_debugPath s +:+ "/" +:+ debug_data_file)
           (QFile_copy E data_file (m_debugPath s +:+ "/" +:+ data_file)
              kept) in
  let gzip := QProcess_run E (spawned s) ("gzip " +:+ fileName) saved in
  let cmdline :=
    submit_cmdline (m_network s) (m_version s) sgf_file data_file in
  let r := QProcess_run E (S (spawned s)) cmdline (disk_after gzip) in
  exists s' : production,
    upload_entry E fileName s = Return tt s'
    /\ events s' =
         events s
         ++ (if String.eqb (m_keepPath s) EmptyString then []
             else [Copy fileName (m_keepPath s +:+ "/" +:+ fileName)])
         ++ (if String.eqb (m_debugPath s) EmptyString then []
             else [Copy data_file (m_debugPath s +:+ "/" +:+ data_file);
                   Copy debug_data_file
                        (m_debugPath s +:+ "/" +:+ debug_data_file)])
         ++ [Exec ("gzip " +:+ fileName); Print cmdline; Exec cmdline]
         ++ (if exitCode r =? 0 then []
             else [Print ("Upload failed. Curl Exit code: "
                          +:+ pretty (exitCode r));
                   Print "Continuing..."])
         ++ [Print (standardOutput r);
             Remove sgf_file; Remove data_file; Remove debug_data_file]
    /\ disk s' =
         (QFile_remove debug_data_file
            (QFile_remove data_file
               (QFile_remove sgf_file (disk_after r)).1).1).1
    /\ m_network s' = m_network s /\ m_version s' = m_version s
    /\ m_keepPath s' = m_keepPath s /\ m_debugPath s' = m_debugPath s.
Proof.
  intros sgf_file data_file debug_data_file kept saved gzip cmdline r.
  unfold upload_entry. cbv zeta. fold sgf_file data_file debug_data_file.
  unfold bind at 1.
  destruct (save_entry_run E fileName data_file debug_data_file s)
    as (s1 & -> & Hev1 & Hdisk1 & Hsp1 & Hnet1 & Hver1 & Hkeep1 & Hdbg1).
  fold kept saved gzip in Hdisk1.
  destruct (submit_entry_returns E sgf_file data_file debug_data_file s1)
    as (s2 & Hrun & Hev2 & Hdisk2).
  rewrite Hnet1, Hver1, Hsp1, Hdisk1 in Hev2, Hdisk2.
  fold cmdline r in Hev2, Hdisk2.
  destruct (submit_entry_keeps E _ _ _ s1 s2 Hrun)
    as (Hnet2 & Hver2 & Hkeep2 & Hdbg2).
  exists s2. split; [exact Hrun|]. split; [|split; [exact Hdisk2|]].
  - rewrite Hev2, Hev1, <- !app_assoc. reflexivity.
  - repeat split; congruence.
Qed.

(** The loop of [uploadData] changes neither the network and the version
    it submits under nor the two paths. *)
Lemma for_each_upload_keeps (E : environment) (l : list string) :
  forall s : production,
    exists s' : production,
      for_each l (upload_entry E) s = Return tt s'
      /\ m_network s' = m_network s /\ m_version s' = m_version s
      /\ m_keepPath s' = m_keepPath s /\ m_debugPath s' = m_debugPath s.
Proof.
  induction l as [|x rest IH]; intros s.
  - exists s. repeat split; reflexivity.
  - cbn [for_each]. unfold bind at 1.
    destruct (upload_entry_run E x s) as (s1 & -> & _ & _ & H1 & H2 & H3 & H4).
    destruct (IH s1) as (s2 & Hrun & H5 & H6 & H7 & H8).
    exists s2. split; [exact Hrun|]. repeat split; congruence.
Qed.

(** The loop reaches every entry of the listing, and goes on after it. *)
Lemma for_each_upload_split (E : environment)
  (before after : list string) (fileName : string) (s : production) :
  exists s0 s2 : production,
    for_each before (upload_entry E) s = Return tt s0
    /\ upload_entry E fileName s0 = Return tt s2
    /\ for_each (before ++ fileName :: after) (upload_entry E) s
       = for_each after (upload_entry E) s2.
Proof.
  revert s. induction before as [|x rest IH]; intros s.
  - destruct (upload_entry_run E fileName s) as (s2 & Hrun & _).
    exists s, s2. split; [reflexivity|]. split; [exact Hrun|].
    cbn [app for_each]. unfold bind at 1. rewrite Hrun. reflexivity.
  - destruct (upload_entry_run E x s) as (s1 & Hrun1 & _).
    destruct (IH s1) as (s0 & s2 & Hbefore & Hentry & Hall).
    exists s0, s2. split; [|split; [exact Hentry|]].
    + cbn [for_each]. unfold bind at 1. rewrite Hrun1. exact Hbefore.
    + cbn [app for_each]. unfold bind at 1. rewrite Hrun1. exact Hall.
Qed.

(** C8, as the code has it: a call of [uploadData] always returns,
    whatever the submissions answer (no exception, no exit).  For every
    entry of the listing it goes through, from the state [s0] in which
    its loop reaches the entry to the state [s2] in which it leaves it,
    the call makes the copies that were asked for, compresses the game
    record, runs the submission once, logs a non-zero exit code in two
    lines and does nothing else about it, prints the output, and then
    asks for the removal of the three local files of the game
    (compressed game record, training data, debug data), in the same way
    whatever the exit code: each of them that the file system lets go is
    gone when the loop goes on. *)
Theorem uploadData_tolerates_failure (E : environment) (file : string)
  (s : production) :
  exists s' : production,
    uploadData E file s = Return tt s'
    /\ forall (before after : list string) (fileName : string),
         QDir_entryInfoList E (file +:+ ".sgf") (disk s)
         = before ++ fileName :: after ->
         let sgf_file := fileName +:+ ".gz" in
         let data_file := QString_chop 4 fileName +:+ ".txt.0.gz" in
         let debug_data_file :=
           QString_chop 4 fileName +:+ ".txt.debug.0.gz" in
         exists s0 s2 : production,
           for_each before (upload_entry E) s = Return tt s0
           /\ for_each after (upload_entry E) s2 = Return tt s'
           /\ let kept :=
                if String.eqb (m_keepPath s) EmptyString then disk s0
                else QFile_copy E fileName (m_keepPath s +:+ "/" +:+ fileName)
                       (disk s0) in
              let saved :=
                if String.eqb (m_debugPath s) EmptyString then kept
                else QFile_copy E debug_data_file
                       (m_debugPath s +:+ "/" +:+ debug_data_file)
                       (QFile_copy E data_file
                          (m_debugPath s +:+ "/" +:+ data_file) kept) in
              let gzip :=
                QProcess_run E (spawned s0) ("gzip " +:+ fileName) saved in
              let cmdline :=
                submit_cmdline (m_network s) (m_version s) sgf_file data_file in
              let r :=
                QProcess_run E (S (spawned s0)) cmdline (disk_after gzip) in
              events s2 =
                events s0
                ++ (if String.eqb (m_keepPath s) EmptyString then []
                    else [Copy fileName (m_keepPath s +:+ "/" +:+ fileName)])
                ++ (if String.eqb (m_debugPath s) EmptyString then []
                    else [Copy data_file
                               (m_debugPath s +:+ "/" +:+ data_file);
                          Copy debug_data_file
                               (m_debugPath s +:+ "/" +:+ debug_data_file)])
                ++ [Exec ("gzip " +:+ fileName); Print cmdline; Exec cmdline]
                ++ (if exitCode r =? 0 then []
                    else [Print ("Upload failed. Curl Exit code: "
                                 +:+ pretty (exitCode r));
                          Print "Continuing..."])
                ++ [Print (standardOutput r);
                    Remove sgf_file; Remove data_file; Remove debug_data_file]
              /\ disk s2 =
                   (QFile_remove debug_data_file
                      (QFile_remove data_file
                         (QFile_remove sgf_file (disk_after r)).1).1).1
              /\ forall name : string,
                   name ∈ [sgf_file; data_file; debug_data_file] ->
                   (forall f, disk_after r !! name = Some f ->
                              removable f = true) ->
                   disk s2 !! name = None.
Proof.
  unfold uploadData. unfold bind at 1. unfold get.
  set (entries := QDir_entryInfoList E (file +:+ ".sgf") (disk s)).
  destruct (for_each_upload_keeps E entries s) as (s' & Hrun & _).
  exists s'. split; [exact Hrun|].
  intros before after fileName Hlist.
  destruct (for_each_upload_split E before after fileName s)
    as (s0 & s2 & Hbefore & Hentry & Hall).
  exists s0, s2. split; [exact Hbefore|].
  split; [rewrite <- Hall, <- Hlist; exact Hrun|].
  destruct (for_each_upload_keeps E before s)
    as (s0' & Hbefore' & Hnet & Hver & Hkeep & Hdbg).
  rewrite Hbefore in Hbefore'. injection Hbefore' as <-.
  destruct (upload_entry_run E fileName s0)
    as (s2' & Hentry' & Hev & Hdisk & _).
  rewrite Hentry in Hentry'. injection Hentry' as <-.
  rewrite Hnet, Hver, Hkeep, Hdbg in Hev, Hdisk.
  split; [exact Hev|]. split; [exact Hdisk|].
  intros name Hin Hr. rewrite Hdisk. apply three_removals; assumption.
Qed.

(** The theorem at a game whose files can all be removed and whose
    submission fails with exit code 7. *)
Lemma uploadData_tolerates_failure_witness :
  let E := Scenario.E_offline in
  let d : gmap string file :=
    <["g1.sgf" := Scenario.good "s"]>
      (<["g1.txt.0.gz" := Scenario.good "t"]> ∅) in
  let s := Scenario.coordinator "abc" d in
  QDir_entryInfoList E ("g1" +:+ ".sgf") (disk s) = [] ++ "g1.sgf" :: []
  /\ exists s' : production,
       uploadData E "g1" s = Return tt s'
       /\ events s'
          = [Exec "gzip g1.sgf";
             Print (submit_cmdline "abc" 1 "g1.sgf.gz" "g1.txt.0.gz");
             Exec (submit_cmdline "abc" 1 "g1.sgf.gz" "g1.txt.0.gz");
             Print "Upload failed. Curl Exit code: 7";
             Print "Continuing...";
             Print EmptyString;
             Remove "g1.sgf.gz"; Remove "g1.txt.0.gz";
             Remove "g1.txt.debug.0.gz"]
       /\ disk s' !! "g1.sgf.gz" = None
       /\ disk s' !! "g1.txt.0.gz" = None.
Proof.
  intros E d s.
  assert (Hlist : QDir_entryInfoList E ("g1" +:+ ".sgf") (disk s)
                  = [] ++ "g1.sgf" :: []) by reflexivity.
  split; [exact Hlist|].
  destruct (uploadData_tolerates_failure E "g1" s) as (s' & Hrun & Hentries).
  destruct (Hentries [] [] "g1.sgf" Hlist)
    as (s0 & s2 & Hbefore & Hafter & Hev & _ & Hgone).
  cbn [for_each] in Hbefore, Hafter.
  injection Hbefore as <-. injection Hafter as <-.
  exists s2. split; [exact Hrun|]. split; [rewrite Hev; reflexivity|].
  split; apply Hgone;
    first [ rewrite list_elem_of_In; simpl; tauto
          | intros f Hf; vm_compute in Hf;
            first [discriminate Hf | injection Hf as <-; reflexivity] ].
Defined.

(** C8 as the specification words it fails: the submission of game "g1"
    fails with exit code 7, the run continues, and the training data,
    which the file system does not let go, is still in the working
    directory after the attempt. *)
Lemma uploadData_leaves_unremovable_file :
  let E := Scenario.E_offline in
  let s := Scenario.coordinator "abc" Scenario.d_game in
  exists s' : production,
    uploadData E "g1" s = Return tt s'
    /\ In (Print "Upload failed. Curl Exit code: 7") (events s')
    /\ In (Remove "g1.txt.0.gz") (events s')
    /\ disk s' !! "g1.txt.0.gz" = Some (mkFile (Readable "t") false).
Proof.
  eexists. split; [vm_compute; reflexivity|].
  split; [cbn; tauto|]. split; [cbn; tauto|]. reflexivity.
Qed.

(** ** Result aggregation *)

Section Safe.

Lemma safe_ret {A} (a : A) : safe (ret a).
Proof. intros s s'. discriminate. Qed.

Lemma safe_get {A} (f : production -> A) : safe (get f).
Proof. intros s s'. discriminate. Qed.

Lemma safe_throw {A} (what : string) : safe (@throw A what).
Proof. intros s s'. discriminate. Qed.

Lemma safe_exit {A} : safe (@exit_failure A).
Proof. intros s s'. discriminate. Qed.

Lemma safe_print (text : string) : safe (print text).
Proof. intros s s'. discriminate. Qed.

Lemma safe_sleep (secs : Z) : safe (sleep secs).
Proof. intros s s'. discriminate. Qed.

Lemma safe_set_network (n : string) : safe (set_network n).
Proof. intros s s'. discriminate. Qed.

Lemma safe_file_exists (n : string) : safe (file_exists n).
Proof. intros s s'. discriminate. Qed.

Lemma safe_copy (E : environment) (src dst : string) :
  safe (copy E src dst).
Proof. intros s s'. discriminate. Qed.

Lemma safe_exec (E : environment) (cmdline : string) : safe (exec E cmdline).
Proof. intros s s'. discriminate. Qed.

Lemma safe_remove (name : string) : safe (remove name).
Proof.
  intros s s'. unfold remove. destruct (QFile_remove name (disk s)).
  discriminate.
Qed.

Lemma safe_bind {A B} (c : computation A) (k : A -> computation B) :
  safe c -> (forall a, safe (k a)) -> safe (bind c k).
Proof.
  intros Hc Hk s s'. unfold bind.
  destruct (c s) as [a s1|what s1|s1|s1] eqn:Hcs; try discriminate.
  - apply Hk.
  - destruct (Hc s s1 Hcs).
Qed.

Lemma safe_try_catch {A} (body : computation A)
  (handler : string -> computation A) :
  safe body -> (forall what, safe (handler what)) ->
  safe (try_catch body handler).
Proof.
  intros Hb Hh s s'. unfold try_catch.
  destruct (body s) as [a s1|what s1|s1|s1] eqn:Hbs; try discriminate.
  - apply Hh.
  - destruct (Hb s s1 Hbs).
Qed.

End Safe.

Create HintDb safe discriminated.
#[local] Hint Resolve safe_ret safe_get safe_throw safe_exit safe_print
  safe_sleep safe_set_network safe_file_exists safe_copy safe_exec
  safe_remove : safe.

Ltac safe_tac :=
  repeat first
    [ apply safe_bind; [|intros ?]
    | match goal with
      | |- safe (if ?b then _ else _) => destruct b
      | |- safe (match ?x with _ => _ end) => destruct x
      | |- safe (let _ := _ in _) => cbv zeta
      end
    | solve [auto with safe] ].

Lemma networkExists_safe : safe networkExists.
Proof. unfold networkExists. safe_tac. Qed.

Lemma attempt_safe (E : environment) : safe (attempt E).
Proof.
  pose proof networkExists_safe.
  unfold attempt, fetchBestNetworkHash, read_best_network_hash,
    fetchBestNetwork, download.
  safe_tac.
Qed.

Lemma updateNetwork_from_safe (E : environment) (remaining : nat) :
  forall retries : nat, safe (updateNetwork_from E remaining retries).
Proof.
  induction remaining as [|remaining IH]; intros retries;
    cbn [updateNetwork_from].
  - safe_tac.
  - apply safe_try_catch; [apply attempt_safe|].
    intros what. unfold backoff. pose proof (IH (S retries)). safe_tac.
Qed.

Lemma uploadData_safe (E : environment) (file : string) :
  safe (uploadData E file).
Proof.
  intros s s' Hdiv.
  assert (Hret : exists s1, uploadData E file s = Return tt s1).
  { unfold uploadData. steps.
    apply for_each_returns, upload_entry_returns. }
  destruct Hret as (s1 & Hret). congruence.
Qed.

(** With both counters non-zero the statistics line is printed, and the
    two quotients on it are those of non-zero divisors. *)
Lemma printTimingInfo_prints (E : environment) (total_time_s : Z)
  (duration : Q) (s : production) :
  m_movesMade s <> 0 -> m_gamesPlayed s <> 0 ->
  printTimingInfo E total_time_s duration s =
    Return tt
      (emit (Print (pretty (m_gamesPlayed s) +:+ " game(s) played in "
                    +:+ pretty (Z.quot total_time_s 60) +:+ " minutes = "
                    +:+ pretty (Z.quot total_time_s (m_gamesPlayed s))
                    +:+ " seconds/game, "
                    +:+ pretty (Z.quot (total_time_s * 1000) (m_movesMade s))
                    +:+ " ms/move"
                    +:+ ", last game took "
                    +:+ pretty (double_to_int E duration)
                    +:+ " seconds.")) s).
Proof.
  intros Hm Hg. unfold printTimingInfo, int_div. steps.
  apply Z.eqb_neq in Hm, Hg. rewrite Hm, Hg. reflexivity.
Qed.

(** C10: in every call of [printTimingInfo], if the moves counter or the
    games counter is zero the function returns without printing and
    without dividing; so neither the division of the total seconds by
    [m_gamesPlayed] nor the division of the total milliseconds by
    [m_movesMade] ever has a zero divisor, in [printTimingInfo] itself and
    in [getResult], which calls it after it has incremented the games
    counter. *)
Theorem printTimingInfo_never_divides_by_zero (E : environment)
  (total_time_s : Z) (duration : Q) (s : production) :
  (m_movesMade s = 0 \/ m_gamesPlayed s = 0 ->
   printTimingInfo E total_time_s duration s = Return tt s)
  /\ (forall s' : production,
        printTimingInfo E total_time_s duration s <> DivisionByZero s')
  /\ (forall (file : string) (s' : production),
        getResult E total_time_s file duration s <> DivisionByZero s').
Proof.
  assert (Hguard : m_movesMade s = 0 \/ m_gamesPlayed s = 0 ->
                   printTimingInfo E total_time_s duration s = Return tt s).
  { intros Hzero. unfold printTimingInfo. steps.
    destruct Hzero as [-> | ->]; [reflexivity|].
    rewrite orb_true_r. reflexivity. }
  assert (Hsafe : safe (printTimingInfo E total_time_s duration)).
  { intros s1 s'.
    destruct (Z.eq_dec (m_movesMade s1) 0) as [Hm|Hm];
      [|destruct (Z.eq_dec (m_gamesPlayed s1) 0) as [Hg|Hg]].
    - unfold printTimingInfo. steps. rewrite Hm. discriminate.
    - unfold printTimingInfo. steps. rewrite Hg, orb_true_r. discriminate.
    - rewrite (printTimingInfo_prints E total_time_s duration s1 Hm Hg).
      discriminate. }
  split; [exact Hguard|]. split.
  - intros s'. apply Hsafe.
  - intros file. change (forall s', getResult E total_time_s file duration s
                                    <> DivisionByZero s').
    generalize s. change (safe (getResult E total_time_s file duration)).
    unfold getResult.
    pose proof (uploadData_safe E file) as Hupload.
    pose proof (updateNetwork_from_safe E MAX_RETRIES 0) as Hupdate.
    fold (updateNetwork E) in Hupdate.
    apply safe_bind; [intros s0 s1; discriminate|]. intros _.
    apply safe_bind; [exact Hsafe|]. intros _.
    apply safe_bind; [exact Hupload|]. intros _.
    apply safe_bind; [exact Hupdate|]. intros unchanged.
    destruct (negb unchanged); [intros s0 s1; discriminate|apply safe_ret].
Qed.

(** The theorem before the first move of a run: no game and no move has
    been counted, and nothing is printed. *)
Lemma printTimingInfo_never_divides_by_zero_witness :
  let s := Scenario.coordinator "abc" ∅ in
  (m_movesMade s = 0 \/ m_gamesPlayed s = 0)
  /\ printTimingInfo Scenario.E_offline 100 (7 # 2) s = Return tt s.
Proof.
  intros s. split; [left; reflexivity|].
  apply (printTimingInfo_never_divides_by_zero Scenario.E_offline 100 (7 # 2) s).
  left. reflexivity.
Defined.

(** ** The games counter *)

Lemma keeps_bind {A B} (c : computation A) (k : A -> computation B) :
  keeps_gamesPlayed c -> (forall a, keeps_gamesPlayed (k a)) ->
  keeps_gamesPlayed (bind c k).
Proof.
  intros Hc Hk s. unfold bind. specialize (Hc s).
  destruct (c s) as [a s1|what s1|s1|s1]; cbn [state_of] in *;
    try exact Hc.
  rewrite (Hk a s1). exact Hc.
Qed.

Lemma keeps_try_catch {A} (body : computation A)
  (handler : string -> computation A) :
  keeps_gamesPlayed body -> (forall what, keeps_gamesPlayed (handler what)) ->
  keeps_gamesPlayed (try_catch body handler).
Proof.
  intros Hb Hh s. unfold try_catch. specialize (Hb s).
  destruct (body s) as [a s1|what s1|s1|s1]; cbn [state_of] in *;
    try exact Hb.
  rewrite (Hh what s1). exact Hb.
Qed.

Lemma keeps_remove (name : string) : keeps_gamesPlayed (remove name).
Proof.
  intros s. unfold remove. destruct (QFile_remove name (disk s)).
  reflexivity.
Qed.

Lemma keeps_int_div (a b : Z) : keeps_gamesPlayed (int_div a b).
Proof. intros s. unfold int_div. destruct (b =? 0); reflexivity. Qed.

(** Steps that visibly leave the counter alone. *)
Ltac keeps_step :=
  match goal with
  | |- keeps_gamesPlayed (ret _) => intros ?; reflexivity
  | |- keeps_gamesPlayed (get _) => intros ?; reflexivity
  | |- keeps_gamesPlayed (throw _) => intros ?; reflexivity
  | |- keeps_gamesPlayed exit_failure => intros ?; reflexivity
  | |- keeps_gamesPlayed (print _) => intros ?; reflexivity
  | |- keeps_gamesPlayed (sleep _) => intros ?; reflexivity
  | |- keeps_gamesPlayed (exec _ _) => intros ?; reflexivity
  | |- keeps_gamesPlayed (copy _ _ _) => intros ?; reflexivity
  | |- keeps_gamesPlayed (set_network _) => intros ?; reflexivity
  | |- keeps_gamesPlayed (file_exists _) => intros ?; reflexivity
  | |- keeps_gamesPlayed (remove _) => apply keeps_remove
  | |- keeps_gamesPlayed (int_div _ _) => apply keeps_int_div
  end.

Ltac keeps_tac :=
  repeat first
    [ apply keeps_bind; [|intros ?]
    | match goal with
      | |- keeps_gamesPlayed (if ?b then _ else _) => destruct b
      | |- keeps_gamesPlayed (match ?x with _ => _ end) => destruct x
      | |- keeps_gamesPlayed (let _ := _ in _) => cbv zeta
      end
    | keeps_step
    | assumption ].

Lemma attempt_keeps (E : environment) : keeps_gamesPlayed (attempt E).
Proof.
  assert (keeps_gamesPlayed networkExists)
    by (unfold networkExists; keeps_tac).
  unfold attempt, fetchBestNetworkHash, read_best_network_hash,
    fetchBestNetwork, download.
  keeps_tac.
Qed.

Lemma updateNetwork_from_keeps (E : environment) (remaining : nat) :
  forall retries : nat,
    keeps_gamesPlayed (updateNetwork_from E remaining retries).
Proof.
  induction remaining as [|remaining IH]; intros retries;
    cbn [updateNetwork_from].
  - keeps_tac.
  - apply keeps_try_catch; [apply attempt_keeps|].
    intros what. unfold backoff. pose proof (IH (S retries)). keeps_tac.
Qed.

Lemma for_each_keeps (body : string -> computation unit) (l : list string) :
  (forall x, keeps_gamesPlayed (body x)) ->
  keeps_gamesPlayed (for_each l body).
Proof.
  intros Hbody. induction l as [|x l IH]; cbn [for_each].
  - intros s. reflexivity.
  - apply keeps_bind; [apply Hbody|]. intros _. exact IH.
Qed.

Lemma uploadData_keeps (E : environment) (file : string) :
  keeps_gamesPlayed (uploadData E file).
Proof.
  unfold uploadData. apply keeps_bind; [keeps_step|]. intros l.
  apply for_each_keeps. intros x.
  unfold upload_entry, save_entry, submit_entry. keeps_tac.
Qed.

(** One call of [getResult] counts one game, however the call ends: what
    follows the increment (the statistics, the upload, the refresh and
    the broadcast) does not touch [m_gamesPlayed]. *)
Lemma getResult_counts_one (E : environment) (total_time_s : Z)
  (file : string) (duration : Q) (s : production) :
  m_gamesPlayed (state_of (getResult E total_time_s file duration s))
  = wrap_int (m_gamesPlayed s + 1).
Proof.
  unfold getResult. unfold bind at 1.
  set (s1 := with_gamesPlayed (wrap_int (m_gamesPlayed s + 1)) s).
  change (wrap_int (m_gamesPlayed s + 1)) with (m_gamesPlayed s1).
  generalize s1. clear s s1.
  change (keeps_gamesPlayed
            (printTimingInfo E total_time_s duration ;;
             uploadData E file ;;
             unchanged <- updateNetwork E ;;
             if negb unchanged
             then fun s =>
                    Return tt
                      (with_gamesThreads
                         (List.map (ProductionWorker.newNetwork (m_network s))
                                   (m_gamesThreads s)) s)
             else ret tt)).
  pose proof (uploadData_keeps E file).
  pose proof (updateNetwork_from_keeps E MAX_RETRIES 0) as Hupdate.
  fold (updateNetwork E) in Hupdate.
  apply keeps_bind.
  - unfold printTimingInfo. keeps_tac.
  - intros _. apply keeps_bind; [assumption|]. intros _.
    apply keeps_bind; [assumption|]. intros unchanged.
    destruct (negb unchanged); intros s; reflexivity.
Qed.

End ProductionFacts.

(** * Further properties of the Worker *)

Module WorkerMore.

Import ProductionWorker.

Lemma occurrences_app (p : action -> bool) (l1 l2 : list action) :
  occurrences p (l1 ++ l2) = (occurrences p l1 + occurrences p l2)%nat.
Proof. unfold occurrences. rewrite List.filter_app. apply length_app. Qed.

Lemma deliver_untouched (s : option signal) (w : worker) :
  actions (deliver s w) = actions w
  /\ m_option (deliver s w) = m_option w
  /\ movesMade (deliver s w) = movesMade w.
Proof. destruct s as [[net|]|]; repeat split; reflexivity. Qed.

Lemma play_cons (r : move_reply) (rest : list move_reply) (w : worker) :
  play (r :: rest) w =
    if negb (waitForMove_ok r) then Died (perform waitForMove (perform move w))
    else if nextMove_more r && RunState_eqb (m_state (after_move r w)) RUNNING
         then play rest (after_move r w)
         else Ended (after_move r w).
Proof. reflexivity. Qed.

Lemma after_move_actions (r : move_reply) (w : worker) :
  actions (after_move r w)
  = actions w ++ [move; waitForMove; readMove; nextMove].
Proof.
  unfold after_move. simpl.
  rewrite (proj1 (deliver_untouched _ _)). simpl.
  rewrite <- !app_assoc. reflexivity.
Qed.

Lemma after_move_fields (r : move_reply) (w : worker) :
  m_option (after_move r w) = m_option w
  /\ movesMade (after_move r w) = wrap_int (movesMade w + 1).
Proof.
  unfold after_move. simpl.
  destruct (deliver_untouched (meanwhile r)
              (count_move (perform readMove
                             (perform waitForMove (perform move w)))))
    as (_ & -> & ->).
  split; reflexivity.
Qed.

Lemma after_move_quiet (r : move_reply) (w : worker) :
  meanwhile r = None ->
  m_state (after_move r w) = m_state w
  /\ m_network (after_move r w) = m_network w.
Proof. intros Hr. unfold after_move. rewrite Hr. split; reflexivity. Qed.

Lemma wrap_int_in_range (z : Z) :
  INT_MIN <= z <= INT_MAX -> wrap_int z = z.
Proof.
  unfold wrap_int, INT_MIN, INT_MAX. intros Hz.
  rewrite Z.mod_small; lia.
Qed.

(** X1: the inner loop increments the shared moves counter once for
    every move it reads: as long as the counter does not overflow, it
    has grown by the number of [readMove] calls when the loop is left,
    however it is left. *)
Theorem play_counts_moves (replies : list move_reply) :
  forall w : worker,
    INT_MIN <= movesMade w ->
    movesMade w + Z.of_nat (length replies) <= INT_MAX ->
    exists new : list action,
      actions (worker_of (play replies w)) = actions w ++ new
      /\ movesMade (worker_of (play replies w))
         = movesMade w + Z.of_nat (occurrences is_readMove new).
Proof.
  induction replies as [|r rest IH]; intros w Hlo Hhi.
  - exists [move; waitForMove]. cbn. rewrite <- app_assoc.
    split; [reflexivity|lia].
  - rewrite play_cons. destruct (waitForMove_ok r); cbn [negb].
    + destruct (after_move_fields r w) as (_ & Hcount).
      rewrite wrap_int_in_range in Hcount by (cbn [length] in Hhi; lia).
      pose proof (after_move_actions r w) as Hact.
      destruct (nextMove_more r && RunState_eqb (m_state (after_move r w)) RUNNING).
      * destruct (IH (after_move r w)) as (new & Hnew & Hmoves);
          [lia|cbn [length] in Hhi; lia|].
        exists ([move; waitForMove; readMove; nextMove] ++ new). split.
        -- rewrite Hnew, Hact, <- app_assoc. reflexivity.
        -- rewrite Hmoves, Hcount, occurrences_app.
           change (occurrences is_readMove [move; waitForMove; readMove; nextMove])
             with 1%nat.
           lia.
      * exists [move; waitForMove; readMove; nextMove].
        cbn [worker_of]. split; [exact Hact|].
        rewrite Hcount. cbn. lia.
    + exists [move; waitForMove]. cbn. rewrite <- app_assoc.
      split; [reflexivity|lia].
Qed.

(** The theorem at the three moves of the won game. *)
Lemma play_counts_moves_witness :
  let w := begin Scenario.game_won Scenario.w0 in
  INT_MIN <= movesMade w
  /\ movesMade w + Z.of_nat (length (moves Scenario.game_won)) <= INT_MAX
  /\ movesMade (worker_of (play (moves Scenario.game_won) w)) = 3.
Proof.
  intros w. split; [vm_compute; discriminate|].
  split; [vm_compute; discriminate|].
  destruct (play_counts_moves (moves Scenario.game_won) w)
    as (new & Hnew & Hmoves); [vm_compute; discriminate..|].
  reflexivity.
Defined.

Lemma conclude_last (g : game_reply) (w : worker) :
  last (actions (conclude g w)) = Some gameQuit.
Proof.
  unfold conclude. destruct (m_state w); cbn [perform actions];
    apply last_snoc.
Qed.

Lemma play_Died_last (replies : list move_reply) :
  forall w w1 : worker,
    play replies w = Died w1 -> last (actions w1) = Some waitForMove.
Proof.
  induction replies as [|r rest IH]; intros w w1 Hplay.
  - discriminate.
  - rewrite play_cons in Hplay. destruct (waitForMove_ok r); cbn [negb] in Hplay.
    + destruct (nextMove_more r && RunState_eqb (m_state (after_move r w)) RUNNING);
        [eapply IH; exact Hplay|discriminate].
    + injection Hplay as <-. apply last_snoc.
Qed.

(** X2: how [run] leaves.  When the loop ends, the state is FINISHING
    and the last thing done was to quit the engine; when [run] returns
    early, the last thing done was the call that failed, [gameStart] or
    [waitForMove], and the engine was not told to quit after it. *)
Theorem run_leaves (games : list game_reply) :
  forall w w' : worker,
    (run games w = Finished w' ->
     m_state w' = FINISHING /\ last (actions w') = Some gameQuit)
    /\ (run games w = Returned w' ->
        last (actions w') = Some gameStart
        \/ last (actions w') = Some waitForMove).
Proof.
  induction games as [|g rest IH]; intros w w'.
  - split; discriminate.
  - cbn [run]. destruct (gameStart_ok g); cbn [negb].
    + destruct (play (moves g) (begin g w)) as [w1|w1|w1] eqn:Hplay.
      * destruct (RunState_eqb (m_state (conclude g w1)) FINISHING) eqn:Hfin.
        -- split; [|discriminate]. intros [= <-]. split; [|apply conclude_last].
           destruct (m_state (conclude g w1)); [discriminate..|reflexivity].
        -- apply IH.
      * split; [discriminate|]. intros [= <-]. right.
        apply (play_Died_last _ _ _ Hplay).
      * split; discriminate.
    + split; [discriminate|]. intros [= <-]. left. apply last_snoc.
Qed.

(** The theorem at a run that dies in its second game. *)
Lemma run_leaves_witness :
  let games := [Scenario.game_won; Scenario.game_died; Scenario.game_won] in
  exists w',
    run games Scenario.w0 = Returned w'
    /\ last (actions w') = Some waitForMove.
Proof.
  intros games. exists (ran_worker (run games Scenario.w0)).
  assert (Hrun : run games Scenario.w0
                 = Returned (ran_worker (run games Scenario.w0)))
    by (vm_compute; reflexivity).
  split; [exact Hrun|].
  destruct (proj2 (run_leaves games Scenario.w0 _) Hrun) as [H|H];
    [vm_compute in H; discriminate H|exact H].
Defined.

Lemma play_adds_moves (replies : list move_reply) (w : worker) :
  exists new : list action,
    actions (worker_of (play replies w)) = actions w ++ new
    /\ occurrences is_Game_new new = 0%nat
    /\ occurrences is_gameQuit new = 0%nat
    /\ notifications new = [].
Proof.
  destruct (WorkerFacts.play_moves_only replies w) as (new & Hnew & Hmoves).
  exists new. split; [exact Hnew|].
  split; [|split; [|apply WorkerFacts.move_calls_notify_nothing, Hmoves]];
    clear Hnew; induction new as [|a new IH]; try reflexivity;
    cbn in Hmoves; apply andb_prop in Hmoves as [Ha Hn];
    specialize (IH Hn); destruct a; cbn in *; try discriminate; exact IH.
Qed.

Lemma conclude_adds (g : game_reply) (w : worker) :
  exists new : list action,
    actions (conclude g w) = actions w ++ new
    /\ occurrences is_Game_new new = 0%nat
    /\ occurrences is_gameQuit new = 1%nat.
Proof.
  unfold conclude. destruct (m_state w).
  - destruct (getScore_ok g); eexists;
      (split; [cbn; rewrite (proj1 (deliver_untouched _ _)); cbn;
               rewrite <- !app_assoc; reflexivity|split; reflexivity]).
  - eexists. split; [cbn; rewrite <- !app_assoc; reflexivity|split; reflexivity].
  - eexists. split; [cbn; rewrite <- !app_assoc; reflexivity|split; reflexivity].
Qed.

(** X3: the engines a Worker creates and the engines it quits.  In
    every run each [Game] that has been created has been quit, except
    possibly the last one: when the loop ends all of them have been quit,
    and when [run] returns early exactly the last one has not. *)
Theorem run_quits_its_games (games : list game_reply) :
  forall w : worker,
    exists new : list action,
      actions (ran_worker (run games w)) = actions w ++ new
      /\ match run games w with
         | Finished _ =>
             occurrences is_Game_new new = occurrences is_gameQuit new
         | Returned _ =>
             occurrences is_Game_new new = S (occurrences is_gameQuit new)
         | Running _ =>
             (occurrences is_gameQuit new <= occurrences is_Game_new new
              <= S (occurrences is_gameQuit new))%nat
         end.
Proof.
  induction games as [|g rest IH]; intros w.
  - exists []. cbn. rewrite app_nil_r. split; [reflexivity|lia].
  - cbn [run].
    pose proof (WorkerFacts.begin_actions g w) as Hbegin.
    destruct (gameStart_ok g); cbn [negb].
    + destruct (play_adds_moves (moves g) (begin g w))
        as (n1 & Hn1 & Hg1 & Hq1 & _).
      destruct (play (moves g) (begin g w)) as [w1|w1|w1] eqn:Hplay;
        cbn [worker_of] in Hn1.
      * destruct (conclude_adds g w1) as (n2 & Hn2 & Hg2 & Hq2).
        destruct (RunState_eqb (m_state (conclude g w1)) FINISHING).
        -- eexists. split.
           ++ cbn [ran_worker]. rewrite Hn2, Hn1, Hbegin, <- !app_assoc.
              reflexivity.
           ++ rewrite !occurrences_app, Hg1, Hq1, Hg2, Hq2. reflexivity.
        -- destruct (IH (conclude g w1)) as (n3 & Hn3 & Hcount).
           eexists. split.
           ++ rewrite Hn3, Hn2, Hn1, Hbegin, <- !app_assoc. reflexivity.
           ++ rewrite !occurrences_app, Hg1, Hq1, Hg2, Hq2.
              change (occurrences is_Game_new
                        [print ("option=" +:+ game_option g w);
                         Game_new (m_network w) (game_option g w); gameStart])
                with 1%nat.
              change (occurrences is_gameQuit
                        [print ("option=" +:+ game_option g w);
                         Game_new (m_network w) (game_option g w); gameStart])
                with 0%nat.
              destruct (run rest (conclude g w1)); lia.
      * eexists. split.
        -- cbn [ran_worker]. rewrite Hn1, Hbegin, <- !app_assoc. reflexivity.
        -- rewrite !occurrences_app, Hg1, Hq1. reflexivity.
      * eexists. split.
        -- cbn [ran_worker]. rewrite Hn1, Hbegin, <- !app_assoc. reflexivity.
        -- rewrite !occurrences_app, Hg1, Hq1. cbn. lia.
    + eexists. split; [cbn [ran_worker]; exact Hbegin|reflexivity].
Qed.

Lemma play_plays_out (replies : list move_reply) :
  forall w : worker,
    plays_out replies = true ->
    m_state w = RUNNING ->
    exists w1 : worker,
      play replies w = Ended w1
      /\ m_state w1 = RUNNING
      /\ m_network w1 = m_network w
      /\ m_option w1 = m_option w.
Proof.
  induction replies as [|r rest IH]; intros w Hout Hst; [discriminate|].
  cbn [plays_out] in Hout.
  apply andb_prop in Hout as [Hout Hnext]. apply andb_prop in Hout as [Hwait Hquiet].
  assert (Hnone : meanwhile r = None) by (destruct (meanwhile r); [discriminate|reflexivity]).
  destruct (after_move_quiet r w Hnone) as (Hst' & Hnet').
  destruct (after_move_fields r w) as (Hopt' & _).
  rewrite play_cons, Hwait. cbn [negb]. rewrite Hst', Hst. cbn [RunState_eqb].
  rewrite andb_true_r.
  destruct (nextMove_more r); cbn [negb orb] in Hnext.
  - destruct (IH (after_move r w) Hnext) as (w1 & Hplay & H1 & H2 & H3);
      [congruence|].
    exists w1. repeat split; congruence.
  - exists (after_move r w). repeat split; congruence.
Qed.

(** A Worker that nobody disturbs goes through all the games of the
    script and reports each of them. *)
Lemma run_undisturbed (games : list game_reply) :
  forall w : worker,
    forallb undisturbed games = true ->
    m_state w = RUNNING ->
    exists w' : worker,
      run games w = Running w'
      /\ m_state w' = RUNNING
      /\ m_network w' = m_network w
      /\ notifications (actions w')
         = notifications (actions w)
           ++ List.map (fun g => resultReady (getFile g)
                                             (to_float (gameDuration g)))
                       games.
Proof.
  induction games as [|g rest IH]; intros w Hall Hst.
  - exists w. cbn. rewrite app_nil_r. repeat split; assumption.
  - cbn [forallb] in Hall. apply andb_prop in Hall as [Hg Hrest].
    unfold undisturbed in Hg.
    apply andb_prop in Hg as [Hg Hhandler]. apply andb_prop in Hg as [Hstart Hout].
    assert (Hnone : in_handler g = None)
      by (destruct (in_handler g); [discriminate|reflexivity]).
    destruct (play_plays_out (moves g) (begin g w) Hout Hst)
      as (w1 & Hplay & Hst1 & Hnet1 & _).
    destruct (play_adds_moves (moves g) (begin g w)) as (n1 & Hn1 & _ & _ & Hq1).
    rewrite Hplay in Hn1. cbn [worker_of] in Hn1.
    assert (Hst2 : m_state (conclude g w1) = RUNNING
                   /\ m_network (conclude g w1) = m_network w1).
    { unfold conclude. rewrite Hst1, Hnone.
      destruct (getScore_ok g); cbn; split; first [exact Hst1|reflexivity]. }
    destruct Hst2 as (Hst2 & Hnet2).
    destruct (IH (conclude g w1) Hrest Hst2) as (w' & Hrun & Hst' & Hnet' & Hnot).
    exists w'. split; [|split; [exact Hst'|split]].
    + rewrite (WorkerFacts.run_step g rest w w1 Hstart Hplay), Hst2. exact Hrun.
    + rewrite Hnet', Hnet2, Hnet1. reflexivity.
    + rewrite Hnot, (WorkerFacts.conclude_RUNNING g w1 Hst1), Hn1,
        WorkerFacts.begin_actions.
      rewrite !WorkerFacts.notifications_app, Hq1.
      destruct (getScore_ok g); cbn; rewrite <- !app_assoc; reflexivity.
Qed.

(** X4: a Worker that the Coordinator leaves alone reports every game,
    once and in the order they were played: when every game starts, is
    played to its end and its result handler writes nothing to the
    Worker, [run] started in state RUNNING goes through all of them, stays
    RUNNING on the same network, and the [resultReady] signals it has
    emitted are those of the games, one each, in order, each with the
    file of its game and the duration as the [float] the slot receives:
    the duration itself when no game took 2^24 seconds or more, the
    nearest [float] in general. *)
Theorem run_reports_every_game (games : list game_reply) (w : worker) :
  forallb undisturbed games = true ->
  m_state w = RUNNING ->
  exists w' : worker,
    run games w = Running w'
    /\ m_state w' = RUNNING
    /\ m_network w' = m_network w
    /\ notifications (actions w')
       = notifications (actions w)
         ++ List.map (fun g => resultReady (getFile g)
                                           (to_float (gameDuration g)))
                     games
    /\ (Forall (fun g => Z.abs (gameDuration g) < 2 ^ 24) games ->
        notifications (actions w')
        = notifications (actions w)
          ++ List.map (fun g => resultReady (getFile g) (gameDuration g))
                      games).
Proof.
  intros Hall Hst.
  destruct (run_undisturbed games w Hall Hst) as (w' & Hrun & Hst' & Hnet & Hnot).
  exists w'. repeat split; try assumption.
  intros Hshort. rewrite Hnot. f_equal.
  clear - Hshort. induction Hshort as [|g rest Hg _ IH]; [reflexivity|].
  cbn [List.map]. rewrite IH, (WorkerFacts.to_float_exact _ Hg). reflexivity.
Qed.

(** The theorem at a won game followed by one that took 16777217
    seconds and is reported with 16777216. *)
Lemma run_reports_every_game_witness :
  let long_game :=
    mkGame true true [mkMove true false None] true "g8" 16777217 None in
  let games := [Scenario.game_won; long_game] in
  forallb undisturbed games = true
  /\ m_state Scenario.w0 = RUNNING
  /\ exists w' : worker,
       run games Scenario.w0 = Running w'
       /\ notifications (actions w')
          = [resultReady "g3" 40; resultReady "g8" 16777216].
Proof.
  intros long_game games. split; [reflexivity|]. split; [reflexivity|].
  destruct (run_reports_every_game games Scenario.w0 eq_refl eq_refl)
    as (w' & Hrun & _ & _ & Hnot & _).
  exists w'. split; [exact Hrun|]. rewrite Hnot. vm_compute. reflexivity.
Defined.

Lemma play_m_option (replies : list move_reply) :
  forall w : worker, m_option (worker_of (play replies w)) = m_option w.
Proof.
  induction replies as [|r rest IH]; intros w; [reflexivity|].
  rewrite play_cons. destruct (waitForMove_ok r); cbn [negb]; [|reflexivity].
  destruct (after_move_fields r w) as (Hopt & _).
  destruct (nextMove_more r && RunState_eqb (m_state (after_move r w)) RUNNING).
  - rewrite IH. exact Hopt.
  - exact Hopt.
Qed.

Lemma conclude_m_option (g : game_reply) (w : worker) :
  m_option (conclude g w) = m_option w.
Proof.
  unfold conclude. destruct (m_state w); [|reflexivity..].
  destruct (getScore_ok g); cbn;
    rewrite (proj1 (proj2 (deliver_untouched _ _))); reflexivity.
Qed.

Lemma In_Game_new_moves (network option : string) (l : list action) :
  occurrences is_Game_new l = 0%nat -> ~ In (Game_new network option) l.
Proof.
  induction l as [|a l IH]; intros Hocc Hin; [destruct Hin|].
  destruct Hin as [-> | Hin]; [discriminate|].
  apply IH; [|exact Hin].
  unfold occurrences in *. cbn in Hocc. destruct (is_Game_new a);
    [discriminate|exact Hocc].
Qed.

(** Every [Game] of a run is created with the option string of the
    Worker behind a resign threshold of 0 or 5 percent. *)
Lemma run_Game_new (games : list game_reply) :
  forall (w : worker) (network option : string),
    In (Game_new network option) (actions (ran_worker (run games w))) ->
    In (Game_new network option) (actions w)
    \/ exists resignpct : string,
         (resignpct = "0" \/ resignpct = "5")
         /\ option = " -r " +:+ resignpct +:+ m_option w.
Proof.
  induction games as [|g rest IH]; intros w network option Hin.
  - left. exact Hin.
  - assert (Hhere : In (Game_new network option) (actions (begin g w)) ->
                    In (Game_new network option) (actions w)
                    \/ exists resignpct : string,
                         (resignpct = "0" \/ resignpct = "5")
                         /\ option = " -r " +:+ resignpct +:+ m_option w).
    { rewrite WorkerFacts.begin_actions, in_app_iff.
      intros [H|H]; [left; exact H|right].
      destruct H as [H|[H|[H|[]]]]; try discriminate.
      injection H as _ <-. unfold game_option.
      destruct (pick_below_fifth g); eexists; (split; [|reflexivity]); tauto. }
    cbn [run] in Hin. destruct (gameStart_ok g); cbn [negb] in Hin;
      [|apply Hhere, Hin].
    destruct (play_adds_moves (moves g) (begin g w)) as (n1 & Hn1 & Hg1 & _).
    pose proof (play_m_option (moves g) (begin g w)) as Hopt1.
    assert (Hplayed : In (Game_new network option)
                         (actions (worker_of (play (moves g) (begin g w)))) ->
                      In (Game_new network option) (actions (begin g w))).
    { rewrite Hn1, in_app_iff. intros [H|H]; [exact H|].
      destruct (In_Game_new_moves network option n1 Hg1 H). }
    destruct (play (moves g) (begin g w)) as [w1|w1|w1];
      cbn [worker_of ran_worker] in *; try (apply Hhere, Hplayed, Hin).
    destruct (conclude_adds g w1) as (n2 & Hn2 & Hg2 & _).
    assert (Hconcluded : In (Game_new network option) (actions (conclude g w1)) ->
                         In (Game_new network option) (actions w1)).
    { rewrite Hn2, in_app_iff. intros [H|H]; [exact H|].
      destruct (In_Game_new_moves network option n2 Hg2 H). }
    destruct (RunState_eqb (m_state (conclude g w1)) FINISHING).
    + apply Hhere, Hplayed, Hconcluded, Hin.
    + destruct (IH (conclude g w1) network option Hin) as [H|(r & Hr & Hoption)].
      * apply Hhere, Hplayed, Hconcluded, H.
      * right. exists r. split; [exact Hr|].
        rewrite Hoption, conclude_m_option, Hopt1. reflexivity.
Qed.

(** X5: the option string of every game.  Whatever happens during a
    run of a Worker set up by [init], each [Game] it creates gets the
    options " -r 0" or " -r 5", then " --gpu=<index> " when a GPU index
    was given, then " -g -q -d -n -m 30 -w ": the string always ends with
    "-w ", where the network is to be appended. *)
Theorem run_game_options (games : list game_reply)
  (gpuIndex net network option : string) (movesMade0 : Z) :
  In (Game_new network option)
     (actions (ran_worker (run games (init gpuIndex net movesMade0)))) ->
  exists resignpct gpu : string,
    (resignpct = "0" \/ resignpct = "5")
    /\ (gpu = if String.eqb gpuIndex EmptyString then EmptyString
              else " --gpu=" +:+ gpuIndex +:+ " ")
    /\ option = " -r " +:+ resignpct +:+ gpu +:+ " -g -q -d -n -m 30 -w ".
Proof.
  intros Hin.
  destruct (run_Game_new games _ network option Hin) as [[]|(r & Hr & ->)].
  exists r. eexists. split; [exact Hr|]. split; [reflexivity|].
  unfold init. cbn [m_option].
  destruct (String.eqb gpuIndex EmptyString); reflexivity.
Qed.

(** The theorem at a Worker on GPU 1 that plays the won game. *)
Lemma run_game_options_witness :
  let w := init "1" "net0" 0 in
  In (Game_new "net0" " -r 0 --gpu=1  -g -q -d -n -m 30 -w ")
     (actions (ran_worker (run [Scenario.game_won] w)))
  /\ exists resignpct gpu : string,
       " -r 0 --gpu=1  -g -q -d -n -m 30 -w "
       = " -r " +:+ resignpct +:+ gpu +:+ " -g -q -d -n -m 30 -w ".
Proof.
  intros w.
  assert (Hin : In (Game_new "net0" " -r 0 --gpu=1  -g -q -d -n -m 30 -w ")
                   (actions (ran_worker (run [Scenario.game_won] w))))
    by (vm_compute; tauto).
  split; [exact Hin|].
  destruct (run_game_options [Scenario.game_won] "1" "net0" "net0" _ 0 Hin)
    as (r & gpu & _ & _ & Hoption).
  exists r, gpu. exact Hoption.
Defined.

(** X6: a Worker that finds its state FINISHING when a game is over
    tears the engine down and leaves the loop: it emits no [resultReady]
    for that game, and whatever games could follow, none is begun. *)
Theorem run_FINISHING_stops
  (g : game_reply) (rest : list game_reply) (w w1 : worker) :
  gameStart_ok g = true ->
  play (moves g) (begin g w) = Ended w1 ->
  m_state w1 = FINISHING ->
  run (g :: rest) w = Finished (conclude g w1)
  /\ actions (conclude g w1)
     = actions w1 ++ [print "Program ends: exiting.";
                      print "Stopping engine."; gameQuit]
  /\ exists new : list action,
       actions (conclude g w1) = actions w ++ new
       /\ notifications new = []
       /\ occurrences is_Game_new new = 1%nat.
Proof.
  intros Hstart Hplay Hst.
  assert (Hconclude : conclude g w1
            = perform gameQuit
                (perform (print "Stopping engine.")
                   (perform (print "Program ends: exiting.") w1)))
    by (unfold conclude; rewrite Hst; reflexivity).
  destruct (play_adds_moves (moves g) (begin g w)) as (n1 & Hn1 & Hg1 & _ & Hq1).
  rewrite Hplay in Hn1. cbn [worker_of] in Hn1.
  split; [|split].
  - rewrite (WorkerFacts.run_step g rest w w1 Hstart Hplay), Hconclude.
    cbn. rewrite Hst. reflexivity.
  - rewrite Hconclude. cbn. rewrite <- !app_assoc. reflexivity.
  - eexists. split; [|split].
    + rewrite Hconclude. cbn. rewrite Hn1, WorkerFacts.begin_actions,
        <- !app_assoc. reflexivity.
    + rewrite !WorkerFacts.notifications_app, Hq1. reflexivity.
    + rewrite !occurrences_app, Hg1. reflexivity.
Qed.

(** The theorem at the game during which FINISHING is set: the won game
    that follows in the script is not begun. *)
Lemma run_FINISHING_stops_witness :
  let g := Scenario.game_finishing in
  let w1 := worker_of (play (moves g) (begin g Scenario.w0)) in
  gameStart_ok g = true
  /\ play (moves g) (begin g Scenario.w0) = Ended w1
  /\ m_state w1 = FINISHING
  /\ run [g; Scenario.game_won] Scenario.w0 = Finished (conclude g w1).
Proof.
  intros g w1.
  assert (H1 : play (moves g) (begin g Scenario.w0) = Ended w1)
    by (vm_compute; reflexivity).
  split; [reflexivity|]. split; [exact H1|]. split; [reflexivity|].
  apply (run_FINISHING_stops g [Scenario.game_won] Scenario.w0 w1 eq_refl H1
           eq_refl).
Defined.

(** X7: the cost of one's own broadcast.  The slot connected to
    [resultReady] runs inside the [emit]; when it broadcasts a new
    network, the Worker that reported the result is told too.  It then
    begins its next game on the new network, gives it up after the first
    move, whatever the engine says about a next move, emits nothing for
    it, and is RUNNING on the new network for the game after. *)
Theorem run_after_own_broadcast
  (g g' : game_reply) (rest : list game_reply) (w w1 : worker)
  (net : string) (r : move_reply) (rs : list move_reply) :
  gameStart_ok g = true ->
  play (moves g) (begin g w) = Ended w1 ->
  m_state w1 = RUNNING ->
  in_handler g = Some (sig_newNetwork net) ->
  gameStart_ok g' = true ->
  moves g' = r :: rs ->
  waitForMove_ok r = true ->
  meanwhile r = None ->
  exists w3 : worker,
    run (g :: g' :: rest) w = run rest w3
    /\ m_state w3 = RUNNING
    /\ m_network w3 = net
    /\ actions w3
       = actions (conclude g w1)
         ++ [print ("option=" +:+ game_option g' w1);
             Game_new net (game_option g' w1); gameStart;
             move; waitForMove; readMove; nextMove;
             print "Best Network has changed: restarting.";
             print "Stopping engine."; gameQuit].
Proof.
  intros Hstart Hplay Hst Hhandler Hstart' Hmoves Hwait Hquiet.
  set (w2 := conclude g w1).
  assert (Hw2 : m_state w2 = NET_CHANGE /\ m_network w2 = net
                /\ m_option w2 = m_option w1).
  { subst w2. unfold conclude. rewrite Hst, Hhandler.
    destruct (getScore_ok g); repeat split; reflexivity. }
  destruct Hw2 as (Hst2 & Hnet2 & Hopt2).
  assert (Hplay' : play (moves g') (begin g' w2) = Ended (after_move r (begin g' w2))).
  { rewrite Hmoves, play_cons, Hwait. cbn [negb].
    destruct (after_move_quiet r (begin g' w2) Hquiet) as (-> & _).
    cbn [begin perform m_state]. rewrite Hst2. cbn [RunState_eqb].
    rewrite andb_false_r. reflexivity. }
  assert (Hst3 : m_state (after_move r (begin g' w2)) = NET_CHANGE).
  { destruct (after_move_quiet r (begin g' w2) Hquiet) as (-> & _).
    exact Hst2. }
  exists (conclude g' (after_move r (begin g' w2))).
  rewrite (WorkerFacts.conclude_NET_CHANGE g' _ Hst3).
  split; [|split; [reflexivity|split]].
  - rewrite (WorkerFacts.run_step g (g' :: rest) w w1 Hstart Hplay).
    fold w2. rewrite Hst2. cbn [RunState_eqb].
    rewrite (WorkerFacts.run_step g' rest w2 _ Hstart' Hplay').
    rewrite (WorkerFacts.conclude_NET_CHANGE g' _ Hst3). reflexivity.
  - cbn [m_network]. destruct (after_move_quiet r (begin g' w2) Hquiet) as (_ & ->).
    exact Hnet2.
  - cbn [actions]. rewrite after_move_actions, WorkerFacts.begin_actions.
    unfold game_option. rewrite Hnet2, Hopt2, <- !app_assoc. reflexivity.
Qed.

(** The theorem at the game whose result makes the Coordinator
    broadcast "net2", followed by the won game. *)
Lemma run_after_own_broadcast_witness :
  let g := Scenario.game_changing in
  let w1 := worker_of (play (moves g) (begin g Scenario.w0)) in
  play (moves g) (begin g Scenario.w0) = Ended w1
  /\ m_state w1 = RUNNING
  /\ in_handler g = Some (sig_newNetwork "net2")
  /\ exists w3 : worker,
       run [g; Scenario.game_won] Scenario.w0 = Running w3
       /\ m_network w3 = "net2"
       /\ notifications (actions w3) = [resultReady "g6" 9].
Proof.
  intros g w1.
  assert (H1 : play (moves g) (begin g Scenario.w0) = Ended w1)
    by (vm_compute; reflexivity).
  split; [exact H1|]. split; [reflexivity|]. split; [reflexivity|].
  destruct (run_after_own_broadcast g Scenario.game_won [] Scenario.w0 w1
              "net2" (mkMove true true None)
              [mkMove true true None; mkMove true false None]
              eq_refl H1 eq_refl eq_refl eq_refl eq_refl eq_refl eq_refl)
    as (w3 & Hrun & _ & Hnet & Hact).
  exists w3. split; [exact Hrun|]. split; [exact Hnet|].
  rewrite Hact. vm_compute. reflexivity.
Defined.

End WorkerMore.

(** * More about the Coordinator *)

Module ProductionMore.

Import Production.
Import ProductionFacts.
Local Open Scope production_scope.

#[local] Hint Resolve adds_only_ret adds_only_get adds_only_throw
  adds_only_exit adds_only_set_network adds_only_file_exists
  adds_only_print adds_only_remove adds_only_copy : adds.
#[local] Hint Resolve safe_ret safe_get safe_throw safe_exit safe_print
  safe_sleep safe_set_network safe_file_exists safe_copy safe_exec
  safe_remove : safe.

(** ** Strings *)

Lemma append_nil (s : string) : EmptyString +:+ s = s.
Proof. reflexivity. Qed.

Lemma append_cons (c : ascii) (s t : string) :
  String c s +:+ t = String c (s +:+ t).
Proof. reflexivity. Qed.

Lemma length_append (s t : string) :
  String.length (s +:+ t) = (String.length s + String.length t)%nat.
Proof.
  induction s as [|c rest IH]; [reflexivity|].
  rewrite append_cons. cbn [String.length]. rewrite IH. reflexivity.
Qed.

Lemma QString_split_length (sep : ascii) (s : string) :
  length (QString_split sep s) = S (QString_count sep s).
Proof.
  induction s as [|c rest IH]; [reflexivity|].
  cbn [QString_split QString_count]. destruct (Ascii.eqb c sep).
  - cbn. rewrite IH. reflexivity.
  - destruct (QString_split sep rest) as [|part parts]; [discriminate IH|].
    cbn in *. exact IH.
Qed.

Lemma QString_split_whole (sep : ascii) (s : string) :
  QString_count sep s = 0%nat -> QString_split sep s = [s].
Proof.
  induction s as [|c rest IH]; [reflexivity|].
  cbn [QString_split QString_count]. destruct (Ascii.eqb c sep); [discriminate|].
  intros H. rewrite (IH H). reflexivity.
Qed.

Lemma QString_split_first (sep : ascii) (a b : string) :
  QString_count sep a = 0%nat ->
  QString_split sep (a +:+ String sep b) = a :: QString_split sep b.
Proof.
  induction a as [|c rest IH]; intros H.
  - rewrite append_nil. cbn [QString_split].
    rewrite Ascii.eqb_refl. reflexivity.
  - cbn [QString_count] in H. rewrite append_cons. cbn [QString_split].
    destruct (Ascii.eqb c sep); [discriminate|].
    rewrite (IH H). reflexivity.
Qed.

Lemma QString_chop_app (s t : string) :
  QString_chop (String.length t) (s +:+ t) = s.
Proof.
  unfold QString_chop.
  replace (String.length (s +:+ t) - String.length t)%nat with (String.length s)
    by (rewrite length_append; lia).
  induction s as [|c rest IH].
  - rewrite append_nil. destruct t; reflexivity.
  - rewrite append_cons. cbn [String.length String.substring].
    rewrite IH. reflexivity.
Qed.

(** ** The hash request *)

Lemma commands_app (l1 l2 : list event) :
  commands (l1 ++ l2) = commands l1 ++ commands l2.
Proof. unfold commands. apply flat_map_app. Qed.

Lemma removals_app (l1 l2 : list event) :
  removals (l1 ++ l2) = removals l1 ++ removals l2.
Proof. unfold removals. apply flat_map_app. Qed.

(** X8: which replies to the hash request are refused.  A
    [NetworkException] leaves [fetchBestNetworkHash] exactly when curl's
    exit code is not zero or its output does not hold exactly one line
    feed; a reply that ends with a line feed after the version is among
    the refused ones.  The active network is then what it was. *)
Theorem fetchBestNetworkHash_throws_iff (E : environment) (s : production) :
  let r := QProcess_run E (spawned s) best_network_hash_cmdline (disk s) in
  ((exists (what : string) (s' : production),
      fetchBestNetworkHash E s = Throw what s')
   <-> exitCode r <> 0 \/ QString_count newline (standardOutput r) <> 1%nat)
  /\ (forall (what : string) (s' : production),
        fetchBestNetworkHash E s = Throw what s' ->
        m_network s' = m_network s
        /\ disk s' = disk_after r
        /\ commands (events s')
           = commands (events s) ++ [best_network_hash_cmdline]).
Proof.
  intros r.
  unfold fetchBestNetworkHash, read_best_network_hash. steps. fold r. fields.
  rewrite (QString_split_length newline (standardOutput r)).
  change (S (QString_count newline (standardOutput r)) =? 2)%nat
    with (QString_count newline (standardOutput r) =? 1)%nat.
  destruct (Z.eqb_spec (exitCode r) 0) as [Hexit|Hexit]; cbn [negb].
  - destruct (Nat.eqb_spec (QString_count newline (standardOutput r)) 1)
      as [Hcount|Hcount]; cbn [negb].
    + fields.
      destruct (_ <? _); [|destruct (String.eqb _ _)];
        (split; [split; [intros (what & s' & H); discriminate H
                        |intros [H|H]; contradiction]
                |intros what s' H; discriminate H]).
    + split.
      * split; [intros _; right; exact Hcount|intros _; eexists _, _; reflexivity].
      * intros what s' H. injection H as _ <-. fields.
        rewrite !commands_app. cbn. rewrite app_nil_r. auto.
  - split.
    + split; [intros _; left; exact Hexit|intros _; eexists _, _; reflexivity].
    + intros what s' H. injection H as _ <-. fields.
      rewrite !commands_app. auto.
Qed.

(** The theorem at a server whose reply ends with a line feed. *)
Lemma fetchBestNetworkHash_throws_iff_witness :
  let E := Scenario.server INT_MIN 0
             (Scenario.two_lines "abc" (String newline EmptyString)) 0
             "abc.gz" (Scenario.good "abc") 0 in
  let s := Scenario.coordinator "old" ∅ in
  let r := QProcess_run E (spawned s) best_network_hash_cmdline (disk s) in
  QString_count newline (standardOutput r) = 2%nat
  /\ exists (what : string) (s' : production),
       fetchBestNetworkHash E s = Throw what s'.
Proof.
  intros E s r. split; [reflexivity|].
  apply (proj1 (fetchBestNetworkHash_throws_iff E s)).
  right. vm_compute. discriminate.
Defined.

(** The reply behind a return of [fetchBestNetworkHash]. *)
Lemma fetchBestNetworkHash_reply (E : environment) (s s' : production)
  (new_network : bool) :
  fetchBestNetworkHash E s = Return new_network s' ->
  let r := QProcess_run E (spawned s) best_network_hash_cmdline (disk s) in
  exitCode r = 0
  /\ (exists version : string,
        QString_split newline (standardOutput r) = [m_network s'; version]
        /\ QString_toInt E version <= m_version s)
  /\ (new_network = true <-> m_network s' = m_network s)
  /\ m_version s' = m_version s
  /\ disk s' = disk_after r.
Proof.
  intros H r. revert H.
  unfold fetchBestNetworkHash, read_best_network_hash. steps. fold r. fields.
  destruct (Z.eqb_spec (exitCode r) 0) as [Hexit|Hexit]; cbn [negb];
    [|discriminate].
  destruct (QString_split newline (standardOutput r))
    as [|outhash [|version [|third rest]]]; cbn [length Nat.eqb negb nth];
    try discriminate.
  fields.
  destruct (Z.ltb_spec (m_version s) (QString_toInt E version)) as [Hv|Hv];
    [discriminate|].
  fields.
  destruct (String.eqb_spec outhash (m_network s)) as [Hsame|Hnew];
    intros H; injection H as <- <-; fields.
  - split; [exact Hexit|]. split; [exists version; subst outhash; auto|].
    repeat split; reflexivity.
  - split; [exact Hexit|]. split; [exists version; auto|].
    split; [split; [discriminate|intros H; destruct (Hnew H)]|].
    split; reflexivity.
Qed.

(** X9: what a return of [fetchBestNetworkHash] tells.  If the function
    returns, curl ended with exit code 0, its output was two lines, the
    first of which is the active network from now on, the second a
    version that is not above the client's; and the value returned is
    true exactly when the active network is the one it was. *)
Theorem fetchBestNetworkHash_returns (E : environment) (s s' : production)
  (new_network : bool) :
  fetchBestNetworkHash E s = Return new_network s' ->
  let r := QProcess_run E (spawned s) best_network_hash_cmdline (disk s) in
  exitCode r = 0
  /\ (exists version : string,
        QString_split newline (standardOutput r) = [m_network s'; version]
        /\ QString_toInt E version <= m_version s)
  /\ (new_network = true <-> m_network s' = m_network s)
  /\ m_version s' = m_version s
  /\ disk s' = disk_after r.
Proof. apply fetchBestNetworkHash_reply. Qed.

(** The theorem at a server that announces "abc" to a client holding
    "old". *)
Lemma fetchBestNetworkHash_returns_witness :
  let E := Scenario.E_same_hash in
  let s := Scenario.coordinator "old" ∅ in
  let s' := state_of (fetchBestNetworkHash E s) in
  fetchBestNetworkHash E s = Return false s'
  /\ m_network s' = "abc"
  /\ (false = true <-> m_network s' = m_network s).
Proof.
  intros E s s'.
  assert (H : fetchBestNetworkHash E s = Return false s')
    by (vm_compute; reflexivity).
  split; [exact H|]. split; [reflexivity|].
  exact (proj1 (proj2 (proj2 (fetchBestNetworkHash_returns E s s' false H)))).
Defined.

(** X10: the version gate.  When the server requires a client version
    above the client's, the refresh ends the process in its first pass:
    after the one hash request nothing is run, nothing is downloaded or
    removed, there is no retry and no sleep, and the active network is
    what it was. *)
Theorem updateNetwork_version_gate (E : environment) (s : production)
  (outhash version : string) :
  let r := QProcess_run E (spawned s) best_network_hash_cmdline (disk s) in
  exitCode r = 0 ->
  QString_split newline (standardOutput r) = [outhash; version] ->
  m_version s < QString_toInt E version ->
  exists s' : production,
    updateNetwork E s = Exit s'
    /\ m_network s' = m_network s
    /\ disk s' = disk_after r
    /\ events s'
       = events s
         ++ [Exec best_network_hash_cmdline;
             Print ("Best network hash: " +:+ outhash);
             Print ("Required client version: " +:+ version);
             Print " ";
             Print ("Server requires client version "
                    +:+ pretty (QString_toInt E version)
                    +:+ " but we are version " +:+ pretty (m_version s));
             Print "Check https://github.com/gcp/leela-zero for updates."].
Proof.
  intros r Hexit Hsplit Hver.
  unfold updateNetwork. change MAX_RETRIES with (S 95). cbn [updateNetwork_from].
  unfold try_catch, attempt. unfold bind at 1.
  unfold fetchBestNetworkHash, read_best_network_hash. steps. fold r. fields.
  rewrite Hexit, Hsplit. cbn [Z.eqb negb length Nat.eqb nth]. fields.
  destruct (Z.ltb_spec (m_version s) (QString_toInt E version)); [|lia].
  eexists. split; [reflexivity|]. fields.
  rewrite <- !app_assoc. repeat split; reflexivity.
Qed.

(** The theorem at a server that requires version 2 of a client of
    version 1. *)
Lemma updateNetwork_version_gate_witness :
  let E := Scenario.server INT_MIN 0 (Scenario.two_lines "abc" "2") 0
             "abc.gz" (Scenario.good "abc") 0 in
  let s := Scenario.coordinator "old" ∅ in
  let r := QProcess_run E (spawned s) best_network_hash_cmdline (disk s) in
  exitCode r = 0
  /\ QString_split newline (standardOutput r) = ["abc"; "2"]
  /\ m_version s < QString_toInt E "2"
  /\ exists s' : production,
       updateNetwork E s = Exit s' /\ m_network s' = "old".
Proof.
  intros E s r.
  split; [reflexivity|]. split; [reflexivity|]. split; [reflexivity|].
  destruct (updateNetwork_version_gate E s "abc" "2" eq_refl eq_refl eq_refl)
    as (s' & Hexit & Hnet & _).
  exists s'. split; [exact Hexit|exact Hnet].
Defined.

(** ** Verification of the network file, again *)

Lemma network_verified_spec (s : production) :
  network_verified s = true
  <-> exists f : file,
        QFile_at (m_network s) (disk s) = Some f
        /\ content f = Readable (m_network s).
Proof.
  unfold network_verified. split.
  - destruct (QFile_at (m_network s) (disk s)) as [f|]; [|discriminate].
    destruct (content f) as [h| |] eqn:Hc; try discriminate.
    intros H. apply String.eqb_eq in H. subst h. exists f. auto.
  - intros (f & -> & ->). apply String.eqb_refl.
Qed.

Lemma network_verified_ext (s s' : production) :
  m_network s' = m_network s -> disk s' = disk s ->
  network_verified s' = network_verified s.
Proof. intros Hn Hd. unfold network_verified. rewrite Hn, Hd. reflexivity. Qed.

Lemma QFile_at_removed (name : string) (d : gmap string file) :
  QFile_at name (delete name d) = None.
Proof. apply QFile_at_None, lookup_delete_eq. Qed.

(** The answers of [networkExists], path by path. *)
Lemma networkExists_answers (s : production) :
  match QFile_at (m_network s) (disk s) with
  | None => networkExists s = Return false s
  | Some f =>
      match content f with
      | Readable h =>
          if String.eqb h (m_network s) then networkExists s = Return true s
          else networkExists s =
                 Return false
                   (with_disk (QFile_remove (m_network s) (disk s)).1
                      (emit (Remove (m_network s))
                         (emit (Print "Downloaded network hash doesn't match.")
                               s)))
      | ReadFails =>
          networkExists s = Exit (emit (Print "Reading network file failed.") s)
      | NoOpen =>
          if removable f then
            networkExists s =
              Return false
                (with_disk (delete (m_network s) (disk s))
                   (emit (Remove (m_network s))
                      (emit (Print "Unable to open network file for reading.")
                            s)))
          else
            networkExists s =
              Exit (emit (Print
                            "Unable to delete the network file. Check permissions.")
                      (emit (Remove (m_network s))
                         (emit (Print "Unable to open network file for reading.")
                               s)))
      end
  end.
Proof.
  destruct (QFile_at (m_network s) (disk s)) as [f|] eqn:Hat.
  - pose proof (QFile_at_Some _ _ _ Hat) as Hlook.
    destruct (content f) as [h| |] eqn:Hc.
    + destruct (String.eqb_spec h (m_network s)) as [->|Hne].
      * apply (networkExists_verified s f Hat Hc).
      * apply (networkExists_rejects s f h Hat Hc Hne).
    + unfold networkExists. steps. rewrite Hat, Hc. reflexivity.
    + unfold networkExists. steps. rewrite Hat, Hc. fields.
      destruct (removable f) eqn:Hr.
      * rewrite (QFile_remove_removable _ _ _ Hlook Hr). reflexivity.
      * rewrite (QFile_remove_refused _ _ _ Hlook Hr). fields.
        reflexivity.
  - unfold networkExists. steps. rewrite Hat. reflexivity.
Qed.

Lemma networkExists_true (s s' : production) :
  networkExists s = Return true s' -> s' = s /\ network_verified s = true.
Proof.
  pose proof (networkExists_answers s) as H. unfold network_verified.
  destruct (QFile_at (m_network s) (disk s)) as [f|].
  - destruct (content f) as [h| |].
    + destruct (String.eqb h (m_network s)); rewrite H; intros H';
        [injection H' as <-; auto|discriminate].
    + rewrite H. discriminate.
    + destruct (removable f); rewrite H; discriminate.
  - rewrite H. discriminate.
Qed.

Lemma networkExists_never_throws : never_throws networkExists.
Proof.
  intros s what s'. pose proof (networkExists_answers s) as H.
  destruct (QFile_at (m_network s) (disk s)) as [f|].
  - destruct (content f) as [h| |].
    + destruct (String.eqb h (m_network s)); rewrite H; discriminate.
    + rewrite H. discriminate.
    + destruct (removable f); rewrite H; discriminate.
  - rewrite H. discriminate.
Qed.


(** X11: the only true answer.  [networkExists] returns true exactly
    when the file named by the active network is there, opens, reads and
    has the name of the network as its digest; it has then printed
    nothing, removed nothing and changed nothing. *)
Theorem networkExists_true_iff (s s' : production) :
  networkExists s = Return true s' <-> s' = s /\ network_verified s = true.
Proof.
  split; [apply networkExists_true|].
  intros [-> Hv]. apply network_verified_spec in Hv as (f & Hat & Hc).
  apply (networkExists_verified s f Hat Hc).
Qed.

(** X12: when verification ends the process.  [networkExists] calls
    [exit] exactly when the file is there and either opens but cannot be
    read, or neither opens nor lets itself be removed.  The file is then
    still in the working directory; and no exception ever leaves the
    function. *)
Theorem networkExists_exits_iff (s : production) :
  ((exists s' : production, networkExists s = Exit s')
   <-> exists f : file,
         QFile_at (m_network s) (disk s) = Some f
         /\ (content f = ReadFails
             \/ content f = NoOpen /\ removable f = false))
  /\ (forall s' : production,
        networkExists s = Exit s' ->
        disk s' = disk s /\ m_network s' = m_network s)
  /\ (forall (what : string) (s' : production),
        networkExists s <> Throw what s').
Proof.
  split; [|split; [|apply networkExists_never_throws]].
  - pose proof (networkExists_answers s) as H.
    destruct (QFile_at (m_network s) (disk s)) as [f|].
    + destruct (content f) as [h| |] eqn:Hc.
      * split.
        -- intros (s' & Hexit). revert Hexit.
           destruct (String.eqb h (m_network s)); rewrite H; discriminate.
        -- intros (f' & Hf' & [Hbad|[Hbad _]]); injection Hf' as <-;
             congruence.
      * split; [intros _; exists f; auto|intros _; eexists; exact H].
      * destruct (removable f) eqn:Hr.
        -- split; [intros (s' & Hexit); rewrite H in Hexit; discriminate|].
           intros (f' & Hf' & [Hbad|[_ Hbad]]); injection Hf' as <-;
             congruence.
        -- split; [intros _; exists f; auto|intros _; eexists; exact H].
    + split; [intros (s' & Hexit); rewrite H in Hexit; discriminate|].
      intros (f' & Hf' & _). discriminate.
  - intros s' Hexit. pose proof (networkExists_answers s) as H.
    destruct (QFile_at (m_network s) (disk s)) as [f|].
    + destruct (content f) as [h| |].
      * destruct (String.eqb h (m_network s)); rewrite H in Hexit; discriminate.
      * rewrite H in Hexit. injection Hexit as <-. auto.
      * destruct (removable f); rewrite H in Hexit; [discriminate|].
        injection Hexit as <-. auto.
    + rewrite H in Hexit. discriminate.
Qed.

(** The theorem at a network file that neither opens nor lets itself be
    removed. *)
Lemma networkExists_exits_iff_witness :
  let s := Scenario.coordinator "abc" (<["abc" := mkFile NoOpen false]> ∅) in
  QFile_at (m_network s) (disk s) = Some (mkFile NoOpen false)
  /\ exists s' : production, networkExists s = Exit s'.
Proof.
  intros s. split; [reflexivity|].
  apply (proj1 (networkExists_exits_iff s)).
  exists (mkFile NoOpen false). split; [reflexivity|]. right. auto.
Defined.

(** X13: after a false answer.  When [networkExists] returns false the
    active network is the same and is not verified; and a file of its
    name can still be there only as a readable file with another digest
    that the file system did not let go, in a working directory that has
    not changed. *)
Theorem networkExists_false (s s' : production) :
  networkExists s = Return false s' ->
  m_network s' = m_network s
  /\ network_verified s' = false
  /\ (QFileInfo_exists (m_network s) (disk s') = true ->
      disk s' = disk s
      /\ exists (f : file) (h : string),
           QFile_at (m_network s) (disk s) = Some f
           /\ content f = Readable h
           /\ h <> m_network s
           /\ removable f = false).
Proof.
  pose proof (networkExists_answers s) as H. unfold network_verified, QFileInfo_exists.
  destruct (QFile_at (m_network s) (disk s)) as [f|] eqn:Hat.
  - pose proof (QFile_at_Some _ _ _ Hat) as Hlook.
    destruct (content f) as [h| |] eqn:Hc.
    + destruct (String.eqb_spec h (m_network s)) as [->|Hne]; rewrite H;
        [discriminate|].
      intros H'. injection H' as <-. fields.
      destruct (removable f) eqn:Hr.
      * rewrite (QFile_remove_removable _ _ _ Hlook Hr). cbn [fst].
        rewrite QFile_at_removed. repeat split; discriminate.
      * rewrite (QFile_remove_refused _ _ _ Hlook Hr). cbn [fst].
        rewrite Hat, Hc. apply String.eqb_neq in Hne as Hne'. rewrite Hne'.
        repeat split. exists f, h. auto.
    + rewrite H. discriminate.
    + destruct (removable f); rewrite H; [|discriminate].
      intros H'. injection H' as <-. fields.
      rewrite QFile_at_removed. repeat split; discriminate.
  - rewrite H. intros H'. injection H' as <-. rewrite Hat.
    repeat split; discriminate.
Qed.

(** The theorem at a network file that does not open and is removed. *)
Lemma networkExists_false_witness :
  let s := Scenario.coordinator "abc" (<["abc" := mkFile NoOpen true]> ∅) in
  let s' := state_of (networkExists s) in
  networkExists s = Return false s'
  /\ network_verified s' = false
  /\ disk s' = ∅.
Proof.
  intros s s'.
  assert (H : networkExists s = Return false s') by (vm_compute; reflexivity).
  split; [exact H|].
  split; [exact (proj1 (proj2 (networkExists_false s s' H)))|].
  vm_compute. reflexivity.
Defined.

(** ** The refresh *)

Lemma fetchBestNetwork_verified (E : environment) (s s' : production) :
  fetchBestNetwork E s = Return tt s' -> network_verified s' = true.
Proof.
  unfold fetchBestNetwork. unfold bind at 1.
  destruct (networkExists s) as [present s1| | |] eqn:Hfirst; try discriminate.
  destruct present.
  - apply networkExists_true in Hfirst as [-> Hv].
    intros H. injection H as <-. exact Hv.
  - unfold bind at 1.
    destruct (download E s1) as [[] s2| | |]; try discriminate.
    unfold bind at 1.
    destruct (networkExists s2) as [verified s3| | |] eqn:Hsecond;
      try discriminate.
    destruct verified; [|discriminate].
    apply networkExists_true in Hsecond as [-> Hv].
    intros H. injection H as <-. exact Hv.
Qed.

Lemma attempt_verified (E : environment) (s s' : production) (b : bool) :
  attempt E s = Return b s' -> network_verified s' = true.
Proof.
  unfold attempt. unfold bind at 1.
  destruct (fetchBestNetworkHash E s) as [new_network s1| | |];
    try discriminate.
  unfold bind at 1.
  destruct (fetchBestNetwork E s1) as [[] s2| | |] eqn:Hfetch; try discriminate.
  intros H. injection H as _ <-.
  apply (fetchBestNetwork_verified E s1 s2 Hfetch).
Qed.

Lemma updateNetwork_from_verified (E : environment) (remaining : nat) :
  forall (retries : nat) (s s' : production) (b : bool),
    updateNetwork_from E remaining retries s = Return b s' ->
    network_verified s' = true.
Proof.
  induction remaining as [|remaining IH]; intros retries s s' b.
  - cbn [updateNetwork_from]. steps. discriminate.
  - destruct (attempt E s) as [a s1|what s1|s1|s1] eqn:Hattempt.
    + rewrite (updateNetwork_from_returns E remaining retries s s1 a Hattempt).
      intros H. injection H as _ <-.
      apply (attempt_verified E s s1 a Hattempt).
    + rewrite (updateNetwork_from_retries E remaining retries s s1 what
                 Hattempt).
      apply IH.
    + cbn [updateNetwork_from]. unfold try_catch. rewrite Hattempt.
      discriminate.
    + cbn [updateNetwork_from]. unfold try_catch. rewrite Hattempt.
      discriminate.
Qed.

(** X14: what a return of the refresh guarantees.  Whenever
    [fetchBestNetwork] or [updateNetwork] returns, whatever the server,
    curl and the file system did on the way and however many passes it
    took, the file named by the active network is in the working
    directory and has the name of the network as its digest. *)
Theorem updateNetwork_returns_verified (E : environment) (s s' : production) :
  (fetchBestNetwork E s = Return tt s' -> network_verified s' = true)
  /\ (forall unchanged : bool,
        updateNetwork E s = Return unchanged s' -> network_verified s' = true).
Proof.
  split; [apply fetchBestNetwork_verified|].
  intros unchanged. apply updateNetwork_from_verified.
Qed.

(** The theorem at a refresh that downloads network "abc". *)
Lemma updateNetwork_returns_verified_witness :
  let E := Scenario.E_same_hash in
  let s := Scenario.coordinator "old" ∅ in
  let s' := state_of (updateNetwork E s) in
  updateNetwork E s = Return false s'
  /\ network_verified s' = true
  /\ m_network s' = "abc".
Proof.
  intros E s s'.
  assert (H : updateNetwork E s = Return false s') by (vm_compute; reflexivity).
  split; [exact H|].
  split; [exact (proj2 (updateNetwork_returns_verified E s s') false H)|].
  reflexivity.
Defined.

(** *** Exceptions stay inside *)

Lemma never_throws_bind {A B} (c : computation A) (k : A -> computation B) :
  never_throws c -> (forall a, never_throws (k a)) -> never_throws (bind c k).
Proof.
  intros Hc Hk s what s'. unfold bind.
  destruct (c s) as [a s1|what1 s1|s1|s1] eqn:Hcs; try discriminate.
  - apply Hk.
  - destruct (Hc s what1 s1 Hcs).
Qed.

Lemma updateNetwork_from_never_throws (E : environment) (remaining : nat) :
  forall retries : nat, never_throws (updateNetwork_from E remaining retries).
Proof.
  induction remaining as [|remaining IH]; intros retries s what s'.
  - cbn [updateNetwork_from]. steps. discriminate.
  - destruct (attempt E s) as [a s1|what1 s1|s1|s1] eqn:Hattempt.
    + rewrite (updateNetwork_from_returns E remaining retries s s1 a Hattempt).
      discriminate.
    + rewrite (updateNetwork_from_retries E remaining retries s s1 what1
                 Hattempt).
      apply IH.
    + cbn [updateNetwork_from]. unfold try_catch. rewrite Hattempt.
      discriminate.
    + cbn [updateNetwork_from]. unfold try_catch. rewrite Hattempt.
      discriminate.
Qed.

Lemma uploadData_returns (E : environment) (file : string) (s : production) :
  exists s' : production, uploadData E file s = Return tt s'.
Proof.
  unfold uploadData. unfold bind, get.
  apply for_each_returns. intros x s0. apply upload_entry_returns.
Qed.

Lemma printTimingInfo_never_throws (E : environment) (total_time_s : Z)
  (duration : Q) : never_throws (printTimingInfo E total_time_s duration).
Proof.
  intros s what s'. unfold printTimingInfo, int_div. steps.
  destruct ((m_movesMade s =? 0) || (m_gamesPlayed s =? 0)); [discriminate|].
  destruct (m_gamesPlayed s =? 0); [discriminate|].
  destruct (m_movesMade s =? 0); discriminate.
Qed.

(** X15: no exception escapes.  The [NetworkException]s thrown by
    [fetchBestNetworkHash] and [fetchBestNetwork] are all caught in
    [updateNetwork], and nothing else in [getResult] throws: neither
    function ever ends in an exception, whatever the environment does. *)
Theorem getResult_never_throws (E : environment) :
  never_throws (updateNetwork E)
  /\ forall (total_time_s : Z) (file : string) (duration : Q),
       never_throws (getResult E total_time_s file duration).
Proof.
  split; [apply updateNetwork_from_never_throws|].
  intros total_time_s file duration. unfold getResult.
  apply never_throws_bind; [intros s what s'; discriminate|]. intros _.
  apply never_throws_bind; [apply printTimingInfo_never_throws|]. intros _.
  apply never_throws_bind.
  { intros s what s'. destruct (uploadData_returns E file s) as (s1 & ->).
    discriminate. }
  intros _.
  apply never_throws_bind; [apply updateNetwork_from_never_throws|].
  intros unchanged s what s'. destruct (negb unchanged); discriminate.
Qed.

(** *** The passes of one refresh *)

(** No pass of the loop prints the line of giving up. *)
Lemma attempt_not_giving_up (E : environment) :
  adds_only (fun e => negb (is_giving_up e)) (attempt E).
Proof.
  unfold attempt, fetchBestNetworkHash, read_best_network_hash,
    fetchBestNetwork, networkExists, download.
  adds_only_tac.
Qed.

Lemma last_app_Some {A} (l1 l2 : list A) (x : A) :
  last l2 = Some x -> last (l1 ++ l2) = Some x.
Proof.
  intros H. destruct l2 as [|y l2 _] using rev_ind; [discriminate H|].
  rewrite last_snoc in H. rewrite app_assoc, last_snoc. exact H.
Qed.

Lemma last_forallb {A} (p : A -> bool) (l : list A) (x : A) :
  forallb p (x :: l) = true ->
  exists y : A, last (x :: l) = Some y /\ p y = true.
Proof.
  revert x. induction l as [|z l IH]; intros x H.
  - exists x. cbn in H. rewrite andb_true_r in H. auto.
  - cbn [forallb] in H. apply andb_prop in H as [_ H].
    destruct (IH z H) as (y & Hy & Hp). exists y. split; [|exact Hp].
    rewrite <- Hy. reflexivity.
Qed.

Lemma updateNetwork_from_passes (E : environment) (remaining : nat) :
  forall (retries : nat) (s : production),
    exists (k : nat) (new : list event),
      events (state_of (updateNetwork_from E remaining retries s))
      = events s ++ new
      /\ (k <= remaining)%nat
      /\ sleeps new = List.map (backoff_seconds E) (seq retries k)
      /\ executions best_network_hash_cmdline new = Nat.min (S k) remaining
      /\ (k = remaining ->
          (exists s' : production,
             updateNetwork_from E remaining retries s = Exit s')
          /\ last new
             = Some (Print "Maximum number of retries exceeded. Giving up."))
      /\ ((k < remaining)%nat ->
          exists e : event, last new = Some e /\ is_giving_up e = false).
Proof.
  induction remaining as [|remaining IH]; intros retries s.
  - exists 0%nat. eexists. cbn [updateNetwork_from]. steps. cbn [events emit].
    split; [reflexivity|]. split; [lia|]. split; [reflexivity|].
    split; [reflexivity|]. split; [|lia].
    intros _. split; [eexists; reflexivity|reflexivity].
  - destruct (attempt_events E s) as (new & Hnew & Hquiet).
    assert (Hlast : exists e : event,
              last (Exec best_network_hash_cmdline :: new) = Some e
              /\ is_giving_up e = false).
    { destruct (attempt_not_giving_up E s) as (new' & Hnew' & Hnot).
      rewrite Hnew in Hnew'. apply app_inv_head in Hnew'. subst new'.
      destruct (last_forallb _ _ _ Hnot) as (e & He & Hp).
      exists e. split; [exact He|]. apply negb_true_iff. exact Hp. }
    assert (Hone : forall s1 : production,
              events s1 = events s ++ Exec best_network_hash_cmdline :: new ->
              exists (k : nat) (new0 : list event),
                events s1 = events s ++ new0
                /\ (k <= S remaining)%nat
                /\ sleeps new0 = List.map (backoff_seconds E) (seq retries k)
                /\ executions best_network_hash_cmdline new0
                   = Nat.min (S k) (S remaining)
                /\ k <> S remaining
                /\ exists e : event,
                     last new0 = Some e /\ is_giving_up e = false).
    { intros s1 Hs1. exists 0%nat, (Exec best_network_hash_cmdline :: new).
      split; [exact Hs1|]. split; [lia|].
      split; [exact (quiet_sleeps new Hquiet)|].
      split; [|split; [discriminate|exact Hlast]].
      change (executions best_network_hash_cmdline
                (Exec best_network_hash_cmdline :: new))
        with (S (executions best_network_hash_cmdline new)).
      rewrite (quiet_executions new Hquiet). lia. }
    destruct (attempt E s) as [a s1|what s1|s1|s1] eqn:Hattempt.
    + rewrite (updateNetwork_from_returns E remaining retries s s1 a Hattempt).
      destruct (Hone s1 Hnew) as (k & new0 & H1 & H2 & H3 & H4 & H5 & H6).
      exists k, new0. split; [exact H1|]. split; [exact H2|].
      split; [exact H3|]. split; [exact H4|].
      split; [intros Hk; destruct (H5 Hk)|intros _; exact H6].
    + rewrite (updateNetwork_from_retries E remaining retries s s1 what
                 Hattempt).
      cbn [state_of] in Hnew.
      destruct (backoff_returns E retries what s1) as (s2 & Hbackoff & Hev2 & _).
      rewrite Hbackoff. cbn [state_of].
      destruct (IH (S retries) s2)
        as (k & new2 & Hev & Hk & Hsl & Hex & Hend & Hgoes).
      exists (S k). eexists.
      split; [|split; [lia|split; [|split; [|split]]]].
      * rewrite Hev, Hev2, Hnew, <- !app_assoc. reflexivity.
      * rewrite !sleeps_app.
        change (sleeps (Exec best_network_hash_cmdline :: new))
          with (sleeps new).
        rewrite (quiet_sleeps new Hquiet), Hsl. reflexivity.
      * rewrite !executions_app.
        change (executions best_network_hash_cmdline
                  (Exec best_network_hash_cmdline :: new))
          with (S (executions best_network_hash_cmdline new)).
        rewrite (quiet_executions new Hquiet), Hex. cbn. lia.
      * intros H. destruct (Hend ltac:(lia)) as (Hexit & Hl).
        split; [exact Hexit|].
        apply (last_app_Some (Exec best_network_hash_cmdline :: new)),
          last_app_Some.
        exact Hl.
      * intros H. destruct (Hgoes ltac:(lia)) as (e & He & Hp).
        exists e. split; [|exact Hp].
        apply (last_app_Some (Exec best_network_hash_cmdline :: new)),
          last_app_Some.
        exact He.
    + cbn [updateNetwork_from]. unfold try_catch. rewrite Hattempt.
      destruct (Hone s1 Hnew) as (k & new0 & H1 & H2 & H3 & H4 & H5 & H6).
      exists k, new0. split; [exact H1|]. split; [exact H2|].
      split; [exact H3|]. split; [exact H4|].
      split; [intros Hk; destruct (H5 Hk)|intros _; exact H6].
    + cbn [updateNetwork_from]. unfold try_catch. rewrite Hattempt.
      destruct (Hone s1 Hnew) as (k & new0 & H1 & H2 & H3 & H4 & H5 & H6).
      exists k, new0. split; [exact H1|]. split; [exact H2|].
      split; [exact H3|]. split; [exact H4|].
      split; [intros Hk; destruct (H5 Hk)|intros _; exact H6].
Qed.

(** X16: the passes of one refresh, however it ends.  One call of
    [updateNetwork] sleeps [k] times for some [k] of at most 96, for the
    delays of the indices 0 to [k-1] in this order, and asks the server
    for the hash [k+1] times, or 96 times when [k] is 96: never more than
    96 requests.  It gives up, ending the process with the line of giving
    up as the last thing it printed, exactly when [k] is 96: after 96
    sleeps it does, and only then. *)
Theorem updateNetwork_passes (E : environment) (s : production) :
  exists (k : nat) (new : list event),
    events (state_of (updateNetwork E s)) = events s ++ new
    /\ (k <= 96)%nat
    /\ sleeps new = List.map (backoff_seconds E) (seq 0 k)
    /\ executions best_network_hash_cmdline new = Nat.min (S k) 96
    /\ (k = 96%nat
        <-> last new
            = Some (Print "Maximum number of retries exceeded. Giving up."))
    /\ (k = 96%nat ->
        exists s' : production, updateNetwork E s = Exit s').
Proof.
  destruct (updateNetwork_from_passes E MAX_RETRIES 0 s)
    as (k & new & Hev & Hk & Hsl & Hex & Hend & Hgoes).
  exists k, new. split; [exact Hev|]. split; [exact Hk|].
  split; [exact Hsl|]. split; [exact Hex|]. split; [split|].
  - intros H. apply Hend. exact H.
  - intros Hlast. destruct (Nat.eq_dec k 96%nat) as [H|H]; [exact H|].
    destruct (Hgoes ltac:(unfold MAX_RETRIES in *; lia)) as (e & He & Hp).
    rewrite Hlast in He. injection He as <-. discriminate Hp.
  - intros H. apply Hend. exact H.
Qed.

(** ** The download *)

Lemma QFile_at_named (name : string) (d : gmap string file) :
  String.eqb name EmptyString = false -> QFile_at name d = d !! name.
Proof. intros H. unfold QFile_at. rewrite H. reflexivity. Qed.

Lemma gz_named (name : string) :
  String.eqb (name +:+ ".gz") EmptyString = false.
Proof. destruct name; reflexivity. Qed.

(** The two ways [download] ends, with the working directory curl finds:
    the one the call starts in, less the compressed file of the active
    network when there was one that could be removed. *)
Lemma download_answers (E : environment) (s : production) :
  let gz := m_network s +:+ ".gz" in
  let d0 := if QFileInfo_exists gz (disk s)
            then (QFile_remove gz (disk s)).1 else disk s in
  let r := QProcess_run E (spawned s) best_network_cmdline d0 in
  let outfile := nth 0 (QString_split newline (standardOutput r)) EmptyString in
  let r2 := QProcess_run E (S (spawned s)) ("gunzip -q " +:+ outfile)
              (disk_after r) in
  exists s' : production,
    download E s
    = (if exitCode r =? 0 then Return tt s'
       else Throw ("Curl returned non-zero exit code " +:+ pretty (exitCode r))
                  s')
    /\ m_network s'
       = (if exitCode r =? 0 then QString_chop 3 outfile else m_network s)
    /\ disk s' = (if exitCode r =? 0 then disk_after r2 else disk_after r)
    /\ commands (events s')
       = commands (events s)
         ++ best_network_cmdline
            :: (if exitCode r =? 0 then ["gunzip -q " +:+ outfile] else [])
    /\ m_version s' = m_version s.
Proof.
  intros gz d0 r outfile r2. subst r2 outfile r d0 gz.
  unfold download. steps. fields.
  destruct (QFileInfo_exists (m_network s +:+ ".gz") (disk s)).
  - destruct (QFile_remove (m_network s +:+ ".gz") (disk s)) as [d ok].
    fields.
    destruct (exitCode (QProcess_run E (spawned s) best_network_cmdline d) =? 0);
      cbn [negb]; fields; eexists; (split; [reflexivity|]); fields;
      rewrite !commands_app; cbn; rewrite ?app_nil_r, <- ?app_assoc;
      repeat split; reflexivity.
  - destruct (exitCode (QProcess_run E (spawned s) best_network_cmdline (disk s))
              =? 0);
      cbn [negb]; fields; eexists; (split; [reflexivity|]); fields;
      rewrite !commands_app; cbn; rewrite ?app_nil_r, <- ?app_assoc;
      repeat split; reflexivity.
Qed.

(** X17: a download that fails.  Before curl is run the compressed file
    of the active network is out of the way, unless the file system holds
    on to it.  [download] (and with it [fetchBestNetwork]'s second half)
    throws exactly when curl's exit code is not zero; gunzip is then not
    run, and the active network is what it was at the start of the
    download. *)
Theorem download_throws_iff (E : environment) (s : production) :
  let gz := m_network s +:+ ".gz" in
  let d0 := if QFileInfo_exists gz (disk s)
            then (QFile_remove gz (disk s)).1 else disk s in
  let r := QProcess_run E (spawned s) best_network_cmdline d0 in
  ((forall f : file, disk s !! gz = Some f -> removable f = true) ->
   d0 !! gz = None)
  /\ ((exists (what : string) (s' : production), download E s = Throw what s')
      <-> exitCode r <> 0)
  /\ (forall (what : string) (s' : production),
        download E s = Throw what s' ->
        what = "Curl returned non-zero exit code " +:+ pretty (exitCode r)
        /\ m_network s' = m_network s
        /\ disk s' = disk_after r
        /\ commands (events s') = commands (events s) ++ [best_network_cmdline]).
Proof.
  intros gz d0 r.
  destruct (download_answers E s) as (s1 & Hrun & Hnet & Hdisk & Hcmd & _).
  fold gz d0 r in Hrun, Hnet, Hdisk, Hcmd.
  split; [|split].
  - intros Hremovable. subst d0. unfold QFileInfo_exists.
    rewrite (QFile_at_named gz (disk s) (gz_named (m_network s))).
    destruct (disk s !! gz) as [f|] eqn:Hf.
    + apply QFile_remove_gone. rewrite Hf. exact Hremovable.
    + exact Hf.
  - rewrite Hrun. destruct (Z.eqb_spec (exitCode r) 0) as [Hz|Hnz].
    + split; [intros (what & s' & H); discriminate H|intros H; destruct (H Hz)].
    + split; [intros _; exact Hnz|intros _; eexists _, _; reflexivity].
  - intros what s'. rewrite Hrun.
    destruct (exitCode r =? 0); [discriminate|].
    intros H. injection H as <- <-. auto.
Qed.

(** The theorem at a client that is offline, with a stale compressed
    file in the working directory. *)
Lemma download_throws_iff_witness :
  let E := Scenario.E_offline in
  let s := Scenario.coordinator "abc" (<["abc.gz" := Scenario.good "x"]> ∅) in
  exists s' : production,
    download E s = Throw "Curl returned non-zero exit code 7" s'
    /\ events s' = [Remove "abc.gz"; Print best_network_cmdline;
                    Exec best_network_cmdline]
    /\ disk s' = ∅
    /\ m_network s' = m_network s.
Proof.
  intros E s.
  assert (H : download E s
              = Throw "Curl returned non-zero exit code 7"
                      (state_of (download E s)))
    by (vm_compute; reflexivity).
  exists (state_of (download E s)). split; [exact H|].
  split; [vm_compute; reflexivity|]. split; [vm_compute; reflexivity|].
  exact (proj1 (proj2 (proj2 (proj2 (download_throws_iff E s)) _ _ H))).
Defined.

(** X18: the name of the downloaded network.  When curl succeeds and
    the first line of its output is [name] followed by ".gz", that file is
    handed to gunzip, whose exit code is not looked at, and [name] is the
    active network afterwards: chopping three characters undoes the
    suffix. *)
Theorem download_names_network (E : environment) (s : production)
  (name : string) (rest : list string) :
  let gz := m_network s +:+ ".gz" in
  let d0 := if QFileInfo_exists gz (disk s)
            then (QFile_remove gz (disk s)).1 else disk s in
  let r := QProcess_run E (spawned s) best_network_cmdline d0 in
  let r2 := QProcess_run E (S (spawned s)) ("gunzip -q " +:+ name +:+ ".gz")
              (disk_after r) in
  exitCode r = 0 ->
  QString_split newline (standardOutput r) = (name +:+ ".gz") :: rest ->
  exists s' : production,
    download E s = Return tt s'
    /\ m_network s' = name
    /\ disk s' = disk_after r2
    /\ commands (events s')
       = commands (events s)
         ++ [best_network_cmdline; "gunzip -q " +:+ name +:+ ".gz"].
Proof.
  intros gz d0 r r2 Hexit Hsplit.
  destruct (download_answers E s) as (s1 & Hrun & Hnet & Hdisk & Hcmd & _).
  fold gz d0 r in Hrun, Hnet, Hdisk, Hcmd.
  rewrite Hexit, Hsplit in *. cbn [Z.eqb nth] in *.
  exists s1. split; [exact Hrun|]. split; [|split; [exact Hdisk|exact Hcmd]].
  rewrite Hnet. apply (QString_chop_app name ".gz").
Qed.

(** The theorem at a server that delivers "abc.gz". *)
Lemma download_names_network_witness :
  let E := Scenario.E_same_hash in
  let s := Scenario.coordinator "old" ∅ in
  let r := QProcess_run E (spawned s) best_network_cmdline (disk s) in
  exitCode r = 0
  /\ QString_split newline (standardOutput r) = ["abc" +:+ ".gz"]
  /\ exists s' : production,
       download E s = Return tt s' /\ m_network s' = "abc".
Proof.
  intros E s r. split; [reflexivity|]. split; [reflexivity|].
  destruct (download_names_network E s "abc" [] eq_refl eq_refl)
    as (s' & Hrun & Hnet & _).
  exists s'. split; [exact Hrun|exact Hnet].
Defined.

(** ** What the refresh and the upload leave alone *)

Lemma preserves_bind {A B C} (f : production -> C) (c : computation A)
  (k : A -> computation B) :
  preserves f c -> (forall a, preserves f (k a)) -> preserves f (bind c k).
Proof.
  intros Hc Hk s. unfold bind. specialize (Hc s).
  destruct (c s) as [a s1|what s1|s1|s1]; cbn [state_of] in *;
    try exact Hc.
  rewrite (Hk a s1). exact Hc.
Qed.

Lemma preserves_try_catch {A C} (f : production -> C) (body : computation A)
  (handler : string -> computation A) :
  preserves f body -> (forall what, preserves f (handler what)) ->
  preserves f (try_catch body handler).
Proof.
  intros Hb Hh s. unfold try_catch. specialize (Hb s).
  destruct (body s) as [a s1|what s1|s1|s1]; cbn [state_of] in *;
    try exact Hb.
  rewrite (Hh what s1). exact Hb.
Qed.

Lemma preserves_for_each {C} (f : production -> C)
  (body : string -> computation unit) (l : list string) :
  (forall x, preserves f (body x)) -> preserves f (for_each l body).
Proof.
  intros Hbody. induction l as [|x rest IH]; [intros s; reflexivity|].
  cbn [for_each]. apply preserves_bind; [apply Hbody|intros _; exact IH].
Qed.

(** Take a computation apart along its binds and branches; the steps
    that are left change neither the fields read by [f]. *)
Ltac preserves_tac :=
  repeat first
    [ apply preserves_bind; [|intros ?]
    | match goal with
      | |- preserves _ (if ?b then _ else _) => destruct b
      | |- preserves _ (match ?x with _ => _ end) => destruct x
      | |- preserves _ (let _ := _ in _) => cbv zeta
      end
    | solve [intros ?; reflexivity]
    | solve [intros ?; unfold remove;
             match goal with
             | |- context [QFile_remove ?n ?d] => destruct (QFile_remove n d)
             end; reflexivity]
    | solve [intros ?; unfold int_div;
             match goal with
             | |- context [?b =? 0] => destruct (b =? 0)
             end; reflexivity] ].

Lemma networkExists_settings : preserves settings networkExists.
Proof. unfold networkExists. preserves_tac. Qed.

Lemma attempt_settings (E : environment) : preserves settings (attempt E).
Proof.
  unfold attempt, fetchBestNetworkHash, read_best_network_hash,
    fetchBestNetwork, download.
  pose proof networkExists_settings.
  preserves_tac; assumption.
Qed.

Lemma updateNetwork_from_settings (E : environment) (remaining : nat) :
  forall retries : nat,
    preserves settings (updateNetwork_from E remaining retries).
Proof.
  induction remaining as [|remaining IH]; intros retries;
    cbn [updateNetwork_from].
  - preserves_tac.
  - apply preserves_try_catch; [apply attempt_settings|]. intros what.
    apply preserves_bind; [unfold backoff; preserves_tac|].
    intros _. apply IH.
Qed.

Lemma uploadData_settings (E : environment) (file : string) :
  preserves (fun s => (settings s, m_network s)) (uploadData E file).
Proof.
  unfold uploadData. apply preserves_bind; [preserves_tac|]. intros l.
  apply preserves_for_each. intros x.
  unfold upload_entry, save_entry, submit_entry. preserves_tac.
Qed.

(** X19: what the refresh and the upload leave alone.  However it ends,
    [updateNetwork] changes neither the client version, nor the counters
    of games and moves, nor the two paths, nor the Workers; [uploadData]
    changes none of these and not the active network either. *)
Theorem updateNetwork_keeps_settings (E : environment) :
  preserves settings (updateNetwork E)
  /\ forall file : string,
       preserves (fun s => (settings s, m_network s)) (uploadData E file).
Proof.
  split; [apply updateNetwork_from_settings|apply uploadData_settings].
Qed.

(** ** Result aggregation, again *)

Lemma settings_gamesThreads (s s' : production) :
  settings s' = settings s -> m_gamesThreads s' = m_gamesThreads s.
Proof. unfold settings. intros H. injection H. auto. Qed.

Lemma settings_and_network_gamesThreads (s s' : production) :
  (settings s', m_network s') = (settings s, m_network s) ->
  m_gamesThreads s' = m_gamesThreads s.
Proof.
  intros H. apply (f_equal fst) in H. apply settings_gamesThreads. exact H.
Qed.

Lemma printTimingInfo_settings (E : environment) (total_time_s : Z)
  (duration : Q) :
  preserves (fun s => (settings s, m_network s))
            (printTimingInfo E total_time_s duration).
Proof. unfold printTimingInfo. preserves_tac. Qed.

(** X20: who is told about a new network.  When [getResult] returns,
    the active network is verified, and the Workers are either all as
    they were or have all been sent [newNetwork] with the active network;
    when [getResult] does not return, no Worker has been told
    anything. *)
Theorem getResult_broadcast (E : environment) (total_time_s : Z)
  (file : string) (duration : Q) (s : production) :
  let r := getResult E total_time_s file duration s in
  (forall s' : production,
     r = Return tt s' ->
     network_verified s' = true
     /\ (m_gamesThreads s' = m_gamesThreads s
         \/ m_gamesThreads s'
            = List.map (ProductionWorker.newNetwork (m_network s'))
                       (m_gamesThreads s)))
  /\ ((forall s' : production, r <> Return tt s') ->
      m_gamesThreads (state_of r) = m_gamesThreads s).
Proof.
  intros r. assert (Hr : getResult E total_time_s file duration s = r)
    by reflexivity.
  clearbody r. unfold getResult in Hr. unfold bind at 1 in Hr.
  set (s1 := with_gamesPlayed (wrap_int (m_gamesPlayed s + 1)) s) in Hr.
  change (m_gamesThreads s) with (m_gamesThreads s1).
  unfold bind at 1 in Hr.
  pose proof (printTimingInfo_settings E total_time_s duration s1) as Hprint.
  destruct (printTimingInfo E total_time_s duration s1)
    as [[] s2|what s2|s2|s2]; cbn [state_of] in Hprint;
    apply settings_and_network_gamesThreads in Hprint as Hth2;
    try (subst r; split; [intros s' H; discriminate H|intros _; exact Hth2]).
  rewrite <- Hth2. clear Hth2 Hprint s1.
  unfold bind at 1 in Hr.
  pose proof (uploadData_settings E file s2) as Hupload.
  destruct (uploadData E file s2) as [[] s3|what s3|s3|s3];
    cbn [state_of] in Hupload;
    apply settings_and_network_gamesThreads in Hupload as Hth3;
    try (subst r; split; [intros s' H; discriminate H|intros _; exact Hth3]).
  rewrite <- Hth3. clear Hth3 Hupload s2.
  unfold bind at 1 in Hr.
  pose proof (updateNetwork_from_settings E MAX_RETRIES 0 s3) as Hupdate.
  pose proof (updateNetwork_from_verified E MAX_RETRIES 0 s3) as Hverified.
  fold (updateNetwork E) in Hupdate, Hverified.
  destruct (updateNetwork E s3) as [unchanged s4|what s4|s4|s4];
    cbn [state_of] in Hupdate; apply settings_gamesThreads in Hupdate;
    try (subst r; split; [intros s' H; discriminate H|intros _; exact Hupdate]).
  specialize (Hverified s4 unchanged eq_refl). rewrite <- Hupdate.
  destruct unchanged; cbn [negb] in Hr; subst r.
  - split; [|intros H; destruct (H s4 eq_refl)].
    intros s' H. injection H as <-. auto.
  - split; [|intros H; edestruct H; reflexivity].
    intros s' H. injection H as <-. fields.
    split; [|right; reflexivity].
    rewrite <- Hverified. apply network_verified_ext; reflexivity.
Qed.

(** The theorem at a Coordinator with two Workers on "old" when the
    server announces "abc". *)
Lemma getResult_broadcast_witness :
  let E := Scenario.E_same_hash in
  let w := ProductionWorker.init EmptyString "old" 0 in
  let s := with_gamesThreads [w; w] (Scenario.coordinator "old" ∅) in
  let s' := state_of (getResult E 100 "g1" (7 # 2) s) in
  getResult E 100 "g1" (7 # 2) s = Return tt s'
  /\ network_verified s' = true
  /\ List.map ProductionWorker.m_network (m_gamesThreads s') = ["abc"; "abc"]
  /\ List.map ProductionWorker.m_state (m_gamesThreads s')
     = [ProductionWorker.NET_CHANGE; ProductionWorker.NET_CHANGE].
Proof.
  intros E w s s'.
  assert (H : getResult E 100 "g1" (7 # 2) s = Return tt s')
    by (vm_compute; reflexivity).
  split; [exact H|].
  split; [exact (proj1 (proj1 (getResult_broadcast E 100 "g1" (7 # 2) s) s' H))|].
  split; vm_compute; reflexivity.
Defined.

(** X21: one result, one game.  While the counter has not reached
    [INT_MAX], a call of [getResult] adds exactly one to the number of
    games played, however the call ends: the statistics, the upload, the
    refresh and the broadcast do not touch the counter. *)
Theorem getResult_counts_game (E : environment) (total_time_s : Z)
  (file : string) (duration : Q) (s : production) :
  INT_MIN <= m_gamesPlayed s < INT_MAX ->
  m_gamesPlayed (state_of (getResult E total_time_s file duration s))
  = m_gamesPlayed s + 1.
Proof.
  intros Hrange. rewrite getResult_counts_one.
  unfold wrap_int, INT_MIN, INT_MAX in *.
  rewrite Z.mod_small; lia.
Qed.

(** The theorem at the first result of a session. *)
Lemma getResult_counts_game_witness :
  let s := Scenario.coordinator "abc" ∅ in
  INT_MIN <= m_gamesPlayed s < INT_MAX
  /\ m_gamesPlayed (state_of (getResult Scenario.E_same_hash 100 "g1" (7 # 2) s))
     = 1.
Proof.
  intros s.
  assert (Hrange : INT_MIN <= m_gamesPlayed s < INT_MAX)
    by (vm_compute; split; [discriminate|reflexivity]).
  split; [exact Hrange|].
  apply (getResult_counts_game Scenario.E_same_hash 100 "g1" (7 # 2) s Hrange).
Defined.

(** ** A change of network that nobody is told about *)




(** ** The upload pipeline, again *)

Lemma save_entry_events (E : environment)
  (sgf_file data_file debug_data_file : string) (s : production) :
  exists (s' : production) (new : list event),
    save_entry E sgf_file data_file debug_data_file s = Return tt s'
    /\ events s' = events s ++ new
    /\ commands new = ["gzip " +:+ sgf_file]
    /\ removals new = []
    /\ sleeps new = []
    /\ m_network s' = m_network s /\ m_version s' = m_version s.
Proof.
  unfold save_entry. steps.
  destruct (negb (String.eqb (m_keepPath s) EmptyString)); fields;
    destruct (negb (String.eqb (m_debugPath s) EmptyString)); fields;
    (eexists _, _; split; [reflexivity|]); fields;
    (split; [rewrite <- ?app_assoc; reflexivity|]);
    repeat split; reflexivity.
Qed.

Lemma submit_entry_events (E : environment)
  (sgf_file data_file debug_data_file : string) (s : production) :
  exists (s' : production) (new : list event),
    submit_entry E sgf_file data_file debug_data_file s = Return tt s'
    /\ events s' = events s ++ new
    /\ commands new
       = [submit_cmdline (m_network s) (m_version s) sgf_file data_file]
    /\ removals new = [sgf_file; data_file; debug_data_file]
    /\ sleeps new = []
    /\ m_network s' = m_network s /\ m_version s' = m_version s.
Proof.
  destruct (submit_entry_returns E sgf_file data_file debug_data_file s)
    as (s' & Hrun & Hev & _).
  assert (Hkeep : preserves (fun s => (m_network s, m_version s))
                    (submit_entry E sgf_file data_file debug_data_file))
    by (unfold submit_entry; preserves_tac).
  specialize (Hkeep s). rewrite Hrun in Hkeep. cbn [state_of] in Hkeep.
  injection Hkeep as Hnet Hver.
  eexists s', _. split; [exact Hrun|]. split; [exact Hev|].
  rewrite !commands_app, !removals_app, !sleeps_app.
  destruct (exitCode _ =? 0); repeat split; first [reflexivity|assumption].
Qed.

Lemma upload_entry_events (E : environment) (fileName : string)
  (s : production) :
  let data_file := QString_chop 4 fileName +:+ ".txt.0.gz" in
  let debug_data_file := QString_chop 4 fileName +:+ ".txt.debug.0.gz" in
  exists (s' : production) (new : list event),
    upload_entry E fileName s = Return tt s'
    /\ events s' = events s ++ new
    /\ commands new
       = ["gzip " +:+ fileName;
          submit_cmdline (m_network s) (m_version s) (fileName +:+ ".gz")
                         data_file]
    /\ removals new = [fileName +:+ ".gz"; data_file; debug_data_file]
    /\ sleeps new = [].
Proof.
  intros data_file debug_data_file.
  unfold upload_entry. cbv zeta. fold data_file debug_data_file.
  unfold bind at 1.
  destruct (save_entry_events E fileName data_file debug_data_file s)
    as (s1 & new1 & -> & Hev1 & Hc1 & Hr1 & Hs1 & Hnet1 & Hver1).
  destruct (submit_entry_events E (fileName +:+ ".gz") data_file
              debug_data_file s1)
    as (s2 & new2 & -> & Hev2 & Hc2 & Hr2 & Hs2 & _).
  exists s2, (new1 ++ new2). split; [reflexivity|].
  split; [rewrite Hev2, Hev1, app_assoc; reflexivity|].
  rewrite commands_app, removals_app, sleeps_app, Hc1, Hc2, Hr1, Hr2, Hs1, Hs2,
    Hnet1, Hver1.
  repeat split; reflexivity.
Qed.

(** X23: the files of one game, step by step.  When the listing holds
    the one game record [base].sgf, a call of [uploadData] makes the
    copies that were asked for (the record first, then the training data
    and the debug data), runs gzip on [base].sgf, prints and runs the
    submission of [base].sgf.gz as the record and of [base].txt.0.gz as
    the training data under the network and the client version of the
    moment, logs a non-zero exit code, prints curl's output, and only
    then asks for the removal of [base].sgf.gz, [base].txt.0.gz and
    [base].txt.debug.0.gz, in this order: cutting four characters undoes
    the suffix of the record. *)
Theorem upload_entry_names (E : environment) (file base : string)
  (s : production) :
  QDir_entryInfoList E (file +:+ ".sgf") (disk s) = [base +:+ ".sgf"] ->
  let sgf := base +:+ ".sgf" in
  let kept :=
    if String.eqb (m_keepPath s) EmptyString then disk s
    else QFile_copy E sgf (m_keepPath s +:+ "/" +:+ sgf) (disk s) in
  let saved :=
    if String.eqb (m_debugPath s) EmptyString then kept
    else QFile_copy E (base +:+ ".txt.debug.0.gz")
           (m_debugPath s +:+ "/" +:+ (base +:+ ".txt.debug.0.gz"))
           (QFile_copy E (base +:+ ".txt.0.gz")
              (m_debugPath s +:+ "/" +:+ (base +:+ ".txt.0.gz")) kept) in
  let gzip := QProcess_run E (spawned s) ("gzip " +:+ sgf) saved in
  let cmdline :=
    "curl -F networkhash=" +:+ m_network s
    +:+ " -F clientversion=" +:+ pretty (m_version s)
    +:+ " -F sgf=@" +:+ (sgf +:+ ".gz")
    +:+ " -F trainingdata=@" +:+ (base +:+ ".txt.0.gz")
    +:+ " http://zero.sjeng.org/submit" in
  let r := QProcess_run E (S (spawned s)) cmdline (disk_after gzip) in
  exists s' : production,
    uploadData E file s = Return tt s'
    /\ events s' =
         events s
         ++ (if String.eqb (m_keepPath s) EmptyString then []
             else [Copy sgf (m_keepPath s +:+ "/" +:+ sgf)])
         ++ (if String.eqb (m_debugPath s) EmptyString then []
             else [Copy (base +:+ ".txt.0.gz")
                        (m_debugPath s +:+ "/" +:+ (base +:+ ".txt.0.gz"));
                   Copy (base +:+ ".txt.debug.0.gz")
                        (m_debugPath s +:+ "/"
                         +:+ (base +:+ ".txt.debug.0.gz"))])
         ++ [Exec ("gzip " +:+ sgf); Print cmdline; Exec cmdline]
         ++ (if exitCode r =? 0 then []
             else [Print ("Upload failed. Curl Exit code: "
                          +:+ pretty (exitCode r));
                   Print "Continuing..."])
         ++ [Print (standardOutput r);
             Remove (sgf +:+ ".gz"); Remove (base +:+ ".txt.0.gz");
             Remove (base +:+ ".txt.debug.0.gz")]
    /\ disk s' =
         (QFile_remove (base +:+ ".txt.debug.0.gz")
            (QFile_remove (base +:+ ".txt.0.gz")
               (QFile_remove (sgf +:+ ".gz") (disk_after r)).1).1).1.
Proof.
  intros Hlist. cbv zeta.
  unfold uploadData. unfold bind at 1. unfold get. rewrite Hlist.
  cbn [for_each]. unfold bind at 1.
  destruct (upload_entry_run E (base +:+ ".sgf") s)
    as (s' & Hrun & Hev & Hdisk & _).
  rewrite Hrun. exists s'. split; [reflexivity|].
  rewrite (QString_chop_app base ".sgf" : QString_chop 4 _ = _) in Hev, Hdisk.
  split; [exact Hev|exact Hdisk].
Qed.

(** The theorem at a game "g1" whose record is to be kept under "keep"
    and whose submission fails with exit code 7. *)
Lemma upload_entry_names_witness :
  let E := Scenario.E_offline in
  let d : gmap string file :=
    <["g1.sgf" := Scenario.good "s"]>
      (<["g1.txt.0.gz" := Scenario.good "t"]> ∅) in
  let s := mkProduction "abc" 1 0 0 "keep" EmptyString [] d 0 [] in
  QDir_entryInfoList E ("g1" +:+ ".sgf") (disk s) = ["g1" +:+ ".sgf"]
  /\ exists s' : production,
       uploadData E "g1" s = Return tt s'
       /\ events s'
          = [Copy "g1.sgf" "keep/g1.sgf";
             Exec "gzip g1.sgf";
             Print "curl -F networkhash=abc -F clientversion=1 -F sgf=@g1.sgf.gz -F trainingdata=@g1.txt.0.gz http://zero.sjeng.org/submit";
             Exec "curl -F networkhash=abc -F clientversion=1 -F sgf=@g1.sgf.gz -F trainingdata=@g1.txt.0.gz http://zero.sjeng.org/submit";
             Print "Upload failed. Curl Exit code: 7";
             Print "Continuing...";
             Print EmptyString;
             Remove "g1.sgf.gz"; Remove "g1.txt.0.gz";
             Remove "g1.txt.debug.0.gz"]
       /\ disk s' = <["keep/g1.sgf" := Scenario.good "s"]> ∅.
Proof.
  intros E d s.
  assert (Hlist : QDir_entryInfoList E ("g1" +:+ ".sgf") (disk s)
                  = ["g1" +:+ ".sgf"]) by reflexivity.
  split; [exact Hlist|].
  destruct (upload_entry_names E "g1" "g1" s Hlist) as (s' & Hrun & Hev & Hdisk).
  exists s'. split; [exact Hrun|].
  split; [rewrite Hev|rewrite Hdisk]; vm_compute; reflexivity.
Defined.

Lemma for_each_upload_events (E : environment) (l : list string) :
  forall s : production,
    exists (s' : production) (new : list event),
      for_each l (upload_entry E) s = Return tt s'
      /\ events s' = events s ++ new
      /\ length (commands new) = (2 * length l)%nat
      /\ length (removals new) = (3 * length l)%nat
      /\ sleeps new = [].
Proof.
  induction l as [|x rest IH]; intros s.
  - exists s, []. rewrite app_nil_r. repeat split; reflexivity.
  - cbn [for_each]. unfold bind at 1.
    destruct (upload_entry_events E x s) as (s1 & new1 & -> & Hev1 & Hc1 & Hr1 & Hs1).
    destruct (IH s1) as (s2 & new2 & Hrun & Hev2 & Hc2 & Hr2 & Hs2).
    exists s2, (new1 ++ new2). split; [exact Hrun|].
    split; [rewrite Hev2, Hev1, app_assoc; reflexivity|].
    rewrite commands_app, removals_app, sleeps_app, !length_app, Hc1, Hr1, Hs1,
      Hc2, Hr2, Hs2.
    cbn [length]. repeat split; lia.
Qed.

(** X24: the work of one upload.  [uploadData] lists the working
    directory once, at the start; for each of the [n] entries it runs two
    processes (gzip, curl) and asks for three removals, and it never
    sleeps.  With no matching game record, as after a game without
    winner, it does nothing at all. *)
Theorem uploadData_work (E : environment) (file : string) (s : production) :
  let n := length (QDir_entryInfoList E (file +:+ ".sgf") (disk s)) in
  (exists (s' : production) (new : list event),
     uploadData E file s = Return tt s'
     /\ events s' = events s ++ new
     /\ length (commands new) = (2 * n)%nat
     /\ length (removals new) = (3 * n)%nat
     /\ sleeps new = [])
  /\ (n = 0%nat -> uploadData E file s = Return tt s).
Proof.
  intros n. subst n. unfold uploadData. unfold bind, get.
  split; [apply for_each_upload_events|].
  destruct (QDir_entryInfoList E (file +:+ ".sgf") (disk s)); [|discriminate].
  reflexivity.
Qed.

(** The theorem at a game without record: the upload has nothing to
    do. *)
Lemma uploadData_work_witness :
  let E := Scenario.E_offline in
  let s := Scenario.coordinator "abc" ∅ in
  length (QDir_entryInfoList E ("g1" +:+ ".sgf") (disk s)) = 0%nat
  /\ uploadData E "g1" s = Return tt s.
Proof.
  intros E s. split; [reflexivity|].
  apply (proj2 (uploadData_work E "g1" s)). reflexivity.
Defined.

(** ** The backoff delay, beyond the formula *)

(** X25: where the cap sets in.  Among the indices 0 to 44 the delay is
    the full hour exactly from index 12 on: the first twelve failed
    attempts are followed by shorter sleeps, all later ones by 3600
    seconds. *)
Theorem backoff_seconds_cap (E : environment) (i : nat) :
  (i <= 44)%nat ->
  (backoff_seconds E i = 3600 <-> (12 <= i)%nat).
Proof.
  intros Hi. rewrite (backoff_seconds_small E i Hi). split.
  - intros Hcap. destruct (le_lt_dec 12 i) as [H|H]; [exact H|].
    pose proof (retry_delay_monotone E i 11 ltac:(lia) ltac:(lia)) as Hle.
    assert (H11 : retry_delay E 11 = 2594) by (vm_compute; reflexivity).
    lia.
  - intros H12.
    pose proof (retry_delay_monotone E 12 i H12 Hi) as Hle.
    assert (H12' : retry_delay E 12 = 3600) by (vm_compute; reflexivity).
    pose proof (retry_delay_capped E i). lia.
Qed.

(** The theorem at the indices 11 and 12. *)
Lemma backoff_seconds_cap_witness :
  (12 <= 44)%nat
  /\ backoff_seconds Scenario.E_offline 12 = 3600
  /\ backoff_seconds Scenario.E_offline 11 = 2594.
Proof.
  split; [lia|].
  split; [|vm_compute; reflexivity].
  apply (proj2 (backoff_seconds_cap Scenario.E_offline 12 ltac:(lia))). lia.
Defined.

Lemma double_to_int_large (E : environment) (x : Q) :
  (inject_Z (2 ^ 31) <= x)%Q ->
  double_to_int E x = double_to_int_overflow E.
Proof.
  intros Hx. unfold double_to_int. unfold Qle in Hx. cbn [Qnum Qden inject_Z] in Hx.
  assert (Hq : 2 ^ 31 <= Z.quot (Qnum x) (Zpos (Qden x))).
  { apply Z.quot_le_lower_bound; lia. }
  destruct (Z.leb_spec (Z.quot (Qnum x) (Zpos (Qden x))) INT_MAX) as [H|H].
  - unfold INT_MAX in H. lia.
  - rewrite andb_false_r. reflexivity.
Qed.

Lemma product_large (i : nat) :
  (45 <= i)%nat ->
  (inject_Z (2 ^ 31) <= inject_Z RETRY_DELAY_MIN_SEC * pow_1_5 i)%Q.
Proof.
  intros Hi.
  apply (Qle_trans _ (inject_Z RETRY_DELAY_MIN_SEC * pow_1_5 45)).
  - vm_compute. discriminate.
  - apply Qmult_le_l; [reflexivity|].
    unfold pow_1_5. apply Qpower_le_compat_l; [lia|].
    vm_compute. discriminate.
Qed.

(** X26: the delay once the product no longer fits an [int].  From
    index 45 on, 30 * 1.5^i is above [INT_MAX]; the conversion to [int]
    that [std::min<int>] forces then yields whatever the platform yields,
    and the minimum is taken of that.  Where the platform's value is
    [INT_MIN] and [long] has 64 bits the sleep asked for is
    2^64 - 2^31 seconds; where it is [INT_MAX] it is the full hour. *)
Theorem retry_delay_overflows (E : environment) (i : nat) :
  (45 <= i < MAX_RETRIES)%nat ->
  retry_delay E i = Z.min (double_to_int_overflow E) RETRY_DELAY_MAX_SEC
  /\ (double_to_int_overflow E = INT_MIN -> long_bits E = long_64 ->
      backoff_seconds E i = 2 ^ 64 - 2 ^ 31)
  /\ (double_to_int_overflow E = INT_MAX ->
      backoff_seconds E i = 3600).
Proof.
  intros [Hi _].
  assert (Hdelay : retry_delay E i
                   = Z.min (double_to_int_overflow E) RETRY_DELAY_MAX_SEC).
  { unfold retry_delay.
    rewrite (double_to_int_large E _ (product_large i Hi)). reflexivity. }
  split; [exact Hdelay|]. unfold backoff_seconds. rewrite Hdelay. split.
  - intros -> Hlong. unfold to_unsigned_long. rewrite Hlong. reflexivity.
  - intros ->. apply to_unsigned_long_small. vm_compute.
    split; [discriminate|reflexivity].
Qed.

(** The theorem at index 45 on a platform that converts to [INT_MIN]. *)
Lemma retry_delay_overflows_witness :
  (45 <= 45 < MAX_RETRIES)%nat
  /\ retry_delay Scenario.E_offline 45 = INT_MIN
  /\ backoff_seconds Scenario.E_offline 45 = 2 ^ 64 - 2 ^ 31.
Proof.
  assert (H : (45 <= 45 < MAX_RETRIES)%nat) by (unfold MAX_RETRIES; lia).
  split; [exact H|].
  destruct (retry_delay_overflows Scenario.E_offline 45 H) as (Hd & Hmin & _).
  split; [rewrite Hd; reflexivity|].
  apply Hmin; reflexivity.
Defined.

(** ** Start-up *)

Lemma with_gamesThreads_same (s : production) :
  with_gamesThreads (m_gamesThreads s) s = s.
Proof. destruct s. reflexivity. Qed.

(** The inner loop of [startGames] sets up [count] consecutive Workers
    for one GPU. *)
Lemma start_threads_of_gpu (m_games : nat) (m_gpusList : list string)
  (gpu : nat) (myGpu : string) :
  match m_gpusList with
  | [] => Some EmptyString
  | _ => nth_error m_gpusList gpu
  end = Some myGpu ->
  forall (count from : nat) (ready rest : list ProductionWorker.worker)
         (s : production),
    m_gamesThreads s = ready ++ rest ->
    length ready = (gpu * m_games + from)%nat ->
    (count <= length rest)%nat ->
    for_upto from count (start_thread m_games m_gpusList gpu) s
    = Some (with_gamesThreads
              (ready
               ++ replicate count
                    (ProductionWorker.init myGpu (m_network s) (m_movesMade s))
               ++ drop count rest) s).
Proof.
  intros HmyGpu. induction count as [|count IH];
    intros from ready rest s Hthreads Hready Hcount.
  - cbn [for_upto replicate app]. rewrite skipn_0, <- Hthreads.
    rewrite with_gamesThreads_same. reflexivity.
  - destruct rest as [|x rest]; [cbn in Hcount; lia|].
    cbn [length] in Hcount. cbn [for_upto]. unfold start_thread at 1.
    cbv zeta. rewrite HmyGpu, Hthreads, <- Hready.
    replace (length ready <? length (ready ++ x :: rest))%nat with true
      by (symmetry; apply Nat.ltb_lt; rewrite length_app; cbn; lia).
    rewrite insert_app_r_alt by lia.
    replace (length ready - length ready)%nat with 0%nat by lia.
    cbn [insert list_insert].
    set (w := ProductionWorker.init myGpu (m_network s) (m_movesMade s)).
    rewrite (IH (S from) (ready ++ [w]) rest
               (with_gamesThreads (ready ++ w :: rest) s)).
    + cbn [replicate]. rewrite skipn_cons. fields. fold w.
      rewrite <- !app_assoc. reflexivity.
    + fields. rewrite <- app_assoc. reflexivity.
    + rewrite length_app. cbn [length]. lia.
    + lia.
Qed.

(** The Workers [startGames] sets up for the GPUs [from] to
    [from + count - 1]. *)
Lemma start_threads (m_games : nat) (m_gpusList : list string) :
  forall (count from : nat) (ready rest : list ProductionWorker.worker)
         (s : production),
    m_gamesThreads s = ready ++ rest ->
    length ready = (from * m_games)%nat ->
    (count * m_games <= length rest)%nat ->
    m_gpusList = [] \/ (from + count <= length m_gpusList)%nat ->
    for_upto from count
      (fun gpu => for_upto 0 m_games (start_thread m_games m_gpusList gpu)) s
    = Some (with_gamesThreads
              (ready
               ++ flat_map
                    (fun gpu =>
                       replicate m_games
                         (ProductionWorker.init
                            (nth gpu m_gpusList EmptyString)
                            (m_network s) (m_movesMade s)))
                    (seq from count)
               ++ drop (count * m_games) rest) s).
Proof.
  induction count as [|count IH];
    intros from ready rest s Hthreads Hready Hcount Hgpus.
  - cbn [for_upto seq flat_map Nat.mul app]. rewrite skipn_0, <- Hthreads.
    rewrite with_gamesThreads_same. reflexivity.
  - cbn [for_upto].
    assert (HmyGpu : match m_gpusList with
                     | [] => Some EmptyString
                     | _ => nth_error m_gpusList from
                     end = Some (nth from m_gpusList EmptyString)).
    { destruct Hgpus as [->|Hlen]; [destruct from; reflexivity|].
      destruct m_gpusList as [|g gs] eqn:Hl; [cbn in Hlen; lia|].
      rewrite <- Hl in *. apply nth_error_nth'. lia. }
    rewrite (start_threads_of_gpu m_games m_gpusList from _ HmyGpu m_games 0
               ready rest s Hthreads ltac:(lia) ltac:(cbn in Hcount; lia)).
    set (w := ProductionWorker.init (nth from m_gpusList EmptyString)
                (m_network s) (m_movesMade s)).
    rewrite (IH (S from) (ready ++ replicate m_games w) (drop m_games rest)).
    + fields. cbn [seq flat_map]. fold w.
      rewrite drop_drop, <- !app_assoc.
      replace (m_games + count * m_games)%nat with (S count * m_games)%nat
        by (cbn; lia).
      reflexivity.
    + fields. rewrite <- app_assoc. reflexivity.
    + rewrite length_app, length_replicate. cbn. lia.
    + rewrite length_drop. cbn in Hcount. lia.
    + destruct Hgpus as [H|H]; [left; exact H|right; lia].
Qed.

Lemma length_blocks {A} (f : nat -> A) (n : nat) (l : list nat) :
  length (flat_map (fun g => replicate n (f g)) l) = (length l * n)%nat.
Proof.
  induction l as [|g l IH]; [reflexivity|].
  cbn [flat_map length]. rewrite length_app, length_replicate, IH. cbn. lia.
Qed.

(** X27: the Workers at start-up.  With a vector of [m_gpus * m_games]
    Workers, as the constructor makes it, and a list of GPUs that is empty
    or names at least [m_gpus] of them: once the first refresh returns,
    [startGames] sets up every Worker exactly once, the Workers of one GPU
    next to each other in blocks of [m_games] with the name of their GPU
    from the list, each RUNNING on the active network, which is verified.
    Nothing else of the Coordinator changes after the refresh. *)
Theorem startGames_sets_up (E : environment) (m_gpus m_games : nat)
  (m_gpusList : list string) (s s1 : production) (unchanged : bool) :
  length (m_gamesThreads s) = (m_gpus * m_games)%nat ->
  m_gpusList = [] \/ (m_gpus <= length m_gpusList)%nat ->
  updateNetwork E s = Return unchanged s1 ->
  let workers :=
    flat_map
      (fun gpu =>
         replicate m_games
           (ProductionWorker.init (nth gpu m_gpusList EmptyString)
              (m_network s1) (m_movesMade s1)))
      (seq 0 m_gpus) in
  startGames E m_gpus m_games m_gpusList s
  = Started (with_gamesThreads workers s1)
  /\ length workers = (m_gpus * m_games)%nat
  /\ Forall (fun w => ProductionWorker.m_state w = ProductionWorker.RUNNING
                      /\ ProductionWorker.m_network w = m_network s1
                      /\ ProductionWorker.actions w = []) workers
  /\ network_verified (with_gamesThreads workers s1) = true.
Proof.
  intros Hlen Hgpus Hupdate workers.
  pose proof (updateNetwork_from_settings E MAX_RETRIES 0 s) as Hsettings.
  fold (updateNetwork E) in Hsettings. rewrite Hupdate in Hsettings.
  cbn [state_of] in Hsettings. apply settings_gamesThreads in Hsettings.
  pose proof (updateNetwork_from_verified E MAX_RETRIES 0 s s1 unchanged Hupdate)
    as Hverified.
  split; [|split; [|split]].
  - unfold startGames. rewrite Hupdate.
    rewrite (start_threads m_games m_gpusList m_gpus 0 [] (m_gamesThreads s1) s1
               eq_refl eq_refl ltac:(rewrite Hsettings; lia)
               ltac:(destruct Hgpus; [left; assumption|right; lia])).
    rewrite drop_ge by (rewrite Hsettings; lia).
    cbn [app]. rewrite app_nil_r. reflexivity.
  - subst workers. rewrite length_blocks, length_seq. reflexivity.
  - subst workers. apply Forall_flat_map, Forall_forall. intros gpu _.
    apply Forall_replicate. repeat split.
  - rewrite <- Hverified. apply network_verified_ext; reflexivity.
Qed.

(** The theorem at two GPUs "0" and "1" with two games each. *)
Lemma startGames_sets_up_witness :
  let E := Scenario.E_same_hash in
  let s := Scenario.coordinator_2x2 in
  let s1 := state_of (updateNetwork E s) in
  length (m_gamesThreads s) = (2 * 2)%nat
  /\ updateNetwork E s = Return false s1
  /\ exists s2 : production,
       startGames E 2 2 ["0"; "1"] s = Started s2
       /\ List.map ProductionWorker.m_option (m_gamesThreads s2)
          = [" --gpu=0  -g -q -d -n -m 30 -w "; " --gpu=0  -g -q -d -n -m 30 -w ";
             " --gpu=1  -g -q -d -n -m 30 -w "; " --gpu=1  -g -q -d -n -m 30 -w "]
       /\ List.map ProductionWorker.m_network (m_gamesThreads s2)
          = ["abc"; "abc"; "abc"; "abc"].
Proof.
  intros E s s1.
  assert (H : updateNetwork E s = Return false s1) by (vm_compute; reflexivity).
  split; [reflexivity|]. split; [exact H|].
  destruct (startGames_sets_up E 2 2 ["0"; "1"] s s1 false eq_refl
              (or_intror (le_n 2)) H) as (Hrun & _).
  eexists. split; [exact Hrun|]. split; vm_compute; reflexivity.
Defined.

Lemma for_upto_fails (body : nat -> production -> option production)
  (k : nat) :
  (forall s : production, body k s = None) ->
  forall (count from : nat) (s : production),
    (from <= k < from + count)%nat ->
    for_upto from count body s = None.
Proof.
  intros Hk. induction count as [|count IH]; intros from s Hrange; [lia|].
  cbn [for_upto]. destruct (Nat.eq_dec from k) as [->|Hne].
  - rewrite Hk. reflexivity.
  - destruct (body from s) as [s'|]; [|reflexivity].
    apply IH. lia.
Qed.

(** X28: a list of GPUs that is too short.  When GPUs are listed, but
    fewer than [m_gpus], and at least one game per GPU is asked for,
    [startGames] reads [m_gpusList] past its end once the first refresh
    has returned: the loop does not stop at the end of the list. *)
Theorem startGames_reads_past_the_list (E : environment) (m_gpus m_games : nat)
  (m_gpusList : list string) (s s1 : production) (unchanged : bool) :
  m_gpusList <> [] ->
  (length m_gpusList < m_gpus)%nat ->
  (0 < m_games)%nat ->
  updateNetwork E s = Return unchanged s1 ->
  startGames E m_gpus m_games m_gpusList s = OutOfRange s1.
Proof.
  intros Hlisted Hshort Hgames Hupdate.
  unfold startGames. rewrite Hupdate.
  rewrite (for_upto_fails _ (length m_gpusList)); [reflexivity| |lia].
  intros s'. apply (for_upto_fails _ 0%nat); [|lia].
  intros s''. unfold start_thread. cbv zeta.
  destruct (_ <? _)%nat; [|reflexivity].
  destruct m_gpusList as [|g gs] eqn:Hl; [destruct (Hlisted eq_refl)|].
  rewrite <- Hl.
  rewrite (proj2 (nth_error_None m_gpusList (length m_gpusList)) (le_n _)).
  reflexivity.
Qed.

(** The theorem at two GPUs of which only one is listed. *)
Lemma startGames_reads_past_the_list_witness :
  let E := Scenario.E_same_hash in
  let s := Scenario.coordinator_2x2 in
  ["0"] <> ([] : list string)
  /\ (length ["0"] < 2)%nat
  /\ startGames E 2 2 ["0"] s = OutOfRange (state_of (updateNetwork E s)).
Proof.
  intros E s.
  split; [discriminate|]. split; [cbn; lia|].
  apply (startGames_reads_past_the_list E 2 2 ["0"] s _ false);
    [discriminate|cbn; lia|lia|vm_compute; reflexivity].
Defined.

End ProductionMore.
